(** * Sudoku engine (sudoku.py): shallow embedding and verified properties

    The class [Sudoku] owns a 9x9 list of lists of Python integers and draws
    from the global [random] module.  Its methods are embedded in a small
    state-and-exception monad over the pair (board, random draws). *)

From Stdlib Require Import ZArith List Lia Bool Arith Permutation.
From stdpp Require Import base option list gmap countable pmap.
Import ListNotations.

(** ** State, exceptions and the monad *)

(** [self._board]: rows are distinct list objects, so no aliasing arises. *)
Abbreviation board := (list (list Z)).

(** The state a method runs in.  [draws] is the outcome of the random source:
    the sequence of raw numbers the generator yields from now on.  A finite
    list stands for a finite prefix of one outcome. *)
Record state : Type := State { _board : board; draws : list nat }.

Definition set_board (b : board) (st : state) : state := State b (draws st).
Definition set_draws (ds : list nat) (st : state) : state := State (_board st) ds.

Inductive exn : Type := IndexError | KeyError | RecursionError.

(** Outcome of running a method: normal return, an exception together with
    the state at the moment it was raised (the object stays mutated), or
    [Pending]: the run asks for a draw beyond the supplied prefix. *)
Inductive result (A : Type) : Type :=
| Return (v : A) (st : state)
| Raise (e : exn) (st : state)
| Pending.
Arguments Return {A} v st.
Arguments Raise {A} e st.
Arguments Pending {A}.

Definition M (A : Type) : Type := state -> result A.

Definition ret {A} (v : A) : M A := fun st => Return v st.
Definition raise {A} (e : exn) : M A := fun st => Raise e st.
Definition bind {A B} (m : M A) (k : A -> M B) : M B :=
  fun st => match m st with
            | Return v st' => k v st'
            | Raise e st' => Raise e st'
            | Pending => Pending
            end.

Declare Scope py_scope.
Delimit Scope py_scope with py.
Notation "x <- m ;; k" := (bind m (fun x => k))
  (at level 100, m at next level, right associativity) : py_scope.
Notation "m ;;; k" := (bind m (fun _ => k))
  (at level 100, right associativity) : py_scope.
Open Scope py_scope.

(** ** Primitive operations *)

(** [l[i]] for a non-negative index: IndexError outside the list. *)
Definition getitem {A} (l : list A) (i : nat) : M A :=
  fun st => match l !! i with
            | Some x => Return x st
            | None => Raise IndexError st
            end.

Definition get_board : M board := fun st => Return (_board st) st.

(** [self._board[i][j]] *)
Definition board_get (i j : nat) : M Z :=
  b <- get_board ;; row <- getitem b i ;; getitem row j.

(** [self._board[i][j] = v] *)
Definition board_set (i j : nat) (v : Z) : M unit :=
  fun st => match _board st !! i with
            | Some row =>
                match row !! j with
                | Some _ => Return tt (set_board (<[i := <[j := v]> row]> (_board st)) st)
                | None => Raise IndexError st
                end
            | None => Raise IndexError st
            end.

(** [random._randbelow(n)]: one raw draw, reduced into [0, n). *)
Definition randbelow (n : nat) : M nat :=
  fun st => match draws st with
            | r :: ds => Return (r mod n) (set_draws ds st)
            | [] => Pending
            end.

(** [random.randint(a, b)] *)
Definition randint (a b : nat) : M nat :=
  k <- randbelow (b - a + 1) ;; ret (a + k).

(** [random.choice(seq)]: IndexError on an empty sequence. *)
Definition choice (t : list Z) : M Z :=
  match t with
  | [] => raise IndexError
  | _ => k <- randbelow (length t) ;; getitem t k
  end.

(** ** The class *)

(** [self._difficulty], assigned once in [__init__] and never written again. *)
Definition _difficulty : gmap Z nat :=
  <[0%Z := 35]> (<[1%Z := 43]> (<[2%Z := 55]> (<[3%Z := 60]> ∅))).

Definition zero_board : board := replicate 9 (replicate 9 0%Z).

(** [__init__] *)
Definition init (ds : list nat) : state := State zero_board ds.

(** [clear_board] *)
Definition clear_board : M unit :=
  fun st => Return tt (set_board zero_board st).

(** [get_value] and [insert_value] *)
Definition get_value (row col : nat) : M Z := board_get row col.
Definition insert_value (row col : nat) (value : Z) : M unit := board_set row col value.

(** *** [_generate_diagonals] *)

(** [nums] is a Python set of small integers; CPython iterates such a set in
    ascending order, so [tuple(nums)] is modelled by the ascending list of
    the remaining numbers. *)
Definition fresh_nums : list Z := [1; 2; 3; 4; 5; 6; 7; 8; 9]%Z.

(** [nums.remove(num)] *)
Definition set_remove (num : Z) (nums : list Z) : M (list Z) :=
  if bool_decide (num ∈ nums) then ret (filter (fun n => n ≠ num) nums)
  else raise KeyError.

(** The inner loop [for y in range(start, start + 3)]. *)
Fixpoint diag_cols (x : nat) (ys : list nat) (nums : list Z) : M (list Z) :=
  match ys with
  | [] => ret nums
  | y :: ys' =>
      num <- choice nums ;;
      board_set x y num ;;;
      nums' <- set_remove num nums ;;
      diag_cols x ys' nums'
  end.

(** The outer loop [for x in range(9)]. *)
Fixpoint diag_rows (xs : list nat) (nums : list Z) : M unit :=
  match xs with
  | [] => ret tt
  | x :: xs' =>
      let nums1 := match nums with [] => fresh_nums | _ => nums end in
      let start := x - x mod 3 in
      nums' <- diag_cols x (seq start 3) nums1 ;;
      diag_rows xs' nums'
  end.

Definition _generate_diagonals : M unit := diag_rows (seq 0 9) [].

(** *** [_is_num_valid] *)

(** [for x in xs: if test(x): return False], reporting whether a hit
    occurred. *)
Fixpoint any_m {A} (test : A -> M bool) (xs : list A) : M bool :=
  match xs with
  | [] => ret false
  | x :: xs' => hit <- test x ;; if hit then ret true else any_m test xs'
  end.

Definition _is_num_valid (row col : nat) (num : Z) : M bool :=
  b <- get_board ;;
  r <- getitem b row ;;
  if existsb (Z.eqb num) r then ret false else
  hit <- any_m (fun x => v <- getitem x col ;; ret (Z.eqb v num)) b ;;
  if hit then ret false else
  let start_row := row - row mod 3 in
  let start_col := col - col mod 3 in
  hit <- any_m (fun i =>
           any_m (fun j => v <- board_get i j ;; ret (Z.eqb v num))
                 (seq start_col 3))
         (seq start_row 3) ;;
  if hit then ret false else ret true.

(** *** [_generate_board] *)

(** The loop [for num in range(1, 10)] of one frame; [next] is the recursive
    call [self._generate_board(i, j + 1)]. *)
Fixpoint try_nums (next : M bool) (i j : nat) (nums : list Z) : M bool :=
  match nums with
  | [] => ret false
  | num :: nums' =>
      ok <- _is_num_valid i j num ;;
      (if ok then
         board_set i j num ;;;
         done <- next ;;
         if done then ret true
         else board_set i j 0 ;;; try_nums next i j nums'
       else board_set i j 0 ;;; try_nums next i j nums')
  end.

(** [depth] is the number of frames the interpreter still allows; Python
    raises RecursionError when they are used up. *)
Fixpoint _generate_board_rec (depth : nat) (i j : nat) : M bool :=
  match depth with
  | O => raise RecursionError
  | S depth' =>
      if (i =? 8) && (j =? 9) then ret true else
      let i1 := if j =? 9 then i + 1 else i in
      let j1 := if j =? 9 then 0 else j in
      v <- board_get i1 j1 ;;
      if negb (v =? 0)%Z then _generate_board_rec depth' i1 (j1 + 1)
      else try_nums (_generate_board_rec depth' i1 (j1 + 1)) i1 j1 fresh_nums
  end.

(** CPython's default [sys.getrecursionlimit()]. *)
Definition recursion_limit : nat := 1000.

Definition _generate_board (i j : nat) : M bool :=
  _generate_board_rec recursion_limit i j.

(** *** [_remove_random_fields] *)

(** The loop [while not field]; [ds] mirrors the draws still available and
    only serves as the structural argument (each round takes two draws). *)
Fixpoint redraw (ds : list nat) : M (nat * nat) :=
  match ds with
  | _ :: _ :: ds' =>
      rand_row <- randint 0 8 ;;
      rand_col <- randint 0 8 ;;
      field <- board_get rand_row rand_col ;;
      if (field =? 0)%Z then redraw ds' else ret (rand_row, rand_col)
  | _ => fun _ => Pending
  end.

Definition while_not_field : M (nat * nat) := fun st => redraw (draws st) st.

(** [for _ in range(n)] *)
Fixpoint repeat_m (n : nat) (body : M unit) : M unit :=
  match n with
  | O => ret tt
  | S n' => body ;;; repeat_m n' body
  end.

(** [self._difficulty[diff_chosen]] *)
Definition difficulty_of (diff_chosen : Z) : M nat :=
  match _difficulty !! diff_chosen with
  | Some n => ret n
  | None => raise KeyError
  end.

Definition _remove_random_fields (diff_chosen : Z) : M unit :=
  n <- difficulty_of diff_chosen ;;
  repeat_m n (p <- while_not_field ;; board_set (fst p) (snd p) 0).

(** *** [generate] *)
Definition generate (diff_chosen : Z) : M unit :=
  _generate_diagonals ;;;
  _generate_board 0 0 ;;;
  _remove_random_fields diff_chosen.

(** ** Boards as 9x9 tables *)

(** Total cell read, used in statements (0 outside the table). *)
Definition cell (b : board) (i j : nat) : Z :=
  match b !! i with
  | Some row => match row !! j with Some v => v | None => 0%Z end
  | None => 0%Z
  end.

(** The board after [b[i][j] = v]. *)
Definition put (b : board) (i j : nat) (v : Z) : board :=
  match b !! i with
  | Some row => <[i := <[j := v]> row]> b
  | None => b
  end.

Definition wf (b : board) : Prop :=
  length b = 9 /\ forall i row, b !! i = Some row -> length row = 9.

(** Same row, same column or same 3x3 box: the cells [_is_num_valid] scans
    for the candidate cell [(i, j)], that cell included. *)
Definition scanned (i j i' j' : nat) : Prop :=
  i' = i \/ j' = j \/ (i' / 3 = i / 3 /\ j' / 3 = j / 3).

Definition in_grid (i j : nat) : Prop := i < 9 /\ j < 9.

Section BoardFacts.
Implicit Types (b : board) (i j : nat) (v : Z).

Lemma wf_zero_board : wf zero_board.
Proof.
  split; [reflexivity|].
  intros i row H. unfold zero_board in H.
  apply lookup_replicate in H as [-> _]. reflexivity.
Qed.

Lemma wf_row b i : wf b -> i < 9 -> exists row, b !! i = Some row /\ length row = 9.
Proof.
  intros [Hl Hr] Hi.
  destruct (lookup_lt_is_Some_2 b i) as [row Hrow]; [lia|].
  exists row. split; [assumption|]. eapply Hr; eassumption.
Qed.

Lemma wf_lookup b i j :
  wf b -> in_grid i j ->
  exists row, b !! i = Some row /\ length row = 9 /\ row !! j = Some (cell b i j).
Proof.
  intros Hwf [Hi Hj].
  destruct (wf_row b i Hwf Hi) as (row & Hrow & Hlen).
  exists row. split; [assumption|]. split; [assumption|].
  unfold cell. rewrite Hrow.
  destruct (lookup_lt_is_Some_2 row j) as [v Hv]; [lia|].
  rewrite Hv. reflexivity.
Qed.

Lemma wf_put b i j v : wf b -> wf (put b i j v).
Proof.
  intros [Hl Hr]. unfold put.
  destruct (b !! i) as [row|] eqn:Hrow; [|split; assumption].
  split; [rewrite length_insert; assumption|].
  intros i' row' H.
  destruct (decide (i = i')) as [<-|Hne].
  - rewrite list_lookup_insert_eq in H by (eapply lookup_lt_Some; eassumption).
    injection H as <-. rewrite length_insert. eapply Hr; eassumption.
  - rewrite list_lookup_insert_ne in H by assumption. eapply Hr; eassumption.
Qed.

Lemma cell_put_eq b i j v : wf b -> in_grid i j -> cell (put b i j v) i j = v.
Proof.
  intros Hwf Hij. destruct (wf_lookup b i j Hwf Hij) as (row & Hrow & Hlen & Hv).
  unfold put, cell. rewrite Hrow.
  rewrite list_lookup_insert_eq by (eapply lookup_lt_Some; eassumption).
  rewrite list_lookup_insert_eq by (destruct Hij; lia). reflexivity.
Qed.

Lemma cell_put_ne b i j v i' j' :
  (i', j') <> (i, j) -> cell (put b i j v) i' j' = cell b i' j'.
Proof.
  intros Hne. unfold put.
  destruct (b !! i) as [row|] eqn:Hrow; [|reflexivity].
  unfold cell. destruct (decide (i = i')) as [<-|Hi].
  - rewrite list_lookup_insert_eq by (eapply lookup_lt_Some; eassumption).
    rewrite Hrow. rewrite list_lookup_insert_ne by congruence. reflexivity.
  - rewrite list_lookup_insert_ne by assumption. reflexivity.
Qed.

Lemma cell_put b i j v i' j' :
  wf b -> in_grid i j ->
  cell (put b i j v) i' j' = if decide ((i', j') = (i, j)) then v else cell b i' j'.
Proof.
  intros Hwf Hij. destruct (decide ((i', j') = (i, j))) as [Heq|Hne].
  - injection Heq as -> ->. apply cell_put_eq; assumption.
  - apply cell_put_ne; assumption.
Qed.

Lemma put_put b i j v w : put (put b i j v) i j w = put b i j w.
Proof.
  unfold put at 2 3. destruct (b !! i) as [row|] eqn:Hrow.
  - unfold put. rewrite list_lookup_insert_eq by (eapply lookup_lt_Some; eassumption).
    rewrite list_insert_insert_eq, list_insert_insert_eq. reflexivity.
  - unfold put. rewrite Hrow. reflexivity.
Qed.

Lemma put_same b i j : wf b -> in_grid i j -> put b i j (cell b i j) = b.
Proof.
  intros Hwf Hij. destruct (wf_lookup b i j Hwf Hij) as (row & Hrow & Hlen & Hv).
  unfold put. rewrite Hrow.
  rewrite (list_insert_id row j) by assumption.
  apply list_insert_id. assumption.
Qed.

(** Two well-formed boards with the same cells are the same board. *)
Lemma board_ext b1 b2 :
  wf b1 -> wf b2 ->
  (forall i j, in_grid i j -> cell b1 i j = cell b2 i j) -> b1 = b2.
Proof.
  intros Hwf1 Hwf2 Hc. apply list_eq. intros i.
  destruct (decide (i < 9)) as [Hi|Hi].
  - destruct (wf_row b1 i Hwf1 Hi) as (r1 & Hr1 & Hl1).
    destruct (wf_row b2 i Hwf2 Hi) as (r2 & Hr2 & Hl2).
    rewrite Hr1, Hr2. f_equal. apply list_eq. intros j.
    destruct (decide (j < 9)) as [Hj|Hj].
    + specialize (Hc i j (conj Hi Hj)). unfold cell in Hc. rewrite Hr1, Hr2 in Hc.
      destruct (lookup_lt_is_Some_2 r1 j) as [v1 Hv1]; [lia|].
      destruct (lookup_lt_is_Some_2 r2 j) as [v2 Hv2]; [lia|].
      rewrite Hv1, Hv2 in *. congruence.
    + rewrite !(lookup_ge_None_2) by lia. reflexivity.
  - destruct Hwf1 as [Hl1 _], Hwf2 as [Hl2 _].
    rewrite !(lookup_ge_None_2) by lia. reflexivity.
Qed.

Lemma cell_zero_board i j : cell zero_board i j = 0%Z.
Proof.
  unfold cell, zero_board.
  destruct (replicate 9 (replicate 9 0%Z) !! i) as [row|] eqn:Hrow; [|reflexivity].
  apply lookup_replicate in Hrow as [-> _].
  destruct (replicate 9 0%Z !! j) as [v|] eqn:Hv; [|reflexivity].
  apply lookup_replicate in Hv as [-> _]. reflexivity.
Qed.
End BoardFacts.

(** ** Running the primitives on a well-formed board *)

Lemma bind_Return {A B} (m : M A) (k : A -> M B) st v st' :
  m st = Return v st' -> bind m k st = k v st'.
Proof. intros H. unfold bind. rewrite H. reflexivity. Qed.

Lemma bind_Raise {A B} (m : M A) (k : A -> M B) st e st' :
  m st = Raise e st' -> bind m k st = Raise e st'.
Proof. intros H. unfold bind. rewrite H. reflexivity. Qed.

Lemma bind_Pending {A B} (m : M A) (k : A -> M B) st :
  m st = Pending -> bind m k st = Pending.
Proof. intros H. unfold bind. rewrite H. reflexivity. Qed.

Lemma bind_inv {A B} (m : M A) (k : A -> M B) st v st2 :
  bind m k st = Return v st2 ->
  exists u st1, m st = Return u st1 /\ k u st1 = Return v st2.
Proof.
  unfold bind. destruct (m st) as [u st1| |]; [|discriminate..].
  intros H. exists u, st1. split; [reflexivity|assumption].
Qed.

Lemma board_get_run st i j :
  wf (_board st) -> in_grid i j ->
  board_get i j st = Return (cell (_board st) i j) st.
Proof.
  intros Hwf Hij. destruct (wf_lookup _ i j Hwf Hij) as (row & Hrow & _ & Hv).
  unfold board_get, bind, get_board, getitem. rewrite Hrow, Hv. reflexivity.
Qed.

Lemma board_set_run st i j v :
  wf (_board st) -> in_grid i j ->
  board_set i j v st = Return tt (set_board (put (_board st) i j v) st).
Proof.
  intros Hwf Hij. destruct (wf_lookup _ i j Hwf Hij) as (row & Hrow & _ & Hv).
  unfold board_set, put. rewrite Hrow, Hv. reflexivity.
Qed.

(** ** The scan of [_is_num_valid] *)

(** [range(start, start + 3)] with [start = x - x % 3] is the box of [x]. *)
Lemma box_seq_iff x i : (x - x mod 3 <= i < x - x mod 3 + 3) <-> i / 3 = x / 3.
Proof.
  pose proof (Nat.div_mod_eq x 3). pose proof (Nat.mod_upper_bound x 3).
  pose proof (Nat.div_mod_eq i 3). pose proof (Nat.mod_upper_bound i 3).
  lia.
Qed.

Lemma box_lt9 x i : x < 9 -> i / 3 = x / 3 -> i < 9.
Proof.
  pose proof (Nat.div_mod_eq x 3). pose proof (Nat.mod_upper_bound x 3).
  pose proof (Nat.div_mod_eq i 3). pose proof (Nat.mod_upper_bound i 3).
  lia.
Qed.

Definition row_hit (b : board) (row : nat) (num : Z) : bool :=
  match b !! row with Some r => existsb (Z.eqb num) r | None => false end.

Definition col_hit (b : board) (col : nat) (num : Z) : bool :=
  existsb (fun x : list Z => match x !! col with Some v => (v =? num)%Z | None => false end) b.

Definition box_hit (b : board) (row col : nat) (num : Z) : bool :=
  existsb (fun i => existsb (fun j => (cell b i j =? num)%Z) (seq (col - col mod 3) 3))
          (seq (row - row mod 3) 3).

(** What the method returns on a 9x9 board. *)
Definition valid_at (b : board) (row col : nat) (num : Z) : bool :=
  negb (row_hit b row num || col_hit b col num || box_hit b row col num).

Lemma any_m_pure {A} (test : A -> M bool) (f : A -> bool) xs st :
  (forall x, In x xs -> test x st = Return (f x) st) ->
  any_m test xs st = Return (existsb f xs) st.
Proof.
  induction xs as [|x xs IH]; intros H; simpl; [reflexivity|].
  rewrite (bind_Return _ _ _ _ _ (H x (or_introl eq_refl))).
  destruct (f x); simpl; [reflexivity|].
  apply IH. intros y Hy. apply H. right. assumption.
Qed.

Lemma is_num_valid_run st row col num :
  wf (_board st) -> in_grid row col ->
  _is_num_valid row col num st = Return (valid_at (_board st) row col num) st.
Proof.
  intros Hwf [Hr Hc]. destruct (wf_row _ row Hwf Hr) as (r & Hrow & Hlen).
  unfold _is_num_valid, valid_at, row_hit.
  unfold bind at 1. unfold get_board.
  unfold bind at 1. unfold getitem at 1. rewrite Hrow.
  destruct (existsb (Z.eqb num) r); [reflexivity|]. cbv beta iota zeta.
  rewrite (bind_Return _ _ _ (col_hit (_board st) col num) st).
  2:{ apply any_m_pure. intros x Hx.
      apply list_elem_of_In, list_elem_of_lookup in Hx as [i Hi].
      destruct Hwf as [_ Hrows]. specialize (Hrows i x Hi).
      destruct (lookup_lt_is_Some_2 x col) as [v Hv]; [lia|].
      unfold bind, getitem. rewrite Hv. reflexivity. }
  destruct (col_hit (_board st) col num); [reflexivity|]. cbv beta iota zeta.
  rewrite (bind_Return _ _ _ (box_hit (_board st) row col num) st).
  2:{ apply any_m_pure. intros i Hi. apply in_seq, box_seq_iff in Hi.
      apply any_m_pure. intros j Hj. apply in_seq, box_seq_iff in Hj.
      rewrite (bind_Return _ _ _ (cell (_board st) i j) st); [reflexivity|].
      apply board_get_run; [assumption|].
      split; [exact (box_lt9 row i Hr Hi)|exact (box_lt9 col j Hc Hj)]. }
  destruct (box_hit (_board st) row col num); reflexivity.
Qed.

Lemma row_hit_iff b row num :
  wf b -> row < 9 ->
  row_hit b row num = true <-> exists j, j < 9 /\ cell b row j = num.
Proof.
  intros Hwf Hr. destruct (wf_row b row Hwf Hr) as (r & Hrow & Hlen).
  unfold row_hit. rewrite Hrow, existsb_exists. split.
  - intros (v & Hin & Heq). apply Z.eqb_eq in Heq. subst v.
    apply list_elem_of_In, list_elem_of_lookup in Hin as [j Hj].
    exists j. split; [apply lookup_lt_Some in Hj; lia|].
    unfold cell. rewrite Hrow, Hj. reflexivity.
  - intros (j & Hj & Hc). exists num. split; [|apply Z.eqb_refl].
    destruct (wf_lookup b row j Hwf (conj Hr Hj)) as (r' & Hrow' & _ & Hv).
    rewrite Hrow in Hrow'. injection Hrow' as <-.
    apply list_elem_of_In, list_elem_of_lookup. exists j. congruence.
Qed.

Lemma col_hit_iff b col num :
  wf b -> col < 9 ->
  col_hit b col num = true <-> exists i, i < 9 /\ cell b i col = num.
Proof.
  intros Hwf Hc. unfold col_hit. rewrite existsb_exists. split.
  - intros (x & Hin & Heq).
    apply list_elem_of_In, list_elem_of_lookup in Hin as [i Hi].
    exists i. split; [apply lookup_lt_Some in Hi; destruct Hwf; lia|].
    unfold cell. rewrite Hi. destruct (x !! col); [|discriminate].
    apply Z.eqb_eq. assumption.
  - intros (i & Hi & Hcell).
    destruct (wf_lookup b i col Hwf (conj Hi Hc)) as (x & Hx & _ & Hv).
    exists x. split.
    + apply list_elem_of_In, list_elem_of_lookup. exists i. assumption.
    + rewrite Hv. apply Z.eqb_eq. assumption.
Qed.

Lemma box_hit_iff b row col num :
  box_hit b row col num = true <->
  exists i j, i / 3 = row / 3 /\ j / 3 = col / 3 /\ cell b i j = num.
Proof.
  unfold box_hit. rewrite existsb_exists. split.
  - intros (i & Hi & H). apply existsb_exists in H as (j & Hj & H).
    apply in_seq, box_seq_iff in Hi. apply in_seq, box_seq_iff in Hj.
    apply Z.eqb_eq in H. exists i, j. repeat split; assumption.
  - intros (i & j & Hi & Hj & H). exists i. split; [apply in_seq, box_seq_iff; assumption|].
    apply existsb_exists. exists j. split; [apply in_seq, box_seq_iff; assumption|].
    apply Z.eqb_eq. assumption.
Qed.

(** [valid_at] is false exactly when some scanned cell of the grid, the
    candidate cell included, holds [num]. *)
Lemma valid_at_false_iff b row col num :
  wf b -> in_grid row col ->
  valid_at b row col num = false <->
  exists i j, in_grid i j /\ scanned row col i j /\ cell b i j = num.
Proof.
  intros Hwf [Hr Hc]. unfold valid_at.
  rewrite negb_false_iff, !orb_true_iff.
  rewrite (row_hit_iff b row num Hwf Hr), (col_hit_iff b col num Hwf Hc), box_hit_iff.
  unfold scanned, in_grid. split.
  - intros [[(j & Hj & H)|(i & Hi & H)]|(i & j & Hi & Hj & H)].
    + exists row, j. split; [lia|]. split; [left; reflexivity|assumption].
    + exists i, col. split; [lia|]. split; [right; left; reflexivity|assumption].
    + exists i, j. split; [split; [exact (box_lt9 row i Hr Hi)|exact (box_lt9 col j Hc Hj)]|].
      split; [right; right; split; assumption|assumption].
  - intros (i & j & [Hi Hj] & [->|[->|[Hbi Hbj]]] & H).
    + left; left. exists j. split; assumption.
    + left; right. exists i. split; assumption.
    + right. exists i, j. repeat split; assumption.
Qed.

Lemma valid_at_true_iff b row col num :
  wf b -> in_grid row col ->
  valid_at b row col num = true <->
  forall i j, in_grid i j -> scanned row col i j -> cell b i j <> num.
Proof.
  intros Hwf Hg. split.
  - intros Hv i j Hij Hs Hc.
    assert (valid_at b row col num = false) as Hf
      by (apply valid_at_false_iff; [assumption..|]; exists i, j; auto).
    congruence.
  - intros H. destruct (valid_at b row col num) eqn:Hv; [reflexivity|].
    apply valid_at_false_iff in Hv as (i & j & Hij & Hs & Hc); [|assumption..].
    exfalso. eapply H; eassumption.
Qed.

(** ** Solved and consistent grids *)

Definition row_cells (i : nat) : list (nat * nat) := map (fun j => (i, j)) (seq 0 9).
Definition col_cells (j : nat) : list (nat * nat) := map (fun i => (i, j)) (seq 0 9).
(** Box [k] (0..8, row-major over the 3x3 arrangement of boxes). *)
Definition box_cells (k : nat) : list (nat * nat) :=
  flat_map (fun i => map (fun j => (i, j)) (seq (3 * (k mod 3)) 3)) (seq (3 * (k / 3)) 3).

(** The 27 units: nine rows, nine columns, nine boxes. *)
Definition units : list (list (nat * nat)) :=
  map row_cells (seq 0 9) ++ map col_cells (seq 0 9) ++ map box_cells (seq 0 9).

Definition unit_values (b : board) (u : list (nat * nat)) : list Z :=
  map (fun p => cell b (fst p) (snd p)) u.

(** Fully solved: every row, column and box contains each of 1-9 exactly
    once. *)
Definition solved (b : board) : Prop :=
  wf b /\
  forall u, In u units ->
  forall d, (1 <= d <= 9)%Z -> count_occ Z.eq_dec (unit_values b u) d = 1.

Definition entries_in (lo hi : Z) (b : board) : Prop :=
  forall i j, in_grid i j -> (lo <= cell b i j <= hi)%Z.

(** Every placed (non-zero) cell differs from every other cell of its row,
    column and box. *)
Definition consistent (b : board) : Prop :=
  forall i j i' j',
    in_grid i j -> in_grid i' j' -> scanned i j i' j' -> (i', j') <> (i, j) ->
    cell b i j <> 0%Z -> cell b i' j' <> cell b i j.

(** [s] completes [b]: a solved grid that keeps every placed cell of [b]. *)
Definition completes (b s : board) : Prop :=
  solved s /\ forall i j, in_grid i j -> cell b i j <> 0%Z -> cell s i j = cell b i j.

Definition all_cells : list (nat * nat) := list_prod (seq 0 9) (seq 0 9).

Lemma in_all_cells i j : in_grid i j <-> In (i, j) all_cells.
Proof.
  unfold all_cells, in_grid. rewrite in_prod_iff, !in_seq. lia.
Qed.

Global Instance scanned_dec i j i' j' : Decision (scanned i j i' j').
Proof. unfold scanned. apply _. Defined.

Global Instance in_grid_dec i j : Decision (in_grid i j).
Proof. unfold in_grid. apply _. Defined.

Lemma scanned_sym i j i' j' : scanned i j i' j' -> scanned i' j' i j.
Proof. unfold scanned. intuition congruence. Qed.

Definition unit_ok (u : list (nat * nat)) : Prop :=
  NoDup u /\ length u = 9 /\
  Forall (fun p => in_grid (fst p) (snd p) /\
                   Forall (fun q => scanned (fst p) (snd p) (fst q) (snd q)) u) u.

Global Instance unit_ok_dec u : Decision (unit_ok u).
Proof. unfold unit_ok. apply _. Defined.

Lemma units_ok : Forall unit_ok units.
Proof. apply (bool_decide_unpack _). vm_compute. exact I. Qed.

Lemma scanned_share_unit :
  Forall (fun p => Forall (fun q =>
            scanned (fst p) (snd p) (fst q) (snd q) ->
            Exists (fun u => p ∈ u /\ q ∈ u) units) all_cells) all_cells.
Proof. apply (bool_decide_unpack _). vm_compute. exact I. Qed.

Lemma row_unit i : i < 9 -> In (row_cells i) units.
Proof.
  intros Hi. unfold units. apply in_or_app. left.
  apply in_map. apply in_seq. lia.
Qed.

Lemma in_row_cells i j : j < 9 -> In (i, j) (row_cells i).
Proof.
  intros Hj. unfold row_cells. apply (in_map (fun j => (i, j))). apply in_seq. lia.
Qed.

Lemma NoDup_map_inj_on {A B} (f : A -> B) l x y :
  List.NoDup (map f l) -> In x l -> In y l -> f x = f y -> x = y.
Proof.
  induction l as [|a l IH]; simpl; [tauto|].
  intros Hnd Hx Hy Hf. apply NoDup_cons_iff in Hnd as [Hna Hnd].
  destruct Hx as [<-|Hx], Hy as [<-|Hy]; auto.
  - exfalso. apply Hna. rewrite Hf. apply in_map. assumption.
  - exfalso. apply Hna. rewrite <- Hf. apply in_map. assumption.
Qed.

Lemma NoDup_fresh_nums : List.NoDup fresh_nums.
Proof. apply NoDup_ListNoDup, (bool_decide_unpack _). vm_compute. exact I. Qed.

Lemma in_fresh_nums d : In d fresh_nums <-> (1 <= d <= 9)%Z.
Proof. unfold fresh_nums. simpl. lia. Qed.

Lemma count_fresh_nums d : (1 <= d <= 9)%Z -> count_occ Z.eq_dec fresh_nums d = 1.
Proof.
  intros Hd.
  assert (d = 1 \/ d = 2 \/ d = 3 \/ d = 4 \/ d = 5 \/ d = 6 \/ d = 7 \/ d = 8 \/ d = 9)%Z
    as H by lia.
  repeat (destruct H as [->|H]; [reflexivity|]). subst d. reflexivity.
Qed.

(** A unit of nine cells contains each of 1-9 exactly once iff its values
    are a permutation of 1..9. *)
Lemma unit_counts_perm (vs : list Z) :
  length vs = 9 ->
  (forall d, (1 <= d <= 9)%Z -> count_occ Z.eq_dec vs d = 1) <-> Permutation vs fresh_nums.
Proof.
  intros Hlen. split.
  - intros Hc. symmetry. apply NoDup_Permutation_bis.
    + apply NoDup_fresh_nums.
    + rewrite Hlen. reflexivity.
    + intros d Hd. apply in_fresh_nums in Hd.
      apply (count_occ_In Z.eq_dec). rewrite (Hc d Hd). lia.
  - intros Hp d Hd.
    rewrite (proj1 (Permutation_count_occ Z.eq_dec vs fresh_nums) Hp d).
    apply count_fresh_nums. assumption.
Qed.

Lemma solved_perm b :
  solved b <-> wf b /\ forall u, In u units -> Permutation (unit_values b u) fresh_nums.
Proof.
  pose proof units_ok as Hok. rewrite List.Forall_forall in Hok.
  assert (forall u, In u units -> length (unit_values b u) = 9) as Hlen.
  { intros u Hu. unfold unit_values. rewrite length_map.
    destruct (Hok u Hu) as (_ & Hl & _). exact Hl. }
  unfold solved. split; intros [Hwf H]; (split; [assumption|]); intros u Hu.
  - apply (proj1 (unit_counts_perm _ (Hlen u Hu))). apply H. assumption.
  - apply (proj2 (unit_counts_perm _ (Hlen u Hu))). apply H. assumption.
Qed.

(** Solved grids are exactly the consistent grids with entries in 1..9. *)
Lemma solved_iff b :
  solved b <-> wf b /\ entries_in 1 9 b /\ consistent b.
Proof.
  pose proof units_ok as Hok. rewrite List.Forall_forall in Hok.
  rewrite solved_perm. split.
  - intros [Hwf Hp]. split; [assumption|]. split.
    + intros i j [Hi Hj]. apply in_fresh_nums.
      apply (Permutation_in _ (Hp (row_cells i) (row_unit i Hi))).
      unfold unit_values.
      apply (in_map (fun p => cell b (fst p) (snd p)) _ (i, j)), in_row_cells, Hj.
    + intros i j i' j' Hij Hij' Hs Hne Hnz Heq.
      pose proof scanned_share_unit as Hsh. rewrite List.Forall_forall in Hsh.
      specialize (Hsh (i, j) (proj1 (in_all_cells i j) Hij)).
      rewrite List.Forall_forall in Hsh.
      specialize (Hsh (i', j') (proj1 (in_all_cells i' j') Hij') Hs).
      apply List.Exists_exists in Hsh as (u & Hu & Hpu & Hqu).
      apply list_elem_of_In in Hpu, Hqu. apply Hne.
      apply (NoDup_map_inj_on (fun p => cell b (fst p) (snd p)) u); try assumption.
      eapply Permutation_NoDup; [symmetry; apply (Hp u Hu)|apply NoDup_fresh_nums].
  - intros (Hwf & He & Hc). split; [assumption|]. intros u Hu.
    destruct (Hok u Hu) as (Hnd & Hlen & Hall). rewrite List.Forall_forall in Hall.
    apply NoDup_ListNoDup in Hnd. apply NoDup_Permutation_bis.
    + apply NoDup_map_NoDup_ForallPairs; [|assumption].
      intros [i j] [i' j'] Hp Hq Heq. simpl in Heq.
      destruct (decide ((i', j') = (i, j))) as [E|Hne]; [congruence|exfalso].
      destruct (Hall _ Hp) as [Hg Hsc]. rewrite List.Forall_forall in Hsc.
      specialize (Hsc _ Hq). destruct (Hall _ Hq) as [Hg' _]. simpl in *.
      apply (Hc i j i' j' Hg Hg' Hsc Hne); [|congruence].
      specialize (He i j Hg). lia.
    + unfold unit_values. rewrite length_map, Hlen. reflexivity.
    + intros v Hv. apply in_map_iff in Hv as ([i j] & <- & Hin).
      apply in_fresh_nums, He, (Hall _ Hin).
Qed.

(** ** The backtracking search *)

(** Row-major rank of a cell; the cursor [(i, 9)] has the rank of
    [(i + 1, 0)]. *)
Definition pos (i j : nat) : nat := 9 * i + j.

(** Every cell the cursor has passed is placed. *)
Definition prefix_full (k : nat) (b : board) : Prop :=
  forall i j, in_grid i j -> pos i j < k -> cell b i j <> 0%Z.

(** Lexicographic order on grids read in row-major order. *)
Definition lex_lt (b1 b2 : board) : Prop :=
  exists i j, in_grid i j /\ (cell b1 i j < cell b2 i j)%Z /\
    forall i' j', in_grid i' j' -> pos i' j' < pos i j -> cell b1 i' j' = cell b2 i' j'.

Definition lex_le (b1 b2 : board) : Prop := b1 = b2 \/ lex_lt b1 b2.

(** [b'] extends [b]: placed cells are kept and every cell that was empty
    holds a digit that occurs nowhere else in its row, column and box. *)
Definition fills (b b' : board) : Prop :=
  wf b' /\
  (forall i j, in_grid i j -> cell b i j <> 0%Z -> cell b' i j = cell b i j) /\
  (forall i j, in_grid i j -> cell b i j = 0%Z ->
     (1 <= cell b' i j <= 9)%Z /\
     forall i' j', in_grid i' j' -> scanned i j i' j' -> (i', j') <> (i, j) ->
                   cell b' i' j' <> cell b' i j).

(** What a call of the filler on board [b] delivers: on failure the board is
    back to [b] and [b] has no completion; on success the board is a filling
    of [b], and no completion of [b] precedes it in row-major order. *)
Definition filler_post (b : board) (r : bool) (b' : board) : Prop :=
  (r = false -> b' = b /\ forall s, ~ completes b s) /\
  (r = true -> fills b b' /\ forall s, completes b s -> lex_le b' s).

Definition filler_ok (k : nat) (m : M bool) : Prop :=
  forall b ds, wf b -> prefix_full k b ->
  exists r b', m (State b ds) = Return r (State b' ds) /\ filler_post b r b'.

(** Candidates [n, n+1, ..., 9] still to be tried by the loop. *)
Definition cands (n : nat) : list Z := map Z.of_nat (seq n (10 - n)).

Lemma pos_inj i j i' j' :
  in_grid i j -> in_grid i' j' -> pos i j = pos i' j' -> (i, j) = (i', j').
Proof.
  unfold in_grid, pos. intros [Hi Hj] [Hi' Hj'] Heq.
  assert (i = i') by lia. assert (j = j') by lia. congruence.
Qed.

Section Completions.
Variables (b s : board).
Hypothesis Hwf : wf b.
Hypothesis Hs : completes b s.

Lemma completes_entries i j : in_grid i j -> (1 <= cell s i j <= 9)%Z.
Proof.
  destruct Hs as [Hsol _]. apply solved_iff in Hsol as (_ & He & _). apply He.
Qed.

(** The digit a completion holds at an empty cell passes the scan. *)
Lemma completes_valid i j :
  in_grid i j -> cell b i j = 0%Z -> valid_at b i j (cell s i j) = true.
Proof.
  intros Hij Hz. apply valid_at_true_iff; [assumption..|].
  intros i' j' Hij' Hsc Heq.
  pose proof (completes_entries i j Hij) as Hr.
  destruct Hs as [Hsol Hag]. apply solved_iff in Hsol as (_ & _ & Hc).
  assert (cell b i' j' <> 0%Z) as Hnz by lia.
  assert ((i', j') <> (i, j)) as Hne by (intros E; injection E as -> ->; lia).
  apply (Hc i j i' j' Hij Hij' Hsc Hne); [lia|].
  rewrite (Hag i' j' Hij' Hnz). assumption.
Qed.

Lemma completes_put i j :
  in_grid i j -> completes (put b i j (cell s i j)) s.
Proof.
  intros Hij. destruct Hs as [Hsol Hag]. split; [assumption|].
  intros i' j' Hij' Hnz. rewrite cell_put in Hnz |- * by assumption.
  destruct (decide ((i', j') = (i, j))) as [E|_].
  - injection E as -> ->. reflexivity.
  - apply Hag; assumption.
Qed.
End Completions.

Lemma try_nums_ok next i j :
  in_grid i j -> filler_ok (S (pos i j)) next ->
  forall m n b ds,
    10 - n = m -> 1 <= n ->
    wf b -> prefix_full (pos i j) b -> cell b i j = 0%Z ->
    (forall s, completes b s -> (Z.of_nat n <= cell s i j)%Z) ->
    exists r b', try_nums next i j (cands n) (State b ds) = Return r (State b' ds) /\
                 filler_post b r b'.
Proof.
  intros Hij Hnext. induction m as [|m IH]; intros n b ds Hm Hn Hwf Hpf Hz Hlow.
  - (* no candidate left *)
    unfold cands. rewrite Hm. simpl. exists false, b. split; [reflexivity|].
    split; [|discriminate]. intros _. split; [reflexivity|].
    intros s Hs. pose proof (Hlow s Hs). pose proof (completes_entries b s Hs i j Hij). lia.
  - assert (cands n = Z.of_nat n :: cands (S n)) as ->.
    { unfold cands. rewrite Hm. replace (10 - S n) with m by lia. reflexivity. }
    assert (put b i j 0 = b) as Hback.
    { rewrite <- Hz at 1. apply put_same; assumption. }
    cbn [try_nums].
    rewrite (bind_Return _ _ _ _ _ (is_num_valid_run (State b ds) i j _ Hwf Hij)).
    cbn [_board].
    destruct (valid_at b i j (Z.of_nat n)) eqn:Hv.
    + (* the candidate passes the scan: place it and recurse *)
      rewrite (bind_Return _ _ _ _ _ (board_set_run (State b ds) i j _ Hwf Hij)).
      unfold set_board. cbn [_board draws].
      set (b1 := put b i j (Z.of_nat n)).
      assert (wf b1) as Hwf1 by (apply wf_put; assumption).
      assert (prefix_full (S (pos i j)) b1) as Hpf1.
      { intros i' j' Hij' Hlt. unfold b1. rewrite cell_put by assumption.
        destruct (decide ((i', j') = (i, j))) as [_|Hne]; [lia|].
        apply Hpf; [assumption|].
        assert (pos i' j' <> pos i j)
          by (intros E; apply Hne, pos_inj; assumption).
        lia. }
      destruct (Hnext b1 ds Hwf1 Hpf1) as (r1 & b1' & Hrun & Hpost).
      rewrite (bind_Return _ _ _ _ _ Hrun).
      destruct r1.
      * (* first success: propagate *)
        exists true, b1'. split; [reflexivity|].
        split; [discriminate|]. intros _.
        destruct Hpost as [_ Hpost]. destruct (Hpost eq_refl) as [(Hwf' & Hkeep & Hnew) Hmin].
        assert (cell b1' i j = Z.of_nat n) as Hhere.
        { rewrite Hkeep by (try assumption; unfold b1; rewrite cell_put_eq by assumption; lia).
          unfold b1. apply cell_put_eq; assumption. }
        split.
        -- split; [assumption|]. split.
           ++ intros i' j' Hij' Hnz. rewrite Hkeep.
              ** unfold b1. apply cell_put_ne. intros E. injection E as -> ->. congruence.
              ** assumption.
              ** unfold b1. rewrite cell_put_ne; [assumption|].
                 intros E. injection E as -> ->. congruence.
           ++ intros i' j' Hij' Hz'.
              destruct (decide ((i', j') = (i, j))) as [E|Hne].
              ** injection E as -> ->. rewrite Hhere. split; [lia|].
                 intros i2 j2 Hij2 Hsc Hne2.
                 destruct (Z.eq_dec (cell b i2 j2) 0%Z) as [Hz2|Hnz2].
                 --- (* an empty peer is filled by the recursion *)
                     assert (cell b1 i2 j2 = 0%Z) as Hz2'
                       by (unfold b1; rewrite cell_put_ne; assumption).
                     destruct (Hnew i2 j2 Hij2 Hz2') as [_ Hd].
                     intros Heq. apply (Hd i j Hij (scanned_sym _ _ _ _ Hsc)).
                     { congruence. }
                     rewrite Hhere. symmetry. assumption.
                 --- (* a placed peer was seen by the scan *)
                     rewrite Hkeep; [|assumption|unfold b1; rewrite cell_put_ne; assumption].
                     unfold b1. rewrite cell_put_ne by assumption.
                     apply (proj1 (valid_at_true_iff b i j _ Hwf Hij) Hv); assumption.
              ** apply Hnew; [assumption|].
                 unfold b1. rewrite cell_put_ne; assumption.
        -- intros s Hs. pose proof (Hlow s Hs) as Hge.
           destruct (Z.eq_dec (cell s i j) (Z.of_nat n)) as [Heq|Hgt].
           ++ apply Hmin. unfold b1. rewrite <- Heq. apply completes_put; assumption.
           ++ right. exists i, j. split; [assumption|]. split; [rewrite Hhere; lia|].
              intros i' j' Hij' Hlt.
              assert ((i', j') <> (i, j)) as Hne by (intros E; injection E as -> ->; lia).
              pose proof (Hpf i' j' Hij' Hlt) as Hnz.
              rewrite Hkeep; [|assumption|unfold b1; rewrite cell_put_ne; assumption].
              unfold b1. rewrite cell_put_ne by assumption.
              symmetry. apply Hs; assumption.
      * (* the recursion failed: undo and try the next candidate *)
        destruct Hpost as [Hpost _]. destruct (Hpost eq_refl) as [-> Hnone].
        rewrite (bind_Return _ _ _ _ _ (board_set_run (State b1 ds) i j _ Hwf1 Hij)).
        unfold set_board. cbn [_board draws].
        unfold b1 at 1. rewrite put_put, Hback.
        apply (IH (S n)); try assumption; try lia.
        intros s Hs. pose proof (Hlow s Hs) as Hge.
        assert (cell s i j <> Z.of_nat n); [|lia].
        intros Heq. apply (Hnone s). unfold b1. rewrite <- Heq.
        apply completes_put; assumption.
    + (* the candidate is rejected by the scan *)
      rewrite (bind_Return _ _ _ _ _ (board_set_run (State b ds) i j _ Hwf Hij)).
      unfold set_board. cbn [_board draws]. rewrite Hback.
      apply (IH (S n)); try assumption; try lia.
      intros s Hs. pose proof (Hlow s Hs) as Hge.
      assert (cell s i j <> Z.of_nat n); [|lia].
      intros Heq. pose proof (completes_valid b s Hwf Hs i j Hij Hz) as Hv'.
      congruence.
Qed.

Lemma generate_board_rec_ok depth :
  forall i j, i <= 8 -> j <= 9 -> 82 <= depth + pos i j ->
  filler_ok (pos i j) (_generate_board_rec depth i j).
Proof.
  induction depth as [|depth IH]; intros i j Hi Hj Hd.
  - unfold pos in Hd. lia.
  - intros b ds Hwf Hpf. cbn [_generate_board_rec].
    destruct ((i =? 8) && (j =? 9)) eqn:Hend.
    + (* past the last cell *)
      apply andb_true_iff in Hend as [Hi8 Hj9].
      apply Nat.eqb_eq in Hi8, Hj9. subst i j.
      exists true, b. split; [reflexivity|]. split; [discriminate|]. intros _.
      assert (forall i j, in_grid i j -> cell b i j <> 0%Z) as Hfull.
      { intros i j Hij. apply Hpf; [assumption|]. unfold pos, in_grid in *. lia. }
      split.
      * split; [assumption|]. split; [reflexivity|].
        intros i j Hij Hz. exfalso. apply (Hfull i j Hij Hz).
      * intros s [Hsol Hag]. left. apply board_ext; [assumption|apply Hsol|].
        intros i j Hij. symmetry. apply Hag; [assumption|]. apply Hfull. assumption.
    + set (i1 := if j =? 9 then i + 1 else i).
      set (j1 := if j =? 9 then 0 else j).
      assert (in_grid i1 j1 /\ pos i1 j1 = pos i j) as [Hg Hpos].
      { unfold i1, j1, in_grid, pos. apply andb_false_iff in Hend.
        destruct (Nat.eqb_spec j 9) as [->|Hj9].
        - destruct Hend as [Hend|Hend]; [|discriminate].
          apply Nat.eqb_neq in Hend. lia.
        - lia. }
      destruct Hg as [Hi1 Hj1].
      assert (filler_ok (S (pos i j)) (_generate_board_rec depth i1 (j1 + 1))) as Hnext.
      { replace (S (pos i j)) with (pos i1 (j1 + 1)) by (unfold pos in *; lia).
        apply IH; [lia|lia|]. unfold pos in *. lia. }
      rewrite (bind_Return _ _ _ _ _ (board_get_run (State b ds) i1 j1 Hwf (conj Hi1 Hj1))).
      cbn [_board].
      destruct (Z.eqb_spec (cell b i1 j1) 0) as [Hz|Hnz]; cbn [negb].
      * (* empty cell: run the candidate loop *)
        rewrite <- Hpos in Hnext, Hpf.
        apply (try_nums_ok _ i1 j1 (conj Hi1 Hj1) Hnext 9 1 b ds); try assumption; try lia.
        intros s Hs. pose proof (completes_entries b s Hs i1 j1 (conj Hi1 Hj1)). lia.
      * (* placed cell: move on, no candidate is tried *)
        apply Hnext; [assumption|].
        intros i' j' Hij' Hlt.
        destruct (decide (pos i' j' = pos i1 j1)) as [E|Hne].
        -- apply pos_inj in E; [|assumption|split; assumption].
           injection E as -> ->. assumption.
        -- apply Hpf; [assumption|lia].
Qed.

(** A filling of a consistent grid with entries in 0..9 is a completion. *)
Lemma fills_completes b b' :
  entries_in 0 9 b -> consistent b -> fills b b' -> completes b b'.
Proof.
  intros He Hc (Hwf' & Hkeep & Hnew). split; [|assumption].
  apply solved_iff. split; [assumption|]. split.
  - intros i j Hij. destruct (Z.eq_dec (cell b i j) 0%Z) as [Hz|Hnz].
    + apply Hnew; assumption.
    + rewrite Hkeep by assumption. specialize (He i j Hij). lia.
  - intros i j i' j' Hij Hij' Hsc Hne _.
    destruct (Z.eq_dec (cell b i j) 0%Z) as [Hz|Hnz].
    + apply (Hnew i j Hij Hz); assumption.
    + destruct (Z.eq_dec (cell b i' j') 0%Z) as [Hz'|Hnz'].
      * intros Heq. apply (proj2 (Hnew i' j' Hij' Hz') i j Hij (scanned_sym _ _ _ _ Hsc)).
        { congruence. }
        symmetry. assumption.
      * rewrite !Hkeep by assumption. apply Hc; assumption.
Qed.

(** ** The diagonal seeder *)

(** Successive assignments [b[p] = v]. *)
Fixpoint puts (b : board) (ps : list (nat * nat)) (vs : list Z) : board :=
  match ps, vs with
  | p :: ps', v :: vs' => puts (put b (fst p) (snd p) v) ps' vs'
  | _, _ => b
  end.

Lemma wf_puts ps : forall vs b, wf b -> wf (puts b ps vs).
Proof.
  induction ps as [|p ps IH]; intros [|v vs] b Hwf; simpl; try assumption.
  apply IH, wf_put, Hwf.
Qed.

Lemma cell_puts_notin ps : forall vs b i j,
  ~ In (i, j) ps -> cell (puts b ps vs) i j = cell b i j.
Proof.
  induction ps as [|[pi pj] ps IH]; intros [|v vs] b i j Hn; simpl; try reflexivity.
  rewrite IH by (intros H; apply Hn; right; assumption).
  apply cell_put_ne. intros E. apply Hn. left. symmetry. assumption.
Qed.

Lemma map_cell_puts ps : forall vs b,
  wf b -> Forall (fun p => in_grid (fst p) (snd p)) ps -> List.NoDup ps ->
  length vs = length ps ->
  map (fun p => cell (puts b ps vs) (fst p) (snd p)) ps = vs.
Proof.
  induction ps as [|[pi pj] ps IH]; intros [|v vs] b Hwf Hg Hnd Hlen;
    simpl in *; try discriminate; [reflexivity|].
  apply List.Forall_cons_iff in Hg as [Hg1 Hg].
  apply NoDup_cons_iff in Hnd as [Hni Hnd].
  f_equal.
  - rewrite cell_puts_notin by assumption. apply cell_put_eq; assumption.
  - apply IH; [apply wf_put; assumption|assumption|assumption|lia].
Qed.

Lemma puts_app ps1 : forall vs1 ps2 vs2 b,
  length vs1 = length ps1 ->
  puts b (ps1 ++ ps2) (vs1 ++ vs2) = puts (puts b ps1 vs1) ps2 vs2.
Proof.
  induction ps1 as [|p ps1 IH]; intros [|v vs1] ps2 vs2 b Hlen;
    simpl in *; try discriminate; [reflexivity|].
  apply IH. lia.
Qed.

Lemma filter_ne_notin (num : Z) (l : list Z) :
  ~ In num l -> filter (fun n => n <> num) l = l.
Proof.
  induction l as [|a l IH]; intros Hn; [reflexivity|].
  rewrite filter_cons. destruct (decide (a <> num)) as [_|E].
  - f_equal. apply IH. intros H. apply Hn. right. assumption.
  - exfalso. apply Hn. left. destruct (Z.eq_dec a num); [assumption|contradiction].
Qed.

(** Removing a member of a duplicate-free list leaves a permutation of the
    rest. *)
Lemma remove_member_perm (num : Z) (l : list Z) :
  List.NoDup l -> In num l ->
  Permutation l (num :: filter (fun n => n <> num) l).
Proof.
  induction l as [|a l IH]; intros Hnd Hin; [destruct Hin|].
  apply NoDup_cons_iff in Hnd as [Hna Hnd].
  rewrite filter_cons. destruct (decide (a <> num)) as [Hne|E].
  - destruct Hin as [->|Hin]; [contradiction|].
    rewrite perm_swap. apply perm_skip. apply IH; assumption.
  - assert (a = num) as -> by (destruct (Z.eq_dec a num); [assumption|contradiction]).
    rewrite filter_ne_notin by assumption. reflexivity.
Qed.

Lemma choice_run nums r ds b :
  nums <> [] ->
  exists num, In num nums /\ choice nums (State b (r :: ds)) = Return num (State b ds).
Proof.
  destruct nums as [|n0 l]; [congruence|]. intros _.
  assert (r mod length (n0 :: l) < length (n0 :: l)) as Hlt
    by (apply Nat.mod_upper_bound; discriminate).
  destruct (lookup_lt_is_Some_2 _ _ Hlt) as [num Hnum].
  exists num. split.
  - apply list_elem_of_In, list_elem_of_lookup. eexists. eassumption.
  - unfold choice, bind, randbelow, getitem, set_draws. cbn [draws _board].
    rewrite Hnum. reflexivity.
Qed.

(** One row of the seeder: three draws, three writes. *)
Lemma diag_cols_ok x : x < 9 ->
  forall ys nums b used rest,
    wf b -> Forall (fun y => y < 9) ys -> List.NoDup nums ->
    length ys <= length nums -> length used = length ys ->
    exists vs nums',
      diag_cols x ys nums (State b (used ++ rest))
        = Return nums' (State (puts b (map (pair x) ys) vs) rest) /\
      length vs = length ys /\ Permutation nums (vs ++ nums') /\ List.NoDup nums'.
Proof.
  intros Hx. induction ys as [|y ys IH]; intros nums b used rest Hwf Hys Hnd Hlen Hused.
  - destruct used; [|discriminate]. exists [], nums. simpl.
    repeat split; [reflexivity|assumption].
  - destruct used as [|r used]; [discriminate|]. simpl in Hused, Hlen.
    apply List.Forall_cons_iff in Hys as [Hy Hys].
    destruct (choice_run nums r (used ++ rest) b) as (num & Hin & Hch);
      [destruct nums; [simpl in Hlen; lia|discriminate]|].
    cbn [diag_cols]. rewrite (bind_Return _ _ _ _ _ Hch).
    rewrite (bind_Return _ _ _ _ _ (board_set_run (State b (used ++ rest)) x y num Hwf (conj Hx Hy))).
    unfold set_board. cbn [_board draws].
    unfold set_remove. rewrite bool_decide_eq_true_2 by (apply list_elem_of_In; assumption).
    unfold bind at 1, ret at 1.
    pose proof (remove_member_perm num nums Hnd Hin) as Hperm.
    set (nums1 := filter (fun n => n <> num) nums) in *.
    assert (List.NoDup nums1) as Hnd1.
    { eapply NoDup_cons_iff. eapply Permutation_NoDup; eassumption. }
    assert (length nums = S (length nums1)) as Hl1
      by (rewrite (Permutation_length Hperm); reflexivity).
    destruct (IH nums1 (put b x y num) used rest) as (vs & nums' & Hrun & Hlv & Hp & Hnd');
      [apply wf_put; assumption|assumption|assumption|lia|lia|].
    exists (num :: vs), nums'. simpl. rewrite Hrun.
    repeat split; [lia| |assumption].
    rewrite Hperm. apply perm_skip. assumption.
Qed.

(** The cells of the [k]-th diagonal box, in the order the seeder writes
    them. *)
Lemma diag_box_cells k :
  k < 3 ->
  box_cells (4 * k)
  = map (pair (3 * k)) (seq (3 * k) 3) ++ map (pair (3 * k + 1)) (seq (3 * k) 3)
    ++ map (pair (3 * k + 2)) (seq (3 * k) 3).
Proof.
  intros Hk. assert (k = 0 \/ k = 1 \/ k = 2) as [->|[->| ->]] by lia; reflexivity.
Qed.

Lemma diag_box_facts k :
  k < 3 ->
  List.NoDup (box_cells (4 * k)) /\
  Forall (fun p => in_grid (fst p) (snd p) /\ fst p / 3 = k /\ snd p / 3 = k)
         (box_cells (4 * k)).
Proof.
  intros Hk. assert (k = 0 \/ k = 1 \/ k = 2) as [->|[->| ->]] by lia;
    (split; [apply NoDup_ListNoDup|]; apply (bool_decide_unpack _); vm_compute; exact I).
Qed.

(** Three rows of the seeder fill one diagonal box with a permutation of
    1..9 and leave the set of available numbers empty again. *)
Lemma diag_block_ok k rows :
  k < 3 ->
  forall b used rest,
    wf b -> length used = 9 ->
    exists vs,
      diag_rows (3 * k :: 3 * k + 1 :: 3 * k + 2 :: rows) [] (State b (used ++ rest))
        = diag_rows rows [] (State (puts b (box_cells (4 * k)) vs) rest) /\
      Permutation vs fresh_nums.
Proof.
  intros Hk b used rest Hwf Hused.
  assert (exists u1 u2 u3, used = u1 ++ u2 ++ u3 /\
            length u1 = 3 /\ length u2 = 3 /\ length u3 = 3)
    as (u1 & u2 & u3 & -> & H1 & H2 & H3).
  { exists (firstn 3 used), (firstn 3 (skipn 3 used)), (skipn 3 (skipn 3 used)).
    rewrite !firstn_skipn. rewrite !length_firstn, !length_skipn. repeat split; lia. }
  assert (Forall (fun y => y < 9) (seq (3 * k) 3)) as Hys
    by (apply List.Forall_forall; intros y Hy; apply in_seq in Hy; lia).
  assert (forall r, r < 3 -> (3 * k + r) - (3 * k + r) mod 3 = 3 * k) as Hstart.
  { intros r Hr. pose proof (Nat.div_mod_eq (3 * k + r) 3).
    pose proof (Nat.mod_upper_bound (3 * k + r) 3). lia. }
  rewrite <- !app_assoc.
  destruct (diag_cols_ok (3 * k) ltac:(lia) (seq (3 * k) 3) fresh_nums b u1
              (u2 ++ u3 ++ rest) Hwf Hys NoDup_fresh_nums)
    as (v1 & n1 & Hr1 & Hl1 & Hp1 & Hn1); [simpl; lia|assumption|].
  set (b1 := puts b (map (pair (3 * k)) (seq (3 * k) 3)) v1) in *.
  assert (length n1 = 6) as Hln1.
  { apply Permutation_length in Hp1. rewrite length_app in Hp1. simpl in *. lia. }
  destruct (diag_cols_ok (3 * k + 1) ltac:(lia) (seq (3 * k) 3) n1 b1 u2
              (u3 ++ rest) (wf_puts _ _ _ Hwf) Hys Hn1)
    as (v2 & n2 & Hr2 & Hl2 & Hp2 & Hn2); [simpl; lia|assumption|].
  set (b2 := puts b1 (map (pair (3 * k + 1)) (seq (3 * k) 3)) v2) in *.
  assert (length n2 = 3) as Hln2.
  { apply Permutation_length in Hp2. rewrite length_app in Hp2. simpl in *. lia. }
  destruct (diag_cols_ok (3 * k + 2) ltac:(lia) (seq (3 * k) 3) n2 b2 u3
              rest (wf_puts _ _ _ (wf_puts _ _ _ Hwf)) Hys Hn2)
    as (v3 & n3 & Hr3 & Hl3 & Hp3 & Hn3); [simpl; lia|assumption|].
  assert (n3 = []) as ->.
  { apply Permutation_length in Hp3. rewrite length_app in Hp3.
    destruct n3; [reflexivity|simpl in *; lia]. }
  exists (v1 ++ v2 ++ v3). split.
  - cbn [diag_rows]. cbv zeta.
    replace (3 * k - (3 * k) mod 3) with (3 * k)
      by (specialize (Hstart 0 ltac:(lia)); rewrite Nat.add_0_r in Hstart; lia).
    rewrite (bind_Return _ _ _ _ _ Hr1). cbn [diag_rows]. cbv zeta.
    rewrite (Hstart 1) by lia.
    destruct n1 as [|a1 n1']; [discriminate|].
    rewrite (bind_Return _ _ _ _ _ Hr2). cbn [diag_rows]. cbv zeta.
    rewrite (Hstart 2) by lia.
    destruct n2 as [|a2 n2']; [discriminate|].
    rewrite (bind_Return _ _ _ _ _ Hr3).
    rewrite (diag_box_cells k Hk).
    rewrite length_seq in Hl1, Hl2, Hl3.
    rewrite !puts_app by (rewrite length_map, length_seq; lia).
    reflexivity.
  - rewrite Hp1. apply Permutation_app_head.
    rewrite Hp2. apply Permutation_app_head.
    rewrite Hp3, app_nil_r. reflexivity.
Qed.

(** The seeder on any 9x9 board: it takes 27 draws, writes a permutation of
    1..9 into each diagonal box and touches nothing else. *)
Lemma generate_diagonals_ok b ds :
  wf b -> 27 <= length ds ->
  exists b',
    _generate_diagonals (State b ds) = Return tt (State b' (skipn 27 ds)) /\
    wf b' /\
    (forall k, k < 3 -> Permutation (unit_values b' (box_cells (4 * k))) fresh_nums) /\
    (forall i j, i / 3 <> j / 3 -> cell b' i j = cell b i j).
Proof.
  intros Hwf Hlen.
  assert (exists u0 u1 u2, ds = (u0 ++ u1 ++ u2) ++ skipn 27 ds /\
            length u0 = 9 /\ length u1 = 9 /\ length u2 = 9)
    as (u0 & u1 & u2 & Hds & H0 & H1 & H2).
  { exists (firstn 9 ds), (firstn 9 (skipn 9 ds)), (firstn 9 (skipn 18 ds)).
    rewrite !length_firstn, !length_skipn. repeat split; try lia.
    rewrite <- (firstn_skipn 9 ds) at 1. rewrite <- !app_assoc. f_equal.
    rewrite <- (firstn_skipn 9 (skipn 9 ds)) at 1. f_equal.
    rewrite skipn_skipn. simpl.
    rewrite <- (firstn_skipn 9 (skipn 18 ds)) at 1. f_equal.
    rewrite skipn_skipn. reflexivity. }
  set (rest := skipn 27 ds) in *. rewrite Hds. clearbody rest. clear Hds Hlen ds.
  rewrite <- !app_assoc.
  destruct (diag_block_ok 0 [3; 4; 5; 6; 7; 8] ltac:(lia) b u0 (u1 ++ u2 ++ rest) Hwf H0)
    as (vA & HrA & HpA).
  set (bA := puts b (box_cells (4 * 0)) vA) in *.
  assert (wf bA) as HwfA by (apply wf_puts; assumption).
  destruct (diag_block_ok 1 [6; 7; 8] ltac:(lia) bA u1 (u2 ++ rest) HwfA H1)
    as (vB & HrB & HpB).
  set (bB := puts bA (box_cells (4 * 1)) vB) in *.
  assert (wf bB) as HwfB by (apply wf_puts; assumption).
  destruct (diag_block_ok 2 [] ltac:(lia) bB u2 rest HwfB H2) as (vC & HrC & HpC).
  set (bC := puts bB (box_cells (4 * 2)) vC) in *.
  assert (wf bC) as HwfC by (apply wf_puts; assumption).
  exists bC. split; [|split; [assumption|split]].
  - unfold _generate_diagonals.
    change (seq 0 9) with (3 * 0 :: 3 * 0 + 1 :: 3 * 0 + 2 :: [3; 4; 5; 6; 7; 8]).
    rewrite HrA.
    change [3; 4; 5; 6; 7; 8] with (3 * 1 :: 3 * 1 + 1 :: 3 * 1 + 2 :: [6; 7; 8]).
    rewrite HrB.
    change [6; 7; 8] with (3 * 2 :: 3 * 2 + 1 :: 3 * 2 + 2 :: []).
    rewrite HrC. reflexivity.
  - (* each diagonal box reads back the nine values written into it *)
    assert (forall k, k < 3 -> forall p, In p (box_cells (4 * k)) ->
              fst p / 3 = k /\ snd p / 3 = k) as Hin.
    { intros k Hk p Hp. destruct (diag_box_facts k Hk) as [_ Hf].
      rewrite List.Forall_forall in Hf. apply (Hf p Hp). }
    assert (forall k k' vs b0, k < 3 -> k' < 3 -> k <> k' ->
              unit_values (puts b0 (box_cells (4 * k')) vs) (box_cells (4 * k))
              = unit_values b0 (box_cells (4 * k))) as Hframe.
    { intros k k' vs b0 Hk Hk' Hne. unfold unit_values. apply map_ext_in.
      intros [i j] Hp. apply cell_puts_notin. intros Hq.
      apply (Hin k Hk) in Hp. apply (Hin k' Hk') in Hq. cbn [fst snd] in *. lia. }
    assert (forall k vs b0, k < 3 -> wf b0 -> Permutation vs fresh_nums ->
              unit_values (puts b0 (box_cells (4 * k)) vs) (box_cells (4 * k)) = vs)
      as Hread.
    { intros k vs b0 Hk Hwf0 Hp. destruct (diag_box_facts k Hk) as [Hnd Hf].
      unfold unit_values. apply map_cell_puts; [assumption| |assumption|].
      - eapply List.Forall_impl; [|exact Hf]. intros p Hp'. apply Hp'.
      - rewrite (Permutation_length Hp).
        assert (k = 0 \/ k = 1 \/ k = 2) as [->|[->| ->]] by lia; reflexivity. }
    intros k Hk. assert (k = 0 \/ k = 1 \/ k = 2) as [->|[->| ->]] by lia.
    + unfold bC, bB. rewrite !Hframe by lia. unfold bA. rewrite Hread by (assumption || lia).
      assumption.
    + unfold bC. rewrite Hframe by lia. unfold bB. rewrite Hread by (assumption || lia).
      assumption.
    + unfold bC. rewrite Hread by (assumption || lia). assumption.
  - intros i j Hne.
    assert (forall k vs b0, k < 3 -> cell (puts b0 (box_cells (4 * k)) vs) i j = cell b0 i j)
      as Hout.
    { intros k vs b0 Hk. apply cell_puts_notin. intros Hp.
      destruct (diag_box_facts k Hk) as [_ Hf]. rewrite List.Forall_forall in Hf.
      specialize (Hf _ Hp). cbn [fst snd] in Hf. lia. }
    unfold bC, bB, bA. rewrite !Hout by lia. reflexivity.
Qed.

(** ** Draws are consumed from the front *)

(** A computation is [local] when a returning run reads a prefix of the
    draws and behaves the same whatever follows that prefix. *)
Definition local {A} (m : M A) : Prop :=
  forall b ds v b' ds',
    m (State b ds) = Return v (State b' ds') ->
    exists q, ds = q ++ ds' /\
              forall r, m (State b (q ++ r)) = Return v (State b' r).

Section Locality.
Lemma local_ret {A} (v : A) : local (ret v).
Proof.
  intros b ds u b' ds' H. injection H as <- <- <-. exists []. split; reflexivity.
Qed.

Lemma local_raise {A} e : local (@raise A e).
Proof. intros b ds u b' ds' H. discriminate. Qed.

Lemma local_bind {A B} (m : M A) (k : A -> M B) :
  local m -> (forall u, local (k u)) -> local (bind m k).
Proof.
  intros Hm Hk b ds v b' ds' H.
  apply bind_inv in H as (u & [b1 ds1] & H1 & H2).
  destruct (Hm _ _ _ _ _ H1) as (q1 & -> & Hq1).
  destruct (Hk u _ _ _ _ _ H2) as (q2 & -> & Hq2).
  exists (q1 ++ q2). split; [apply app_assoc|].
  intros r. rewrite <- app_assoc. rewrite (bind_Return _ _ _ _ _ (Hq1 _)). apply Hq2.
Qed.

Lemma local_getitem {A} (l : list A) i : local (getitem l i).
Proof.
  intros b ds v b' ds' H. unfold getitem in *.
  destruct (l !! i); [|discriminate]. injection H as <- <- <-.
  exists []. split; reflexivity.
Qed.

Lemma local_get_board : local get_board.
Proof.
  intros b ds v b' ds' H. injection H as <- <- <-. exists []. split; reflexivity.
Qed.

Lemma local_board_get i j : local (board_get i j).
Proof.
  apply local_bind; [apply local_get_board|]. intros b.
  apply local_bind; [apply local_getitem|]. intros row. apply local_getitem.
Qed.

Lemma local_board_set i j v : local (board_set i j v).
Proof.
  intros b ds u b' ds' H. unfold board_set, set_board in *. cbn [_board draws] in *.
  destruct (b !! i) as [row|]; [|discriminate].
  destruct (row !! j); [|discriminate]. injection H as <- <- <-.
  exists []. split; reflexivity.
Qed.

Lemma local_randbelow n : local (randbelow n).
Proof.
  intros b ds v b' ds' H. unfold randbelow, set_draws in *. cbn [_board draws] in *.
  destruct ds as [|r ds]; [discriminate|]. injection H as <- <- <-.
  exists [r]. split; reflexivity.
Qed.

Lemma local_randint a c : local (randint a c).
Proof.
  apply local_bind; [apply local_randbelow|]. intros k. apply local_ret.
Qed.

Lemma local_choice t : local (choice t).
Proof.
  destruct t; [apply local_raise|].
  apply local_bind; [apply local_randbelow|]. intros k. apply local_getitem.
Qed.

Lemma local_set_remove num nums : local (set_remove num nums).
Proof.
  unfold set_remove. destruct (bool_decide _); [apply local_ret|apply local_raise].
Qed.

Lemma local_diag_cols x ys : forall nums, local (diag_cols x ys nums).
Proof.
  induction ys as [|y ys IH]; intros nums; [apply local_ret|].
  cbn [diag_cols]. apply local_bind; [apply local_choice|]. intros num.
  apply local_bind; [apply local_board_set|]. intros _.
  apply local_bind; [apply local_set_remove|]. intros nums'. apply IH.
Qed.

Lemma local_diag_rows xs : forall nums, local (diag_rows xs nums).
Proof.
  induction xs as [|x xs IH]; intros nums; [apply local_ret|].
  cbn [diag_rows]. apply local_bind; [apply local_diag_cols|]. intros nums'. apply IH.
Qed.

Lemma local_any_m {A} (test : A -> M bool) xs :
  (forall x, local (test x)) -> local (any_m test xs).
Proof.
  intros Ht. induction xs as [|x xs IH]; [apply local_ret|].
  cbn [any_m]. apply local_bind; [apply Ht|].
  intros [|]; [apply local_ret|apply IH].
Qed.

Lemma local_is_num_valid row col num : local (_is_num_valid row col num).
Proof.
  unfold _is_num_valid.
  apply local_bind; [apply local_get_board|]. intros b.
  apply local_bind; [apply local_getitem|]. intros r.
  destruct (existsb _ r); [apply local_ret|].
  apply local_bind.
  { apply local_any_m. intros x. apply local_bind; [apply local_getitem|].
    intros v. apply local_ret. }
  intros [|]; [apply local_ret|].
  apply local_bind.
  { apply local_any_m. intros i. apply local_any_m. intros j.
    apply local_bind; [apply local_board_get|]. intros v. apply local_ret. }
  intros [|]; apply local_ret.
Qed.

Lemma local_try_nums next i j nums : local next -> local (try_nums next i j nums).
Proof.
  intros Hn. induction nums as [|num nums IH]; [apply local_ret|].
  cbn [try_nums]. apply local_bind; [apply local_is_num_valid|].
  intros [|].
  - apply local_bind; [apply local_board_set|]. intros _.
    apply local_bind; [assumption|]. intros [|]; [apply local_ret|].
    apply local_bind; [apply local_board_set|]. intros _. apply IH.
  - apply local_bind; [apply local_board_set|]. intros _. apply IH.
Qed.

Lemma local_generate_board_rec depth : forall i j, local (_generate_board_rec depth i j).
Proof.
  induction depth as [|depth IH]; intros i j; [apply local_raise|].
  cbn [_generate_board_rec]. destruct (_ && _); [apply local_ret|].
  apply local_bind; [apply local_board_get|]. intros v.
  destruct (negb _); [apply IH|]. apply local_try_nums, IH.
Qed.
End Locality.

(** ** The remover *)

(** [self._board[i][j]] as an option: [None] is the IndexError case. *)
Definition read (b : board) (i j : nat) : option Z :=
  match b !! i with Some row => row !! j | None => None end.

Lemma board_get_read b ds i j :
  board_get i j (State b ds)
  = match read b i j with
    | Some v => Return v (State b ds)
    | None => Raise IndexError (State b ds)
    end.
Proof.
  unfold board_get, bind, get_board, getitem, read. cbn [_board].
  destruct (b !! i) as [row|]; [|reflexivity]. destruct (row !! j); reflexivity.
Qed.

Lemma read_cell b i j v : read b i j = Some v -> cell b i j = v.
Proof.
  unfold read, cell. destruct (b !! i) as [row|]; [|discriminate].
  intros ->. reflexivity.
Qed.

(** One round of the rejection loop. *)
Lemma redraw_step r0 c0 ds b :
  redraw (r0 :: c0 :: ds) (State b (r0 :: c0 :: ds))
  = match read b (r0 mod 9) (c0 mod 9) with
    | None => Raise IndexError (State b ds)
    | Some f => if (f =? 0)%Z then redraw ds (State b ds)
                else Return (r0 mod 9, c0 mod 9) (State b ds)
    end.
Proof.
  cbn [redraw]. unfold randint, randbelow, set_draws, ret.
  unfold bind at 1 2. cbn [draws _board].
  unfold bind at 1 2. cbn [draws _board].
  unfold bind at 1. rewrite board_get_read.
  change (8 - 0 + 1) with 9. change (0 + r0 mod 9) with (r0 mod 9).
  change (0 + c0 mod 9) with (c0 mod 9).
  destruct (read b (r0 mod 9) (c0 mod 9)) as [f|]; [|reflexivity].
  destruct (f =? 0)%Z; reflexivity.
Qed.

(** The loop returns a placed cell of the grid, leaves the board alone and
    has read an even-length prefix of the draws. *)
Lemma redraw_inv n :
  forall ds b v b' ds',
    length ds <= n ->
    redraw ds (State b ds) = Return v (State b' ds') ->
    b' = b /\ in_grid (fst v) (snd v) /\ cell b (fst v) (snd v) <> 0%Z /\
    exists q, ds = q ++ ds' /\
              forall r, redraw (q ++ r) (State b (q ++ r)) = Return v (State b r).
Proof.
  induction n as [|n IH]; intros ds b v b' ds' Hlen H.
  - destruct ds; [discriminate|simpl in Hlen; lia].
  - destruct ds as [|r0 [|c0 ds]]; [discriminate..|].
    rewrite redraw_step in H.
    destruct (read b (r0 mod 9) (c0 mod 9)) as [f|] eqn:Hread; [|discriminate].
    destruct (Z.eqb_spec f 0) as [Hz|Hnz].
    + destruct (IH ds b v b' ds' ltac:(simpl in Hlen; lia) H)
        as (-> & Hg & Hc & q & -> & Hq).
      split; [reflexivity|]. split; [assumption|]. split; [assumption|].
      exists (r0 :: c0 :: q). split; [reflexivity|]. intros r.
      change ((r0 :: c0 :: q) ++ r) with (r0 :: c0 :: (q ++ r)).
      rewrite redraw_step, Hread. subst f. cbn [Z.eqb]. apply Hq.
    + assert (v = (r0 mod 9, c0 mod 9) /\ b' = b /\ ds' = ds) as (-> & -> & ->)
        by (split; [|split]; congruence).
      cbv [fst snd].
      pose proof (Nat.mod_upper_bound r0 9). pose proof (Nat.mod_upper_bound c0 9).
      split; [reflexivity|]. split; [split; lia|].
      split; [rewrite (read_cell _ _ _ _ Hread); assumption|].
      exists [r0; c0]. split; [reflexivity|]. intros r.
      change ([r0; c0] ++ r) with (r0 :: c0 :: r).
      rewrite redraw_step, Hread.
      destruct (Z.eqb_spec f 0); [contradiction|reflexivity].
Qed.

Lemma local_while_not_field : local while_not_field.
Proof.
  intros b ds v b' ds' H. unfold while_not_field in *. cbn [draws] in *.
  destruct (redraw_inv _ ds b v b' ds' (le_n _) H) as (-> & _ & _ & q & -> & Hq).
  exists q. split; [reflexivity|]. intros r. cbn [draws]. apply Hq.
Qed.

Lemma local_repeat_m n body : local body -> local (repeat_m n body).
Proof.
  intros Hb. induction n as [|n IH]; [apply local_ret|].
  cbn [repeat_m]. apply local_bind; [assumption|]. intros _. apply IH.
Qed.

Lemma local_remove_random_fields diff_chosen : local (_remove_random_fields diff_chosen).
Proof.
  unfold _remove_random_fields. apply local_bind.
  - unfold difficulty_of. destruct (_difficulty !! diff_chosen);
      [apply local_ret|apply local_raise].
  - intros n. apply local_repeat_m.
    apply local_bind; [apply local_while_not_field|]. intros p. apply local_board_set.
Qed.

Lemma local_generate diff_chosen : local (generate diff_chosen).
Proof.
  unfold generate, _generate_diagonals, _generate_board.
  apply local_bind; [apply local_diag_rows|]. intros _.
  apply local_bind; [apply local_generate_board_rec|]. intros _.
  apply local_remove_random_fields.
Qed.

(** *** Counting blank cells *)

Definition is_zero (b : board) (p : nat * nat) : bool := (cell b (fst p) (snd p) =? 0)%Z.

Definition count_zero (b : board) : nat := length (List.filter (is_zero b) all_cells).
Definition count_nonzero (b : board) : nat :=
  length (List.filter (fun p => negb (is_zero b p)) all_cells).

Lemma filter_split_length {A} (f : A -> bool) l :
  length (List.filter f l) + length (List.filter (fun x => negb (f x)) l) = length l.
Proof.
  induction l as [|a l IH]; [reflexivity|]. simpl. destruct (f a); simpl; lia.
Qed.

Lemma count_zero_nonzero b : count_zero b + count_nonzero b = 81.
Proof. unfold count_zero, count_nonzero. rewrite filter_split_length. reflexivity. Qed.

Lemma filter_length_mono {A} (f g : A -> bool) l :
  (forall x, In x l -> f x = true -> g x = true) ->
  length (List.filter f l) <= length (List.filter g l).
Proof.
  induction l as [|a l IH]; intros H; [reflexivity|]. simpl.
  assert (length (List.filter f l) <= length (List.filter g l)) as Hle
    by (apply IH; intros x Hx; apply H; right; assumption).
  destruct (f a) eqn:Hf.
  - rewrite (H a (or_introl eq_refl) Hf). simpl. lia.
  - destruct (g a); simpl; lia.
Qed.

(** Flipping the test at one member of a duplicate-free list adds one to the
    count. *)
Lemma filter_length_flip {A} (f g : A -> bool) l p :
  List.NoDup l -> In p l -> f p = false -> g p = true ->
  (forall q, q <> p -> g q = f q) ->
  length (List.filter g l) = S (length (List.filter f l)).
Proof.
  intros Hnd Hin Hf Hg Hsame. induction l as [|a l IH]; [destruct Hin|].
  apply NoDup_cons_iff in Hnd as [Hna Hnd]. simpl.
  destruct Hin as [->|Hin].
  - rewrite Hf, Hg. simpl. f_equal. f_equal. apply filter_ext_in.
    intros q Hq. apply Hsame. intros ->. contradiction.
  - rewrite (Hsame a) by (intros ->; contradiction).
    destruct (f a); simpl; rewrite IH by assumption; reflexivity.
Qed.

Lemma NoDup_all_cells : List.NoDup all_cells.
Proof. apply NoDup_ListNoDup, (bool_decide_unpack _). vm_compute. exact I. Qed.

Lemma count_zero_put b i j :
  wf b -> in_grid i j -> cell b i j <> 0%Z ->
  count_zero (put b i j 0) = S (count_zero b).
Proof.
  intros Hwf Hij Hnz. unfold count_zero.
  apply (filter_length_flip _ _ _ (i, j)).
  - apply NoDup_all_cells.
  - apply in_all_cells. assumption.
  - unfold is_zero. cbn [fst snd]. apply Z.eqb_neq. assumption.
  - unfold is_zero. cbn [fst snd]. rewrite cell_put_eq by assumption. reflexivity.
  - intros [i' j'] Hne. unfold is_zero. cbn [fst snd].
    rewrite cell_put_ne by assumption. reflexivity.
Qed.

Lemma count_zero_solved s : solved s -> count_zero s = 0.
Proof.
  intros Hs. apply solved_iff in Hs as (_ & He & _). unfold count_zero.
  destruct (List.filter (is_zero s) all_cells) as [|[i j] l] eqn:E; [reflexivity|].
  assert (In (i, j) (List.filter (is_zero s) all_cells)) as Hin by (rewrite E; left; reflexivity).
  apply filter_In in Hin as [Hin Hz]. apply in_all_cells in Hin.
  unfold is_zero in Hz. cbn [fst snd] in Hz. apply Z.eqb_eq in Hz.
  specialize (He i j Hin). lia.
Qed.

(** One pass of the remover loop body blanks one placed cell. *)
Definition blank_one : M unit :=
  p <- while_not_field ;; board_set (fst p) (snd p) 0.

Lemma blank_one_ok b ds b' ds' :
  wf b -> blank_one (State b ds) = Return tt (State b' ds') ->
  wf b' /\ count_zero b' = S (count_zero b) /\
  forall i j, cell b' i j = 0%Z \/ cell b' i j = cell b i j.
Proof.
  intros Hwf H. unfold blank_one in H.
  apply bind_inv in H as ([r c] & [b1 ds1] & H1 & H2).
  unfold while_not_field in H1. cbn [draws] in H1.
  destruct (redraw_inv _ ds b _ b1 ds1 (le_n _) H1) as (-> & Hg & Hnz & _).
  cbn [fst snd] in *.
  rewrite (board_set_run (State b ds1) r c 0 Hwf Hg) in H2.
  unfold set_board in H2. cbn [_board draws] in H2.
  assert (b' = put b r c 0) as -> by congruence.
  split; [apply wf_put; assumption|]. split; [apply count_zero_put; assumption|].
  intros i j. rewrite cell_put by assumption.
  destruct (decide ((i, j) = (r, c))); [left|right]; reflexivity.
Qed.

Lemma repeat_blank_ok n : forall b ds b' ds',
  wf b -> repeat_m n blank_one (State b ds) = Return tt (State b' ds') ->
  wf b' /\ count_zero b' = count_zero b + n /\
  forall i j, cell b' i j = 0%Z \/ cell b' i j = cell b i j.
Proof.
  induction n as [|n IH]; intros b ds b' ds' Hwf H.
  - injection H as <- <-. split; [assumption|]. split; [lia|]. intros; right; reflexivity.
  - cbn [repeat_m] in H. apply bind_inv in H as ([] & [b1 ds1] & H1 & H2).
    destruct (blank_one_ok _ _ _ _ Hwf H1) as (Hwf1 & Hc1 & Hk1).
    destruct (IH _ _ _ _ Hwf1 H2) as (Hwf' & Hc' & Hk').
    split; [assumption|]. split; [lia|].
    intros i j. destruct (Hk' i j) as [Hz|He]; [left; assumption|].
    rewrite He. apply Hk1.
Qed.

Lemma difficulty_lookup (level : Z) :
  _difficulty !! level =
  if decide (level = 0%Z) then Some 35
  else if decide (level = 1%Z) then Some 43
  else if decide (level = 2%Z) then Some 55
  else if decide (level = 3%Z) then Some 60
  else None.
Proof.
  unfold _difficulty.
  repeat (case_decide; [subst level; reflexivity|
                        rewrite lookup_insert_ne by congruence]).
  apply lookup_empty.
Qed.

(** ** Seeded boards *)

(** What the seeder leaves behind when started on an all-zero board. *)
Definition seeded (b : board) : Prop :=
  wf b /\
  (forall k, k < 3 -> Permutation (unit_values b (box_cells (4 * k))) fresh_nums) /\
  (forall i j, i / 3 <> j / 3 -> cell b i j = 0%Z).

Definition off_diagonal (p : nat * nat) : bool := negb (fst p / 3 =? snd p / 3).

Lemma in_diag_box :
  Forall (fun p => Forall (fun k => fst p / 3 = k -> snd p / 3 = k ->
                                    p ∈ box_cells (4 * k)) [0; 1; 2]) all_cells.
Proof. apply (bool_decide_unpack _). vm_compute. exact I. Qed.

Lemma seeded_diag_cell b i j :
  seeded b -> in_grid i j -> i / 3 = j / 3 ->
  exists k, k < 3 /\ In (i, j) (box_cells (4 * k)) /\ (1 <= cell b i j <= 9)%Z.
Proof.
  intros (Hwf & Hp & Hz) Hij Hd. exists (i / 3).
  assert (i / 3 < 3) as Hk
    by (destruct Hij; pose proof (Nat.div_mod_eq i 3); lia).
  split; [assumption|].
  assert (In (i, j) (box_cells (4 * (i / 3)))) as Hin.
  { pose proof in_diag_box as H. rewrite List.Forall_forall in H.
    specialize (H (i, j) (proj1 (in_all_cells i j) Hij)).
    rewrite List.Forall_forall in H. apply list_elem_of_In.
    apply (H (i / 3)); [|reflexivity|symmetry; assumption].
    cbn [fst]. assert (i / 3 = 0 \/ i / 3 = 1 \/ i / 3 = 2) as [->|[->| ->]] by lia;
      simpl; tauto. }
  split; [assumption|]. apply in_fresh_nums.
  apply (Permutation_in _ (Hp _ Hk)). unfold unit_values.
  apply (in_map (fun p => cell b (fst p) (snd p)) _ (i, j)). assumption.
Qed.

Lemma seeded_entries b : seeded b -> entries_in 0 9 b.
Proof.
  intros Hs i j Hij. destruct (decide (i / 3 = j / 3)) as [Hd|Hd].
  - destruct (seeded_diag_cell b i j Hs Hij Hd) as (_ & _ & _ & H). lia.
  - destruct Hs as (_ & _ & Hz). rewrite (Hz i j Hd). lia.
Qed.

(** The three diagonal boxes share no row, column or box, so a seeded board
    is consistent. *)
Lemma seeded_consistent b : seeded b -> consistent b.
Proof.
  intros Hs i j i' j' Hij Hij' Hsc Hne Hnz Heq.
  destruct (decide (i / 3 = j / 3)) as [Hd|Hd];
    [|destruct Hs as (_ & _ & Hz); apply Hnz, Hz, Hd].
  destruct (decide (i' / 3 = j' / 3)) as [Hd'|Hd'];
    [|destruct Hs as (_ & _ & Hz); rewrite (Hz i' j' Hd') in Heq; congruence].
  destruct (seeded_diag_cell b i j Hs Hij Hd) as (k & Hk & Hin & _).
  destruct (seeded_diag_cell b i' j' Hs Hij' Hd') as (k' & Hk' & Hin' & _).
  assert (k' = k) as ->.
  { destruct (diag_box_facts k Hk) as [_ Hf]. destruct (diag_box_facts k' Hk') as [_ Hf'].
    rewrite List.Forall_forall in Hf, Hf'.
    destruct (Hf _ Hin) as (_ & H1 & H2). destruct (Hf' _ Hin') as (_ & H1' & H2').
    cbn [fst snd] in *. unfold scanned in Hsc.
    destruct Hsc as [->|[->|[Hb _]]]; congruence. }
  apply Hne.
  apply (NoDup_map_inj_on (fun p => cell b (fst p) (snd p)) (box_cells (4 * k)));
    try assumption.
  destruct Hs as (_ & Hp & _).
  eapply Permutation_NoDup; [symmetry; apply (Hp k Hk)|apply NoDup_fresh_nums].
Qed.

Lemma seeded_count_zero b : seeded b -> 54 <= count_zero b.
Proof.
  intros (_ & _ & Hz).
  change 54 with (length (List.filter off_diagonal all_cells)).
  unfold count_zero. apply filter_length_mono.
  intros [i j] _ Ho. unfold off_diagonal, is_zero in *. cbn [fst snd] in *.
  apply negb_true_iff, Nat.eqb_neq in Ho. rewrite (Hz i j Ho). reflexivity.
Qed.

Lemma generate_diagonals_seeded ds :
  27 <= length ds ->
  exists b, _generate_diagonals (init ds) = Return tt (State b (skipn 27 ds)) /\ seeded b.
Proof.
  intros Hlen. destruct (generate_diagonals_ok zero_board ds wf_zero_board Hlen)
    as (b & Hrun & Hwf & Hp & Hout).
  exists b. split; [assumption|]. split; [assumption|]. split; [assumption|].
  intros i j Hd. rewrite (Hout i j Hd). apply cell_zero_board.
Qed.

(** Whenever the seeder returns, it has behaved as on a long enough stream. *)
Lemma generate_diagonals_returns ds b ds' :
  _generate_diagonals (init ds) = Return tt (State b ds') ->
  seeded b /\ ds = firstn 27 ds ++ ds' /\ length (firstn 27 ds) = 27.
Proof.
  intros H. destruct (local_diag_rows _ _ _ _ _ _ _ H) as (q & -> & Hq).
  specialize (Hq (repeat 0 27)).
  destruct (generate_diagonals_seeded (q ++ repeat 0 27)) as (b1 & Hrun & Hs).
  { rewrite length_app, repeat_length. lia. }
  unfold _generate_diagonals, init in *. rewrite Hq in Hrun.
  assert (b1 = b /\ skipn 27 (q ++ repeat 0 27) = repeat 0 27) as [-> Hsk]
    by (split; congruence).
  split; [assumption|].
  assert (length q = 27) as Hlq.
  { apply (f_equal (@length nat)) in Hsk.
    rewrite length_skipn, length_app, repeat_length in Hsk. lia. }
  rewrite firstn_app, Hlq, Nat.sub_diag, firstn_O, app_nil_r.
  rewrite firstn_all2 by lia. split; [reflexivity|assumption].
Qed.

(** ** Concrete boards and draws used in examples *)

Definition wfb (b : board) : bool :=
  (length b =? 9) && forallb (fun row : list Z => length row =? 9) b.

Lemma wfb_wf b : wfb b = true -> wf b.
Proof.
  unfold wfb. intros H. apply andb_true_iff in H as [Hl Hr].
  apply Nat.eqb_eq in Hl. split; [assumption|].
  intros i row Hi. rewrite forallb_forall in Hr. apply Nat.eqb_eq, Hr.
  apply list_elem_of_In, list_elem_of_lookup. eexists. eassumption.
Qed.

Definition final_board {A} (r : result A) : option board :=
  match r with
  | Return _ st => Some (_board st)
  | Raise _ st => Some (_board st)
  | Pending => None
  end.

(** 27 draws for the seeder (every choice takes the smallest number left),
    then 35 cells in row-major order for the remover. *)
Definition seed_draws : list nat := repeat 0 27.
Definition blank_draws : list nat := flat_map (fun k => [k / 9; k mod 9]) (seq 0 35).
Definition demo_draws : list nat := seed_draws ++ blank_draws.

(** An empty grid except for a 5 in the candidate cell (0, 0). *)
Definition lone_five : board := put zero_board 0 0 5.

(** A grid left over from earlier play: a single 5 at row 8, column 0. *)
Definition prior_board : board := put zero_board 8 0 5.

(** A grid without completion: row 0 holds 1..8 and the 9 it still needs is
    already in column 8. *)
Definition stuck_board : board :=
  put (puts zero_board (row_cells 0) [1; 2; 3; 4; 5; 6; 7; 8]%Z) 1 8 9.

Lemma entries_zero_board : entries_in 0 9 zero_board.
Proof. intros i j _. rewrite cell_zero_board. lia. Qed.

Lemma consistent_zero_board : consistent zero_board.
Proof. intros i j i' j' _ _ _ _ Hnz. rewrite cell_zero_board in Hnz. congruence. Qed.

(** ** Further facts about the engine *)

Lemma count_zero_none b :
  count_zero b = 0 -> forall i j, in_grid i j -> cell b i j <> 0%Z.
Proof.
  unfold count_zero. intros H i j Hij Hz.
  assert (In (i, j) (List.filter (is_zero b) all_cells)) as Hin.
  { apply filter_In. split; [apply in_all_cells; assumption|].
    unfold is_zero. cbn [fst snd]. apply Z.eqb_eq. assumption. }
  destruct (List.filter (is_zero b) all_cells); [destruct Hin|discriminate].
Qed.

(** On a grid without empty cell every frame of the filler moves on to the
    next cell. *)
Lemma generate_board_rec_full b ds depth :
  wf b -> (forall i j, in_grid i j -> cell b i j <> 0%Z) ->
  forall i j, i <= 8 -> j <= 9 -> 82 <= depth + pos i j ->
  _generate_board_rec depth i j (State b ds) = Return true (State b ds).
Proof.
  intros Hwf Hfull. induction depth as [|depth IH]; intros i j Hi Hj Hd.
  - unfold pos in Hd. lia.
  - cbn [_generate_board_rec].
    destruct ((i =? 8) && (j =? 9)) eqn:Hend; [reflexivity|].
    set (i1 := if j =? 9 then i + 1 else i).
    set (j1 := if j =? 9 then 0 else j).
    assert (in_grid i1 j1 /\ pos i1 j1 = pos i j) as [Hg Hpos].
    { unfold i1, j1, in_grid, pos. apply andb_false_iff in Hend.
      destruct (Nat.eqb_spec j 9) as [->|Hj9].
      - destruct Hend as [Hend|Hend]; [|discriminate].
        apply Nat.eqb_neq in Hend. lia.
      - lia. }
    rewrite (bind_Return _ _ _ _ _ (board_get_run (State b ds) i1 j1 Hwf Hg)).
    cbn [_board]. destruct (Z.eqb_spec (cell b i1 j1) 0) as [Hz|Hnz]; cbn [negb].
    + exfalso. apply (Hfull i1 j1 Hg Hz).
    + destruct Hg as [Hi1 Hj1]. apply IH; unfold pos in *; lia.
Qed.

Lemma read_wf b i j : wf b -> in_grid i j -> read b i j = Some (cell b i j).
Proof.
  intros Hwf Hij. destruct (wf_lookup b i j Hwf Hij) as (row & Hrow & _ & Hv).
  unfold read. rewrite Hrow. assumption.
Qed.

Lemma read_out b i j : wf b -> ~ in_grid i j -> read b i j = None.
Proof.
  intros Hwf Hn. unfold read. destruct (b !! i) as [row|] eqn:Hrow; [|reflexivity].
  apply lookup_ge_None. rewrite (proj2 Hwf i row Hrow).
  destruct (le_lt_dec 9 j) as [Hj|Hj]; [assumption|]. exfalso. apply Hn.
  split; [|assumption]. apply lookup_lt_Some in Hrow. rewrite (proj1 Hwf) in Hrow. assumption.
Qed.

(** The rejection loop raises nothing on a 9x9 grid. *)
Lemma redraw_no_raise n :
  forall ds b e st, length ds <= n -> wf b -> redraw ds (State b ds) <> Raise e st.
Proof.
  induction n as [|n IH]; intros ds b e st Hlen Hwf.
  - destruct ds; [discriminate|simpl in Hlen; lia].
  - destruct ds as [|r0 [|c0 ds]]; [discriminate|discriminate|].
    rewrite redraw_step.
    assert (in_grid (r0 mod 9) (c0 mod 9)) as Hg
      by (split; apply Nat.mod_upper_bound; discriminate).
    rewrite (read_wf b _ _ Hwf Hg).
    destruct (cell b (r0 mod 9) (c0 mod 9) =? 0)%Z; [|discriminate].
    apply IH; [simpl in Hlen; lia|assumption].
Qed.

Lemma blank_one_cases b ds :
  wf b ->
  blank_one (State b ds) = Pending \/
  exists b' ds', blank_one (State b ds) = Return tt (State b' ds').
Proof.
  intros Hwf. unfold blank_one, bind, while_not_field. cbn [draws].
  destruct (redraw ds (State b ds)) as [v [b1 ds1]|e st|] eqn:E.
  - destruct (redraw_inv (length ds) ds b v b1 ds1 (le_n _) E) as (-> & Hg & _).
    right. rewrite (board_set_run (State b ds1) _ _ 0%Z Hwf Hg). eauto.
  - exfalso. apply (redraw_no_raise (length ds) ds b e st (le_n _) Hwf E).
  - left. reflexivity.
Qed.

Lemma repeat_blank_cases n :
  forall b ds, wf b ->
  repeat_m n blank_one (State b ds) = Pending \/
  exists b' ds', repeat_m n blank_one (State b ds) = Return tt (State b' ds').
Proof.
  induction n as [|n IH]; intros b ds Hwf; cbn [repeat_m].
  - right. exists b, ds. reflexivity.
  - destruct (blank_one_cases b ds Hwf) as [E|(b1 & ds1 & E)].
    + left. apply bind_Pending. assumption.
    + rewrite (bind_Return _ _ _ _ _ E).
      apply IH. apply (blank_one_ok b ds b1 ds1 Hwf E).
Qed.

Lemma remove_random_fields_unfold level n :
  _difficulty !! level = Some n ->
  _remove_random_fields level = repeat_m n blank_one.
Proof.
  intros Hn. unfold _remove_random_fields, difficulty_of. rewrite Hn. reflexivity.
Qed.

(** Executable check of [consistent]. *)
Definition consistentb (b : board) : bool :=
  forallb (fun p => forallb (fun q =>
      negb (bool_decide (scanned (fst p) (snd p) (fst q) (snd q)))
      || bool_decide (q = p)
      || (cell b (fst p) (snd p) =? 0)%Z
      || negb (cell b (fst q) (snd q) =? cell b (fst p) (snd p))%Z)
    all_cells) all_cells.

Lemma consistentb_sound b : consistentb b = true -> consistent b.
Proof.
  unfold consistentb. intros H i j i' j' Hij Hij' Hsc Hne Hnz.
  rewrite forallb_forall in H. specialize (H (i, j) (proj1 (in_all_cells i j) Hij)).
  rewrite forallb_forall in H. specialize (H (i', j') (proj1 (in_all_cells i' j') Hij')).
  cbn [fst snd] in H.
  rewrite (bool_decide_eq_true_2 _ Hsc), (bool_decide_eq_false_2 _ Hne) in H.
  apply Z.eqb_neq in Hnz. rewrite Hnz in H. cbn [negb orb] in H.
  apply negb_true_iff, Z.eqb_neq in H. assumption.
Qed.

(** A grid of fives: full, and as inconsistent as a grid can be. *)
Definition fives : board := replicate 9 (replicate 9 5%Z).








(** Any member of the tuple is returned by [random.choice] for some draw. *)
Lemma choice_pick nums v :
  In v nums ->
  exists r, forall b ds, choice nums (State b (r :: ds)) = Return v (State b ds).
Proof.
  intros Hin. apply list_elem_of_In, list_elem_of_lookup in Hin as [k Hk].
  pose proof (lookup_lt_Some _ _ _ Hk) as Hlt.
  exists k. intros b ds. destruct nums as [|n0 l]; [discriminate|].
  unfold choice, bind, randbelow, getitem, set_draws. cbn [draws _board].
  rewrite Nat.mod_small by assumption. rewrite Hk. reflexivity.
Qed.

(** One row of the seeder can write any distinct numbers still available. *)
Lemma diag_cols_reach x : x < 9 ->
  forall ys vs nums,
    Forall (fun y => y < 9) ys -> List.NoDup (vs : list Z) ->
    incl vs nums -> length vs = length ys ->
    exists used nums',
      length used = length ys /\
      (forall b rest, wf b ->
         diag_cols x ys nums (State b (used ++ rest))
         = Return nums' (State (puts b (map (pair x) ys) vs) rest)) /\
      (forall z, In z nums' <-> In z nums /\ ~ In z vs).
Proof.
  intros Hx. induction ys as [|y ys IH]; intros vs nums Hys Hnd Hincl Hlen.
  - destruct vs; [|discriminate]. exists [], nums. simpl.
    split; [reflexivity|]. split; [reflexivity|]. intros z. tauto.
  - destruct vs as [|v vs]; [discriminate|]. simpl in Hlen.
    apply List.Forall_cons_iff in Hys as [Hy Hys].
    apply NoDup_cons_iff in Hnd as [Hnv Hnd].
    assert (In v nums) as Hv by (apply Hincl; left; reflexivity).
    set (nums1 := filter (fun n => n <> v) nums).
    assert (forall z, In z nums1 <-> In z nums /\ z <> v) as Hn1.
    { intros z. unfold nums1. rewrite <- !list_elem_of_In, list_elem_of_filter. tauto. }
    destruct (IH vs nums1) as (used & nums' & Hlu & Hrun & Hmem);
      [assumption|assumption| |lia|].
    { intros z Hz. apply Hn1. split; [apply Hincl; right; assumption|].
      intros ->. contradiction. }
    destruct (choice_pick nums v Hv) as [r Hch].
    exists (r :: used), nums'. split; [simpl; lia|]. split.
    + intros b rest Hwf.
      cbn [diag_cols app]. rewrite (bind_Return _ _ _ _ _ (Hch b (used ++ rest))).
      rewrite (bind_Return _ _ _ _ _
                 (board_set_run (State b (used ++ rest)) x y v Hwf (conj Hx Hy))).
      unfold set_board. cbn [_board draws].
      unfold set_remove. rewrite bool_decide_eq_true_2 by (apply list_elem_of_In; assumption).
      unfold bind at 1, ret at 1. apply Hrun. apply wf_put. assumption.
    + intros z. rewrite Hmem, Hn1. simpl. split.
      * intros [[Hz Hne] Hnz]. split; [assumption|]. intros [E|E]; [congruence|contradiction].
      * intros [Hz Hnz]. split; [split; [assumption|]|]; intros E; apply Hnz; auto.
Qed.

(** Three rows of the seeder can write any permutation of 1..9 into a
    diagonal box. *)
Lemma diag_block_reach k :
  k < 3 ->
  forall vs,
    Permutation vs fresh_nums ->
    exists used,
      length used = 9 /\
      forall rows b rest, wf b ->
        diag_rows (3 * k :: 3 * k + 1 :: 3 * k + 2 :: rows) [] (State b (used ++ rest))
        = diag_rows rows [] (State (puts b (box_cells (4 * k)) vs) rest).
Proof.
  intros Hk vs Hp.
  assert (length vs = 9) as Hlen by (rewrite (Permutation_length Hp); reflexivity).
  assert (List.NoDup vs) as Hnd
    by (eapply Permutation_NoDup; [symmetry; eassumption|apply NoDup_fresh_nums]).
  assert (exists v1 v2 v3, vs = v1 ++ v2 ++ v3 /\
            length v1 = 3 /\ length v2 = 3 /\ length v3 = 3)
    as (v1 & v2 & v3 & -> & H1 & H2 & H3).
  { exists (firstn 3 vs), (firstn 3 (skipn 3 vs)), (skipn 3 (skipn 3 vs)).
    rewrite !firstn_skipn. rewrite !length_firstn, !length_skipn. repeat split; lia. }
  assert (forall z, In z fresh_nums <-> In z v1 \/ In z v2 \/ In z v3) as Hall.
  { intros z. rewrite <- !in_app_iff. split; apply Permutation_in;
      [symmetry|]; assumption. }
  apply NoDup_ListNoDup in Hnd.
  apply NoDup_app in Hnd as (Hnd1 & Hd1 & Hnd23).
  apply NoDup_app in Hnd23 as (Hnd2 & Hd2 & Hnd3).
  apply NoDup_ListNoDup in Hnd1, Hnd2, Hnd3.
  assert (forall z, In z v1 -> ~ In z v2 /\ ~ In z v3) as Hd1'.
  { intros z Hz. specialize (Hd1 z (proj2 (list_elem_of_In _ _) Hz)).
    rewrite list_elem_of_In, in_app_iff in Hd1. tauto. }
  assert (forall z, In z v2 -> ~ In z v3) as Hd2'.
  { intros z Hz. specialize (Hd2 z (proj2 (list_elem_of_In _ _) Hz)).
    rewrite list_elem_of_In in Hd2. assumption. }
  assert (Forall (fun y => y < 9) (seq (3 * k) 3)) as Hys
    by (apply List.Forall_forall; intros y Hy; apply in_seq in Hy; lia).
  assert (forall r, r < 3 -> (3 * k + r) - (3 * k + r) mod 3 = 3 * k) as Hstart.
  { intros r Hr. pose proof (Nat.div_mod_eq (3 * k + r) 3).
    pose proof (Nat.mod_upper_bound (3 * k + r) 3). lia. }
  destruct (diag_cols_reach (3 * k) ltac:(lia) (seq (3 * k) 3) v1 fresh_nums Hys Hnd1)
    as (u1 & n1 & Hl1 & Hr1 & Hm1); [|rewrite length_seq; assumption|].
  { intros z Hz. apply Hall. tauto. }
  destruct (diag_cols_reach (3 * k + 1) ltac:(lia) (seq (3 * k) 3) v2 n1 Hys Hnd2)
    as (u2 & n2 & Hl2 & Hr2 & Hm2); [|rewrite length_seq; assumption|].
  { intros z Hz. apply Hm1. split; [apply Hall; tauto|]. intros Hz1.
    apply (proj1 (Hd1' z Hz1) Hz). }
  destruct (diag_cols_reach (3 * k + 2) ltac:(lia) (seq (3 * k) 3) v3 n2 Hys Hnd3)
    as (u3 & n3 & Hl3 & Hr3 & Hm3); [|rewrite length_seq; assumption|].
  { intros z Hz. apply Hm2. split.
    - apply Hm1. split; [apply Hall; tauto|]. intros Hz1. apply (proj2 (Hd1' z Hz1) Hz).
    - intros Hz2. apply (Hd2' z Hz2 Hz). }
  assert (n1 <> []) as Hne1.
  { destruct v2 as [|z v2']; [discriminate|]. intros E.
    assert (In z n1) as Hz; [|rewrite E in Hz; destruct Hz].
    apply Hm1. split; [apply Hall; simpl; tauto|]. intros Hz1.
    apply (proj1 (Hd1' z Hz1)). left. reflexivity. }
  assert (n2 <> []) as Hne2.
  { destruct v3 as [|z v3']; [discriminate|]. intros E.
    assert (In z n2) as Hz; [|rewrite E in Hz; destruct Hz].
    apply Hm2. split.
    - apply Hm1. split; [apply Hall; simpl; tauto|]. intros Hz1.
      apply (proj2 (Hd1' z Hz1)). left. reflexivity.
    - intros Hz2. apply (Hd2' z Hz2). left. reflexivity. }
  assert (n3 = []) as ->.
  { destruct n3 as [|z n3']; [reflexivity|]. exfalso.
    assert (In z (z :: n3')) as Hz by (left; reflexivity).
    apply Hm3 in Hz as [Hz Hz3]. apply Hm2 in Hz as [Hz Hz2]. apply Hm1 in Hz as [Hz Hz1].
    apply Hall in Hz. tauto. }
  rewrite length_seq in Hl1, Hl2, Hl3.
  exists (u1 ++ u2 ++ u3). split; [rewrite !length_app; lia|].
  intros rows b rest Hwf. rewrite <- !app_assoc.
  cbn [diag_rows]. cbv zeta.
  replace (3 * k - (3 * k) mod 3) with (3 * k)
    by (specialize (Hstart 0 ltac:(lia)); rewrite Nat.add_0_r in Hstart; lia).
  rewrite (bind_Return _ _ _ _ _ (Hr1 b _ Hwf)). cbn [diag_rows]. cbv zeta.
  rewrite (Hstart 1) by lia.
  destruct n1 as [|a1 n1']; [congruence|].
  rewrite (bind_Return _ _ _ _ _ (Hr2 _ _ (wf_puts _ _ _ Hwf))). cbn [diag_rows]. cbv zeta.
  rewrite (Hstart 2) by lia.
  destruct n2 as [|a2 n2']; [congruence|].
  rewrite (bind_Return _ _ _ _ _ (Hr3 _ _ (wf_puts _ _ _ (wf_puts _ _ _ Hwf)))).
  rewrite (diag_box_cells k Hk).
  rewrite !puts_app by (rewrite length_map, length_seq; lia).
  reflexivity.
Qed.

(** Reading a diagonal box after the three boxes have been written. *)
Lemma unit_values_seed b vA vB vC k :
  wf b -> k < 3 -> length vA = 9 -> length vB = 9 -> length vC = 9 ->
  unit_values (puts (puts (puts b (box_cells (4 * 0)) vA) (box_cells (4 * 1)) vB)
                    (box_cells (4 * 2)) vC) (box_cells (4 * k))
  = nth k [vA; vB; vC] [].
Proof.
  intros Hwf Hk HA HB HC.
  assert (forall k1 k2 p, k1 < 3 -> k2 < 3 -> k1 <> k2 ->
            In p (box_cells (4 * k1)) -> ~ In p (box_cells (4 * k2))) as Hdisj.
  { intros k1 k2 p Hk1 Hk2 Hne H1 H2.
    destruct (diag_box_facts k1 Hk1) as [_ F1]. destruct (diag_box_facts k2 Hk2) as [_ F2].
    rewrite List.Forall_forall in F1, F2.
    destruct (F1 p H1) as (_ & E1 & _). destruct (F2 p H2) as (_ & E2 & _). congruence. }
  assert (forall k, k < 3 -> length (box_cells (4 * k)) = 9) as Hlb.
  { intros k' Hk'. assert (k' = 0 \/ k' = 1 \/ k' = 2) as [->|[->| ->]] by lia; reflexivity. }
  assert (forall k b0 vs, k < 3 -> wf b0 -> length vs = 9 ->
            unit_values (puts b0 (box_cells (4 * k)) vs) (box_cells (4 * k)) = vs) as Hown.
  { intros k' b0 vs Hk' Hwf0 Hl. unfold unit_values.
    destruct (diag_box_facts k' Hk') as [Hnd F].
    apply map_cell_puts; [assumption| |assumption|rewrite Hlb; assumption].
    eapply List.Forall_impl; [|exact F]. intros p Hp. apply Hp. }
  assert (forall k1 k2 b0 vs, k1 < 3 -> k2 < 3 -> k1 <> k2 ->
            unit_values (puts b0 (box_cells (4 * k2)) vs) (box_cells (4 * k1))
            = unit_values b0 (box_cells (4 * k1))) as Hother.
  { intros k1 k2 b0 vs Hk1 Hk2 Hne. unfold unit_values. apply map_ext_in.
    intros [i j] Hin. cbn [fst snd]. apply cell_puts_notin.
    apply (Hdisj k1 k2); assumption. }
  assert (k = 0 \/ k = 1 \/ k = 2) as [->|[->| ->]] by lia; cbn [nth].
  - rewrite (Hother 0 2), (Hother 0 1) by lia. apply Hown; [lia|assumption..].
  - rewrite (Hother 1 2) by lia. apply Hown; [lia|apply wf_puts; assumption|assumption].
  - apply Hown; [lia|repeat apply wf_puts; assumption|assumption].
Qed.


(** * The grid of squares of the GUI (sudoku_gui.py)

    The GUI keeps its own 9x9 structure [_rects] of [SudokuSquare] objects,
    built from the engine's grid by [SudokuGUI._generate_board]; the conflict
    marking and the win test work on it.  [Rect] stands for [pygame.Rect];
    no modelled method looks inside a rectangle. *)

(** [for x in xs], collecting results (a list comprehension). *)
Fixpoint map_m {A B} (f : A -> M B) (xs : list A) : M (list B) :=
  match xs with
  | [] => ret []
  | x :: xs' => y <- f x ;; ys <- map_m f xs' ;; ret (y :: ys)
  end.

Module sudoku_gui.
Section Squares.
Context {Rect : Type}.
(** [pygame.Rect(j * side, i * side, side, side).move(offset_x, offset_y)] *)
Context (square_rect : nat -> nat -> Rect).

Record SudokuSquare : Type := Square {
  rect : Rect;
  color : Z * Z * Z;
  selected : bool;
  at_intersection : bool;
  same_value : bool;
  value : Z;
  row : Z;
  col : Z;
  notes : list Z;
  editable : bool;
  is_wrong : bool }.

(** [SudokuSquare.__init__]: a square that holds a number from the start is
    not editable. *)
Definition SudokuSquare_init (rect : Rect) (color : Z * Z * Z)
    (selected at_intersection same_value : bool) (row col value : Z) : SudokuSquare :=
  Square rect color selected at_intersection same_value value row col []
         (if (value =? 0)%Z then true else false) false.

Definition set_is_wrong (w : bool) (s : SudokuSquare) : SudokuSquare :=
  Square (rect s) (color s) (selected s) (at_intersection s) (same_value s)
         (value s) (row s) (col s) (notes s) (editable s) w.

(** [self._COLORS['white']] *)
Definition white : Z * Z * Z := (255, 255, 255)%Z.

(** The fields of [SudokuGUI] that the methods below read or write; the
    engine [self._sudoku_engine] is the state of the monad. *)
Record SudokuGUI : Type := Gui {
  _difficulty : Z;
  _rects : list (list SudokuSquare);
  _continue : bool }.

Definition set_rects (rects : list (list SudokuSquare)) (self : SudokuGUI) : SudokuGUI :=
  Gui (_difficulty self) rects (_continue self).

(** [SudokuGUI._generate_board] *)
Definition _generate_board (self : SudokuGUI) : M SudokuGUI :=
  clear_board ;;;
  generate (_difficulty self) ;;;
  rects <- map_m (fun j =>
             map_m (fun i =>
               v <- get_value i j ;;
               ret (SudokuSquare_init (square_rect j i) white false false false
                                      (Z.of_nat i) (Z.of_nat j) v))
             (seq 0 9))
           (seq 0 9) ;;
  ret (Gui (_difficulty self) rects false).

(** [l[i]] for a Python integer index: negative indices count from the end. *)
Definition py_index {A} (l : list A) (i : Z) : exn + A :=
  let k := if (i <? 0)%Z then (Z.of_nat (length l) + i)%Z else i in
  if (k <? 0)%Z then inl IndexError
  else match l !! Z.to_nat k with
       | Some x => inr x
       | None => inl IndexError
       end.

(** [SudokuGUI._get_square]: [self._rects[col][row]] *)
Definition _get_square (self : SudokuGUI) (row col : Z) : exn + SudokuSquare :=
  match py_index (_rects self) col with
  | inr column => py_index column row
  | inl e => inl e
  end.

(** [x in range(lo, hi)] *)
Definition in_range (x lo hi : Z) : bool := ((lo <=? x) && (x <? hi))%Z.

(** [SudokuGUI._check_if_intersects] (a static method) *)
Definition _check_if_intersects (square other : SudokuSquare) : bool :=
  let start_row := (3 * (row square / 3))%Z in
  let start_col := (3 * (col square / 3))%Z in
  if (row square =? row other)%Z || (col square =? col other)%Z then true
  else if in_range (row other) start_row (start_row + 3)
          && in_range (col other) start_col (start_col + 3) then true
  else false.

(** [SudokuGUI._reset_state] *)
Definition _reset_state (self : SudokuGUI) (ignore_wrong : bool) : SudokuGUI :=
  set_rects
    (map (map (fun square =>
       Square (rect square) (color square) false false false
              (value square) (row square) (col square) (notes square) (editable square)
              (if ignore_wrong then is_wrong square else false)))
       (_rects self))
    self.

(** The squares are distinct objects, one per place [(a, c)] of [_rects];
    [square is not square_other] compares places. *)
Definition square_at (rects : list (list SudokuSquare)) (p : nat * nat)
  : option SudokuSquare :=
  match rects !! fst p with Some column => column !! snd p | None => None end.

Definition update_at (p : nat * nat) (f : SudokuSquare -> SudokuSquare)
    (rects : list (list SudokuSquare)) : list (list SudokuSquare) :=
  alter (alter f (snd p)) (fst p) rects.

(** The places in the order of [for row in self._rects: for square in row]. *)
Definition places (rects : list (list SudokuSquare)) : list (nat * nat) :=
  concat (imap (fun a column => map (pair a) (seq 0 (length column))) rects).

(** The body of the innermost loop of [_check_if_correct]. *)
Definition check_pair (p q : nat * nat) (rects : list (list SudokuSquare))
  : list (list SudokuSquare) :=
  match square_at rects p, square_at rects q with
  | Some square, Some square_other =>
      if _check_if_intersects square square_other
         && (value square =? value square_other)%Z
         && negb (value square =? 0)%Z
         && negb (bool_decide (p = q))
      then update_at q (set_is_wrong true) (update_at p (set_is_wrong true) rects)
      else rects
  | _, _ => rects
  end.

(** [SudokuGUI._check_if_correct] *)
Definition _check_if_correct (self : SudokuGUI) : SudokuGUI :=
  let ps := places (_rects self) in
  set_rects
    (fold_left (fun rects p => fold_left (fun rects q => check_pair p q rects) ps rects)
               ps (_rects self))
    self.

(** [nums[k] += 1] on a dict kept as an association list in insertion
    order: KeyError for a missing key. *)
Fixpoint dict_incr (k : Z) (nums : list (Z * nat)) : exn + list (Z * nat) :=
  match nums with
  | [] => inl KeyError
  | (k', v) :: nums' =>
      if (k' =? k)%Z then inr ((k', S v) :: nums')
      else match dict_incr k nums' with
           | inr nums'' => inr ((k', v) :: nums'')
           | inl e => inl e
           end
  end.

(** The loop of [_check_completion] over the squares in order. *)
Fixpoint count_squares (squares : list SudokuSquare) (nums : list (Z * nat))
  : exn + list (Z * nat) :=
  match squares with
  | [] => inr nums
  | square :: squares' =>
      if negb (value square =? 0)%Z && negb (is_wrong square) then
        match dict_incr (value square) nums with
        | inr nums' => count_squares squares' nums'
        | inl e => inl e
        end
      else count_squares squares' nums
  end.

(** [SudokuGUI._check_completion] *)
Definition _check_completion (self : SudokuGUI) : exn + list Z :=
  let nums := map (fun i => (Z.of_nat i, 0)) (seq 1 9) in
  match count_squares (concat (_rects self)) nums with
  | inr nums' => inr (map fst (List.filter (fun kv => snd kv =? 9) nums'))
  | inl e => inl e
  end.

(** [SudokuGUI._check_win] *)
Definition _check_win (self : SudokuGUI) : exn + bool :=
  match _check_completion self with
  | inr nums => inr (length nums =? 9)
  | inl e => inl e
  end.

End Squares.
End sudoku_gui.

(** ** Facts about the grid of squares *)

Lemma map_m_pure {A B} (f : A -> M B) (g : A -> B) xs st :
  (forall x, In x xs -> f x st = Return (g x) st) ->
  map_m f xs st = Return (map g xs) st.
Proof.
  induction xs as [|x xs IH]; intros H; [reflexivity|].
  cbn [map_m map]. rewrite (bind_Return _ _ _ _ _ (H x (or_introl eq_refl))).
  rewrite (bind_Return _ _ _ _ _ (IH (fun y Hy => H y (or_intror Hy)))).
  reflexivity.
Qed.

Section SquareFacts.
Context {Rect : Type}.
Implicit Types (square other : @sudoku_gui.SudokuSquare Rect).

Lemma in_range_box x y :
  sudoku_gui.in_range y (3 * (x / 3)) (3 * (x / 3) + 3) = true <-> (y / 3 = x / 3)%Z.
Proof.
  unfold sudoku_gui.in_range. rewrite andb_true_iff, Z.leb_le, Z.ltb_lt.
  pose proof (Z.div_mod x 3 ltac:(lia)). pose proof (Z.mod_pos_bound x 3 ltac:(lia)).
  pose proof (Z.div_mod y 3 ltac:(lia)). pose proof (Z.mod_pos_bound y 3 ltac:(lia)).
  lia.
Qed.

(** Two squares intersect when they share the row, the column or the box. *)
Lemma check_if_intersects_iff square other :
  sudoku_gui._check_if_intersects square other = true <->
  (sudoku_gui.row other = sudoku_gui.row square \/
   sudoku_gui.col other = sudoku_gui.col square \/
   (sudoku_gui.row other / 3 = sudoku_gui.row square / 3 /\
    sudoku_gui.col other / 3 = sudoku_gui.col square / 3))%Z.
Proof.
  unfold sudoku_gui._check_if_intersects. cbv zeta.
  destruct (Z.eqb_spec (sudoku_gui.row square) (sudoku_gui.row other)) as [E1|N1];
    [cbn [orb]; split; [intros _; left; congruence|reflexivity]|].
  destruct (Z.eqb_spec (sudoku_gui.col square) (sudoku_gui.col other)) as [E2|N2];
    [cbn [orb]; split; [intros _; right; left; congruence|reflexivity]|].
  cbn [orb].
  destruct (sudoku_gui.in_range (sudoku_gui.row other) _ _) eqn:R1;
    [destruct (sudoku_gui.in_range (sudoku_gui.col other) _ _) eqn:R2|]; cbn [andb].
  - apply in_range_box in R1, R2. split; [intros _; right; right; split; assumption|reflexivity].
  - split; [discriminate|]. intros [E|[E|[_ E]]]; [congruence|congruence|].
    apply in_range_box in E. congruence.
  - split; [discriminate|]. intros [E|[E|[E _]]]; [congruence|congruence|].
    apply in_range_box in E. congruence.
Qed.
End SquareFacts.

Section GridFacts.
Context {Rect : Type}.
Abbreviation SudokuSquare := (@sudoku_gui.SudokuSquare Rect).
Abbreviation SudokuGUI := (@sudoku_gui.SudokuGUI Rect).
Implicit Types (square other s : SudokuSquare) (f g : nat * nat -> SudokuSquare).
Implicit Types (rects : list (list SudokuSquare)) (p q x : nat * nat).

(** The 9x9 structure whose square at place [(a, c)] is [f (a, c)]. *)
Definition grid_of f : list (list SudokuSquare) :=
  map (fun a => map (fun c => f (a, c)) (seq 0 9)) (seq 0 9).

(** [_rects] as [SudokuGUI._generate_board] builds it: nine columns of nine
    squares, the square at [_rects[a][c]] carrying column [a] and row [c]. *)
Definition well_placed rects : Prop :=
  length rects = 9 /\
  (forall a column, rects !! a = Some column -> length column = 9) /\
  (forall a c s, sudoku_gui.square_at rects (a, c) = Some s ->
                 sudoku_gui.col s = Z.of_nat a /\ sudoku_gui.row s = Z.of_nat c).

(** The grid of values shown: row [i], column [j] is the value of
    [_get_square(i, j)]. *)
Definition value_board rects : board :=
  map (fun i => map (fun j => match sudoku_gui.square_at rects (j, i) with
                              | Some s => sudoku_gui.value s
                              | None => 0%Z
                              end) (seq 0 9)) (seq 0 9).

Lemma list9 {A} (l : list A) :
  length l = 9 ->
  exists e0 e1 e2 e3 e4 e5 e6 e7 e8, l = [e0; e1; e2; e3; e4; e5; e6; e7; e8].
Proof.
  intros H.
  destruct l as [|e0 [|e1 [|e2 [|e3 [|e4 [|e5 [|e6 [|e7 [|e8 [|]]]]]]]]]];
    try discriminate H.
  repeat eexists.
Qed.

Lemma shaped_grid_of rects :
  length rects = 9 ->
  (forall a column, rects !! a = Some column -> length column = 9) ->
  exists f, rects = grid_of f.
Proof.
  intros Hlen Hcol.
  destruct (list9 rects Hlen) as (c0 & c1 & c2 & c3 & c4 & c5 & c6 & c7 & c8 & ->).
  destruct (list9 c0 (Hcol 0 _ eq_refl)) as (s0 & ? & ? & ? & ? & ? & ? & ? & ? & ->).
  destruct (list9 c1 (Hcol 1 _ eq_refl)) as (? & ? & ? & ? & ? & ? & ? & ? & ? & ->).
  destruct (list9 c2 (Hcol 2 _ eq_refl)) as (? & ? & ? & ? & ? & ? & ? & ? & ? & ->).
  destruct (list9 c3 (Hcol 3 _ eq_refl)) as (? & ? & ? & ? & ? & ? & ? & ? & ? & ->).
  destruct (list9 c4 (Hcol 4 _ eq_refl)) as (? & ? & ? & ? & ? & ? & ? & ? & ? & ->).
  destruct (list9 c5 (Hcol 5 _ eq_refl)) as (? & ? & ? & ? & ? & ? & ? & ? & ? & ->).
  destruct (list9 c6 (Hcol 6 _ eq_refl)) as (? & ? & ? & ? & ? & ? & ? & ? & ? & ->).
  destruct (list9 c7 (Hcol 7 _ eq_refl)) as (? & ? & ? & ? & ? & ? & ? & ? & ? & ->).
  destruct (list9 c8 (Hcol 8 _ eq_refl)) as (? & ? & ? & ? & ? & ? & ? & ? & ? & ->).
  match goal with
  | |- exists f, ?r = _ => exists (fun p => nth (snd p) (nth (fst p) r []) s0)
  end.
  reflexivity.
Qed.

Lemma grid_of_ext f g :
  (forall p, In p all_cells -> f p = g p) -> grid_of f = grid_of g.
Proof.
  intros H. unfold grid_of. apply map_ext_in. intros a Ha.
  apply map_ext_in. intros c Hc. apply H. apply in_all_cells.
  apply in_seq in Ha, Hc. split; lia.
Qed.

Ltac cases9 H :=
  match type of H with
  | ?a < 9 =>
      assert (a = 0 \/ a = 1 \/ a = 2 \/ a = 3 \/ a = 4 \/ a = 5 \/ a = 6 \/ a = 7 \/ a = 8)
        as [->|[->|[->|[->|[->|[->|[->|[->| ->]]]]]]]] by lia
  end.

Lemma square_at_grid_of f p :
  In p all_cells -> sudoku_gui.square_at (grid_of f) p = Some (f p).
Proof.
  destruct p as [a c]. intros Hin. apply in_all_cells in Hin as [Ha Hc].
  cases9 Ha; cases9 Hc; reflexivity.
Qed.

Lemma places_grid_of f : sudoku_gui.places (grid_of f) = all_cells.
Proof. reflexivity. Qed.

Lemma concat_grid_of f : concat (grid_of f) = map f all_cells.
Proof. reflexivity. Qed.

Lemma update_at_grid_of f p (u : SudokuSquare -> SudokuSquare) :
  In p all_cells ->
  sudoku_gui.update_at p u (grid_of f)
  = grid_of (fun x => if bool_decide (x = p) then u (f x) else f x).
Proof.
  destruct p as [a c]. intros Hin. apply in_all_cells in Hin as [Ha Hc].
  cases9 Ha; cases9 Hc; reflexivity.
Qed.

(** What [_check_if_correct] tests for a pair of squares, apart from their
    being two different objects. *)
Definition clash square other : bool :=
  sudoku_gui._check_if_intersects square other
  && (sudoku_gui.value square =? sudoku_gui.value other)%Z
  && negb (sudoku_gui.value square =? 0)%Z.

Definition mark p f : nat * nat -> SudokuSquare :=
  fun x => if bool_decide (x = p) then sudoku_gui.set_is_wrong true (f x) else f x.

Lemma check_pair_grid_of f p q :
  In p all_cells -> In q all_cells ->
  sudoku_gui.check_pair p q (grid_of f)
  = grid_of (if clash (f p) (f q) && negb (bool_decide (p = q))
             then mark q (mark p f) else f).
Proof.
  intros Hp Hq. unfold sudoku_gui.check_pair.
  rewrite !square_at_grid_of by assumption. fold (clash (f p) (f q)).
  destruct (clash (f p) (f q) && negb (bool_decide (p = q))); [|reflexivity].
  rewrite update_at_grid_of by assumption. rewrite update_at_grid_of by assumption.
  reflexivity.
Qed.

(** The flag of the square at [x] after the pairs [pairs] have been
    compared. *)
Definition marked f (pairs : list ((nat * nat) * (nat * nat))) x : bool :=
  existsb (fun pq => clash (f (fst pq)) (f (snd pq)) && negb (bool_decide (fst pq = snd pq))
                     && (bool_decide (x = fst pq) || bool_decide (x = snd pq))) pairs.

Definition flagged f pairs : nat * nat -> SudokuSquare :=
  fun x => sudoku_gui.set_is_wrong (sudoku_gui.is_wrong (f x) || marked f pairs x) (f x).

Lemma clash_set_is_wrong w w' square other :
  clash (sudoku_gui.set_is_wrong w square) (sudoku_gui.set_is_wrong w' other)
  = clash square other.
Proof. reflexivity. Qed.

Lemma fold_check_pairs pairs : forall f,
  Forall (fun pq => In (fst pq) all_cells /\ In (snd pq) all_cells) pairs ->
  fold_left (fun rects pq => sudoku_gui.check_pair (fst pq) (snd pq) rects) pairs (grid_of f)
  = grid_of (flagged f pairs).
Proof.
  induction pairs as [|[p q] pairs IH]; intros f Hin.
  - cbn [fold_left]. apply grid_of_ext. intros x _. unfold flagged, marked. cbn [existsb].
    rewrite orb_false_r. destruct (f x). reflexivity.
  - apply List.Forall_cons_iff in Hin as [[Hp Hq] Hin]. cbn [fst snd] in Hp, Hq.
    cbn [fold_left fst snd]. rewrite check_pair_grid_of by assumption.
    rewrite IH by assumption. apply grid_of_ext. intros x _.
    unfold flagged, marked. cbn [existsb fst snd].
    set (c := clash (f p) (f q) && negb (bool_decide (p = q))).
    assert (forall y,
              (if c then mark q (mark p f) else f) y
              = sudoku_gui.set_is_wrong
                  (sudoku_gui.is_wrong (f y)
                   || c && (bool_decide (y = p) || bool_decide (y = q))) (f y)) as Hy.
    { intros y. destruct c; cbn [andb].
      - unfold mark. destruct (bool_decide (y = q)), (bool_decide (y = p)); cbn [orb];
          rewrite ?orb_true_r, ?orb_false_r; destruct (f y); reflexivity.
      - rewrite orb_false_r. destruct (f y); reflexivity. }
    assert (forall pairs',
      existsb (fun pq =>
         clash ((if c then mark q (mark p f) else f) (fst pq))
               ((if c then mark q (mark p f) else f) (snd pq))
         && negb (bool_decide (fst pq = snd pq))
         && (bool_decide (x = fst pq) || bool_decide (x = snd pq))) pairs'
      = existsb (fun pq =>
         clash (f (fst pq)) (f (snd pq)) && negb (bool_decide (fst pq = snd pq))
         && (bool_decide (x = fst pq) || bool_decide (x = snd pq))) pairs') as Hex.
    { intros pairs'. induction pairs' as [|[p' q'] pairs' IH']; [reflexivity|].
      cbn [existsb fst snd]. rewrite IH', (Hy p'), (Hy q'), clash_set_is_wrong.
      reflexivity. }
    rewrite Hex, (Hy x).
    destruct (f x). unfold sudoku_gui.set_is_wrong. cbn [sudoku_gui.is_wrong sudoku_gui.rect
      sudoku_gui.color sudoku_gui.selected sudoku_gui.at_intersection sudoku_gui.same_value
      sudoku_gui.value sudoku_gui.row sudoku_gui.col sudoku_gui.notes sudoku_gui.editable].
    f_equal. rewrite orb_assoc. reflexivity.
Qed.

Lemma fold_left_pairs {A B C} (g : A -> B -> C -> C) (l1 : list A) (l2 : list B) :
  forall acc,
  fold_left (fun acc a => fold_left (fun acc b => g a b acc) l2 acc) l1 acc
  = fold_left (fun acc ab => g (fst ab) (snd ab) acc) (list_prod l1 l2) acc.
Proof.
  induction l1 as [|a l1 IH]; intros acc; [reflexivity|].
  cbn [fold_left list_prod]. rewrite fold_left_app, IH.
  assert (forall l acc',
            fold_left (fun acc b => g a b acc) l acc'
            = fold_left (fun acc ab => g (fst ab) (snd ab) acc)
                        (map (fun y => (a, y)) l) acc') as Hrow.
  { induction l as [|b l IHl]; intros acc'; [reflexivity|].
    cbn [map fold_left fst snd]. apply IHl. }
  rewrite Hrow. reflexivity.
Qed.

(** All pairs of places, in the order of the four nested loops. *)
Definition all_pairs : list ((nat * nat) * (nat * nat)) := list_prod all_cells all_cells.

Lemma check_pairs_grid_of f :
  fold_left (fun rects p =>
               fold_left (fun rects q => sudoku_gui.check_pair p q rects) all_cells rects)
            all_cells (grid_of f)
  = grid_of (flagged f all_pairs).
Proof.
  rewrite (fold_left_pairs (fun p q rects => sudoku_gui.check_pair p q rects)).
  apply fold_check_pairs.
  apply List.Forall_forall. intros [p q] H. apply in_prod_iff in H. exact H.
Qed.

Lemma check_if_correct_grid_of d f k :
  sudoku_gui._check_if_correct (sudoku_gui.Gui d (grid_of f) k)
  = sudoku_gui.Gui d (grid_of (flagged f all_pairs)) k.
Proof.
  unfold sudoku_gui._check_if_correct, sudoku_gui.set_rects.
  cbn [sudoku_gui._rects sudoku_gui._difficulty sudoku_gui._continue].
  rewrite places_grid_of, check_pairs_grid_of. reflexivity.
Qed.

Lemma well_placed_grid_of f :
  (forall a c, a < 9 -> c < 9 ->
     sudoku_gui.col (f (a, c)) = Z.of_nat a /\ sudoku_gui.row (f (a, c)) = Z.of_nat c) ->
  well_placed (grid_of f).
Proof.
  intros H. split; [reflexivity|]. split.
  - intros a column Ha. unfold grid_of in Ha.
    apply list_lookup_fmap_Some in Ha as (a' & -> & _). reflexivity.
  - intros a c s Hs.
    destruct (decide (a < 9)) as [Ha|Ha].
    + destruct (decide (c < 9)) as [Hc|Hc].
      * rewrite square_at_grid_of in Hs by (apply in_all_cells; split; assumption).
        injection Hs as <-. apply H; assumption.
      * exfalso. cases9 Ha; unfold sudoku_gui.square_at, grid_of in Hs;
          cbn [fst snd map seq lookup list_lookup] in Hs;
          apply lookup_lt_Some in Hs; simpl in Hs; lia.
    + exfalso. unfold sudoku_gui.square_at in Hs. cbn [fst snd] in Hs.
      destruct (grid_of f !! a) eqn:E; [|discriminate].
      apply lookup_lt_Some in E. change (length (grid_of f)) with 9 in E. lia.
Qed.

Lemma well_placed_inv rects :
  well_placed rects ->
  exists f, rects = grid_of f /\
    forall a c, a < 9 -> c < 9 ->
      sudoku_gui.col (f (a, c)) = Z.of_nat a /\ sudoku_gui.row (f (a, c)) = Z.of_nat c.
Proof.
  intros (Hlen & Hcol & Hpl). destruct (shaped_grid_of rects Hlen Hcol) as [f ->].
  exists f. split; [reflexivity|]. intros a c Ha Hc. apply Hpl.
  apply square_at_grid_of, in_all_cells. split; assumption.
Qed.

Lemma wf_value_board rects : wf (value_board rects).
Proof. apply wfb_wf. reflexivity. Qed.

Lemma cell_value_board f i j :
  in_grid i j -> cell (value_board (grid_of f)) i j = sudoku_gui.value (f (j, i)).
Proof. intros [Hi Hj]. cases9 Hi; cases9 Hj; reflexivity. Qed.

Lemma get_square_grid_of d f k r c :
  in_grid r c ->
  sudoku_gui._get_square (sudoku_gui.Gui d (grid_of f) k) (Z.of_nat r) (Z.of_nat c)
  = inr (f (c, r)).
Proof. intros [Hr Hc]. cases9 Hr; cases9 Hc; reflexivity. Qed.

(** With squares that carry their place, intersecting is the relation the
    engine scans. *)
Lemma intersects_scanned square other i j i' j' :
  sudoku_gui.row square = Z.of_nat i -> sudoku_gui.col square = Z.of_nat j ->
  sudoku_gui.row other = Z.of_nat i' -> sudoku_gui.col other = Z.of_nat j' ->
  sudoku_gui._check_if_intersects square other = true <-> scanned i j i' j'.
Proof.
  intros Hr Hc Hr' Hc'. rewrite check_if_intersects_iff, Hr, Hc, Hr', Hc'.
  unfold scanned. change 3%Z with (Z.of_nat 3). rewrite <- !Nat2Z.inj_div.
  rewrite !Nat2Z.inj_iff. reflexivity.
Qed.

Section Marks.
Variable f : nat * nat -> SudokuSquare.
Hypothesis Hplaced : forall a c, a < 9 -> c < 9 ->
  sudoku_gui.col (f (a, c)) = Z.of_nat a /\ sudoku_gui.row (f (a, c)) = Z.of_nat c.

Lemma clash_iff i j i' j' :
  in_grid i j -> in_grid i' j' ->
  clash (f (j, i)) (f (j', i')) = true <->
  scanned i j i' j' /\ sudoku_gui.value (f (j', i')) = sudoku_gui.value (f (j, i)) /\
  sudoku_gui.value (f (j, i)) <> 0%Z.
Proof.
  intros [Hi Hj] [Hi' Hj']. unfold clash.
  destruct (Hplaced j i Hj Hi) as [Hc Hr]. destruct (Hplaced j' i' Hj' Hi') as [Hc' Hr'].
  rewrite !andb_true_iff, negb_true_iff, Z.eqb_eq, Z.eqb_neq.
  rewrite (intersects_scanned _ _ i j i' j' Hr Hc Hr' Hc').
  intuition congruence.
Qed.

(** A square is marked exactly when its value is placed and occurs in
    another square of its row, column or box. *)
Lemma marked_iff i j :
  in_grid i j ->
  marked f all_pairs (j, i) = true <->
  sudoku_gui.value (f (j, i)) <> 0%Z /\
  exists i' j', in_grid i' j' /\ (i', j') <> (i, j) /\ scanned i j i' j' /\
                sudoku_gui.value (f (j', i')) = sudoku_gui.value (f (j, i)).
Proof.
  intros Hij. unfold marked. rewrite existsb_exists. split.
  - intros ([[a c] [a' c']] & Hin & H). apply in_prod_iff in Hin as [Hp Hq].
    apply in_all_cells in Hp as [Ha Hc], Hq as [Ha' Hc'].
    cbn [fst snd] in H. rewrite !andb_true_iff, negb_true_iff, orb_true_iff in H.
    destruct H as [[Hcl Hne] Hx]. apply bool_decide_eq_false in Hne.
    apply (clash_iff c a c' a' (conj Hc Ha) (conj Hc' Ha')) in Hcl as (Hsc & Hv & Hnz).
    destruct Hx as [Hx|Hx]; apply bool_decide_eq_true in Hx; injection Hx as -> ->.
    + split; [assumption|]. exists c', a'. split; [split; assumption|].
      split; [intros E; apply Hne; injection E as -> ->; reflexivity|].
      split; assumption.
    + split; [congruence|]. exists c, a. split; [split; assumption|].
      split; [intros E; apply Hne; injection E as -> ->; reflexivity|].
      split; [apply scanned_sym; assumption|congruence].
  - intros (Hnz & i' & j' & Hij' & Hne & Hsc & Hv).
    exists ((j, i), (j', i')). split.
    + apply in_prod_iff. split; apply in_all_cells; [destruct Hij|destruct Hij']; split; assumption.
    + cbn [fst snd]. rewrite (proj2 (clash_iff i j i' j' Hij Hij')) by (repeat split; assumption).
      rewrite bool_decide_eq_false_2 by (intros E; apply Hne; injection E as -> ->; reflexivity).
      rewrite bool_decide_eq_true_2 by reflexivity. reflexivity.
Qed.
End Marks.

(** *** Counting the digits *)

(** A square that [_check_completion] counts. *)
Definition counted s : bool :=
  negb (sudoku_gui.value s =? 0)%Z && negb (sudoku_gui.is_wrong s).

Definition tally (squares : list SudokuSquare) (k : Z) : nat :=
  length (List.filter (fun s => counted s && (sudoku_gui.value s =? k)%Z) squares).

Definition known (nums : list (Z * nat)) s : bool :=
  negb (counted s) || existsb (Z.eqb (sudoku_gui.value s)) (map fst nums).

Lemma dict_incr_spec k (nums : list (Z * nat)) :
  List.NoDup (map fst nums) ->
  sudoku_gui.dict_incr k nums
  = if existsb (Z.eqb k) (map fst nums)
    then inr (map (fun kv => (fst kv, snd kv + if (fst kv =? k)%Z then 1 else 0)) nums)
    else inl KeyError.
Proof.
  induction nums as [|[k' v] nums IH]; intros Hnd; [reflexivity|].
  cbn [map fst] in Hnd. apply NoDup_cons_iff in Hnd as [Hnotin Hnd].
  cbn [sudoku_gui.dict_incr map existsb fst snd]. rewrite (Z.eqb_sym k k').
  destruct (Z.eqb_spec k' k) as [->|Hne]; cbn [orb].
  - f_equal. f_equal; [f_equal; lia|].
    rewrite <- (map_id nums) at 1. apply map_ext_in. intros [k2 v2] Hin. cbn [fst snd].
    destruct (Z.eqb_spec k2 k) as [->|_]; [|f_equal; lia].
    exfalso. apply Hnotin. apply (in_map fst) in Hin. exact Hin.
  - rewrite (IH Hnd). destruct (existsb (Z.eqb k) (map fst nums)); [|reflexivity].
    f_equal. f_equal. f_equal. lia.
Qed.

Lemma count_squares_spec squares : forall nums,
  List.NoDup (map fst nums) ->
  sudoku_gui.count_squares squares nums
  = if forallb (known nums) squares
    then inr (map (fun kv => (fst kv, snd kv + tally squares (fst kv))) nums)
    else inl KeyError.
Proof.
  induction squares as [|s squares IH]; intros nums Hnd.
  - cbn [sudoku_gui.count_squares forallb]. f_equal.
    rewrite <- (map_id nums) at 1. apply map_ext. intros [k v]. cbn [fst snd tally].
    unfold tally. simpl. f_equal. lia.
  - cbn [sudoku_gui.count_squares forallb]. unfold known at 1. fold (counted s).
    destruct (counted s) eqn:Hc; cbn [negb orb].
    + rewrite (dict_incr_spec _ _ Hnd).
      destruct (existsb (Z.eqb (sudoku_gui.value s)) (map fst nums)); cbn [andb];
        [|reflexivity].
      rewrite IH by (rewrite map_map; exact Hnd).
      assert (forallb (known (map (fun kv : Z * nat =>
                 (fst kv, snd kv + if (fst kv =? sudoku_gui.value s)%Z then 1 else 0)) nums))
                squares = forallb (known nums) squares) as ->.
      { unfold known. rewrite map_map. reflexivity. }
      destruct (forallb (known nums) squares); [|reflexivity].
      f_equal. rewrite map_map. apply map_ext. intros [k v]. cbn [fst snd].
      f_equal. unfold tally. cbn [List.filter]. rewrite Hc. cbn [andb].
      rewrite (Z.eqb_sym (sudoku_gui.value s) k).
      destruct (k =? sudoku_gui.value s)%Z; cbn [length]; lia.
    + rewrite IH by assumption. destruct (forallb (known nums) squares); [|reflexivity].
      f_equal. apply map_ext. intros [k v]. cbn [fst snd]. f_equal.
      unfold tally. cbn [List.filter]. rewrite Hc. reflexivity.
Qed.

(** The dict [{i: 0 for i in range(1, 10)}]. *)
Definition nums0 : list (Z * nat) := map (fun i => (Z.of_nat i, 0)) (seq 1 9).

Lemma filter_length_all {A} (g : A -> bool) l :
  length (List.filter g l) = length l <-> forallb g l = true.
Proof.
  induction l as [|x l IH]; [simpl; tauto|]. cbn [List.filter forallb].
  pose proof (filter_length_le g l) as Hle.
  destruct (g x); cbn [length andb].
  - rewrite <- IH. lia.
  - split; [lia|discriminate].
Qed.

Lemma check_win_spec (self : SudokuGUI) :
  sudoku_gui._check_win self = inr true <->
  forallb (known nums0) (concat (sudoku_gui._rects self)) = true /\
  forall k, In k (map fst nums0) -> tally (concat (sudoku_gui._rects self)) k = 9.
Proof.
  unfold sudoku_gui._check_win, sudoku_gui._check_completion. cbv zeta.
  fold nums0. rewrite count_squares_spec
    by (apply NoDup_ListNoDup; apply (bool_decide_unpack _); vm_compute; exact I).
  destruct (forallb (known nums0) (concat (sudoku_gui._rects self)));
    [|split; [discriminate|intros [H _]; discriminate]].
  set (t := tally (concat (sudoku_gui._rects self))).
  rewrite length_map.
  assert (length (List.filter (fun kv : Z * nat => snd kv =? 9)
            (map (fun kv : Z * nat => (fst kv, snd kv + t (fst kv))) nums0)) = 9
          <-> forall k, In k (map fst nums0) -> t k = 9) as Hiff.
  { change 9 with (length (map (fun kv : Z * nat => (fst kv, snd kv + t (fst kv))) nums0)) at 1.
    rewrite filter_length_all, forallb_forall. split.
    - intros H k Hk. apply in_map_iff in Hk as ([k' v] & <- & Hin). cbn [fst].
      specialize (H (k', v + t k')). cbn [snd] in H. apply Nat.eqb_eq in H.
      + assert (v = 0) as -> by (unfold nums0 in Hin; apply in_map_iff in Hin as (? & E & _);
                                  congruence). exact H.
      + apply (in_map (fun kv : Z * nat => (fst kv, snd kv + t (fst kv))) _ (k', v)). exact Hin.
    - intros H kv Hin. apply in_map_iff in Hin as ([k' v] & <- & Hin). cbn [fst snd].
      assert (v = 0) as -> by (unfold nums0 in Hin; apply in_map_iff in Hin as (? & E & _);
                                congruence).
      apply Nat.eqb_eq. apply H. apply (in_map fst _ (k', 0)). exact Hin. }
  split.
  - intros H. split; [reflexivity|]. apply Hiff. injection H as H. apply Nat.eqb_eq. exact H.
  - intros [_ H]. f_equal. apply Nat.eqb_eq, Hiff, H.
Qed.

Lemma list_sum_add {A} (a b : A -> nat) l :
  list_sum (map (fun k => a k + b k) l) = list_sum (map a l) + list_sum (map b l).
Proof. induction l as [|x l IH]; [reflexivity|]. simpl. lia. Qed.

(** Every counted square adds one to exactly one entry of the dict. *)
Lemma tally_total squares :
  forallb (known nums0) squares = true ->
  list_sum (map (tally squares) (map fst nums0)) = length (List.filter counted squares).
Proof.
  induction squares as [|s squares IH]; intros Hk; [reflexivity|].
  cbn [forallb] in Hk. apply andb_true_iff in Hk as [Hs Hk].
  assert (forall k, tally (s :: squares) k
                    = (if counted s && (sudoku_gui.value s =? k)%Z then 1 else 0)
                      + tally squares k) as Ht.
  { intros k. unfold tally. cbn [List.filter].
    destruct (counted s && (sudoku_gui.value s =? k)%Z); reflexivity. }
  rewrite (map_ext _ _ Ht), list_sum_add, (IH Hk). cbn [List.filter].
  unfold known in Hs. destruct (counted s) eqn:Hc; cbn [negb orb andb] in *.
  - apply existsb_exists in Hs as (k & Hin & Hv). apply Z.eqb_eq in Hv.
    rewrite Hv. simpl in Hin.
    destruct Hin as [<-|[<-|[<-|[<-|[<-|[<-|[<-|[<-|[<-|[]]]]]]]]]]; reflexivity.
  - reflexivity.
Qed.

Lemma filter_map_length {A B} (h : A -> B) (t : B -> bool) l :
  length (List.filter t (map h l)) = length (List.filter (fun y => t (h y)) l).
Proof.
  induction l as [|y l IH]; [reflexivity|]. cbn [map List.filter].
  destruct (t (h y)); simpl; lia.
Qed.

Lemma filter_count_occ {A} (h : A -> Z) (k : Z) l :
  length (List.filter (fun y => (h y =? k)%Z) l) = count_occ Z.eq_dec (map h l) k.
Proof.
  induction l as [|y l IH]; [reflexivity|]. cbn [List.filter map count_occ].
  destruct (Z.eqb_spec (h y) k) as [E|N]; destruct (Z.eq_dec (h y) k); try contradiction;
    simpl; lia.
Qed.

Lemma filter_prod_length {A B} (t : A * B -> bool) (l1 : list A) (l2 : list B) :
  length (List.filter t (list_prod l1 l2))
  = list_sum (map (fun a => length (List.filter t (map (pair a) l2))) l1).
Proof.
  induction l1 as [|a l1 IH]; [reflexivity|].
  simpl. rewrite List.filter_app, length_app, IH. reflexivity.
Qed.

(** In a solved grid every digit is in nine cells. *)
Lemma digit_count_solved (b : board) (k : Z) :
  solved b -> (1 <= k <= 9)%Z ->
  length (List.filter (fun y : nat * nat => (cell b (snd y) (fst y) =? k)%Z) all_cells) = 9.
Proof.
  intros [_ Hs] Hk. unfold all_cells. rewrite filter_prod_length.
  rewrite (map_ext_in _ (fun _ => 1)); [reflexivity|].
  intros a Ha. apply in_seq in Ha.
  rewrite (filter_map_length (pair a)). cbn [fst snd].
  rewrite (filter_count_occ (fun c => cell b c a)).
  assert (In (col_cells a) units) as Hu.
  { unfold units. apply in_or_app. right. apply in_or_app. left.
    apply in_map. apply in_seq. lia. }
  specialize (Hs (col_cells a) Hu k Hk). unfold unit_values, col_cells in Hs.
  rewrite map_map in Hs. cbn [fst snd] in Hs. exact Hs.
Qed.
End GridFacts.

(** The squares the GUI builds for a grid, with [unit] for the rectangles. *)
Definition squares_of (b : board) : list (list (@sudoku_gui.SudokuSquare unit)) :=
  grid_of (fun p => sudoku_gui.SudokuSquare_init tt sudoku_gui.white false false false
                      (Z.of_nat (snd p)) (Z.of_nat (fst p)) (cell b (snd p) (fst p))).

Lemma well_placed_squares_of b : well_placed (squares_of b).
Proof. apply well_placed_grid_of. intros a c _ _. split; reflexivity. Qed.

Lemma Permutation_filter_length {A} (t : A -> bool) l l' :
  Permutation l l' -> length (List.filter t l) = length (List.filter t l').
Proof.
  induction 1 as [|y l l' _ IH|y z l|l l' l'' _ IH1 _ IH2]; cbn [List.filter].
  - reflexivity.
  - destruct (t y); simpl; lia.
  - destruct (t y), (t z); reflexivity.
  - lia.
Qed.

(** Counting over the cells column by column or row by row is the same. *)
Lemma all_cells_transpose (t : nat * nat -> bool) :
  length (List.filter (fun y => t (snd y, fst y)) all_cells)
  = length (List.filter t all_cells).
Proof.
  rewrite <- (filter_map_length (fun y : nat * nat => (snd y, fst y)) t).
  apply Permutation_filter_length. symmetry. apply NoDup_Permutation_bis.
  - apply NoDup_all_cells.
  - rewrite length_map. lia.
  - intros y Hy. apply list_elem_of_In. apply list_elem_of_In in Hy. revert y Hy.
    apply Forall_forall. apply (bool_decide_unpack _). vm_compute. exact I.
Qed.

(** The square [SudokuGUI._generate_board] builds at place [(j, i)] for the
    engine's grid [b]. *)
Definition fresh_square {Rect} (square_rect : nat -> nat -> Rect) (b : board)
    (y : nat * nat) : @sudoku_gui.SudokuSquare Rect :=
  sudoku_gui.SudokuSquare_init (square_rect (fst y) (snd y)) sudoku_gui.white
    false false false (Z.of_nat (snd y)) (Z.of_nat (fst y)) (cell b (snd y) (fst y)).

(** The value a run returns ([d] when it does not return). *)
Definition returned {A} (r : result A) (d : A) : A :=
  match r with Return v _ => v | _ => d end.

(** The GUI after a new game at the easiest level, with [unit] rectangles. *)
Definition demo_gui : @sudoku_gui.SudokuGUI unit :=
  returned (sudoku_gui._generate_board (fun _ _ => tt) (sudoku_gui.Gui 0 [] true)
              (State prior_board demo_draws))
           (sudoku_gui.Gui 0 [] true).


(** * Every seed has a completion

    The three diagonal boxes can hold any three permutations of 1..9.  The
    digits are named by their cell in the first box; a box is then given by
    the local row and the local column of each digit.  For every possible
    pair of middle and last box a layout of the six other boxes is found
    among a fixed family of candidates, checked by computation over the
    canonical forms of the boxes. *)

(** ** Completing a seeded grid: the combinatorial core *)

(** Throughout, the nine digits are named by the cell (0..8, row-major) they
    occupy in the first diagonal box, and a box is described by two lists of
    length 9 over {0,1,2}: the local row and the local column of each digit. *)

Definition ra : list nat := [0; 0; 0; 1; 1; 1; 2; 2; 2].
Definition ca : list nat := [0; 1; 2; 0; 1; 2; 0; 1; 2].

Definition nxt (v : nat) : nat := match v with 0 => 1 | 1 => 2 | _ => 0 end.
Definition prv (v : nat) : nat := match v with 0 => 2 | 1 => 0 | _ => 1 end.

(** Does the pair [(a, b)] occur among the pairs [(f x, g x)]? *)
Fixpoint occurs (a b : nat) (f g : list nat) : bool :=
  match f, g with
  | a' :: f', b' :: g' => ((a =? a') && (b =? b')) || occurs a b f' g'
  | _, _ => false
  end.

(** The digits sit in pairwise distinct cells [(f x, g x)]. *)
Fixpoint orthb (f g : list nat) : bool :=
  match f, g with
  | a :: f', b :: g' => negb (occurs a b f' g') && orthb f' g'
  | _, _ => true
  end.

(** [v], [a], [b] are the three different values 0, 1, 2. *)
Definition d3p (v a b : nat) : bool :=
  (v <? 3) && (((a =? nxt v) && (b =? prv v)) || ((a =? prv v) && (b =? nxt v))).

(** At every digit the three lists hold the three different values. *)
Fixpoint d3b (c k t : list nat) : bool :=
  match c, k, t with
  | v :: c', a :: k', b :: t' => d3p v a b && d3b c' k' t'
  | [], [], [] => true
  | _, _, _ => false
  end.

(** All ways to place the digits in the two other boxes of a line with
    values [c] in its diagonal box, such that in the first of them no two
    digits of a class of [u] collide. *)
Fixpoint Kpairs (u c : list nat) : list (list nat * list nat) :=
  match u, c with
  | a :: u', v :: c' =>
      flat_map (fun p =>
        (if occurs a (nxt v) u' (fst p) then [] else [(nxt v :: fst p, prv v :: snd p)]) ++
        (if occurs a (prv v) u' (fst p) then [] else [(prv v :: fst p, nxt v :: snd p)]))
        (Kpairs u' c')
  | _, _ => [([], [])]
  end.

Definition trits : list nat := [0; 1; 2].

Fixpoint all_lists (n : nat) : list (list nat) :=
  match n with
  | 0 => [[]]
  | S n' => flat_map (fun l => map (fun t => t :: l) trits) (all_lists n')
  end.

Definition count (v : nat) (f : list nat) : nat := length (List.filter (Nat.eqb v) f).
Definition balancedb (f : list nat) : bool :=
  (count 0 f =? 3) && (count 1 f =? 3) && (count 2 f =? 3).

(** Values appear for the first time in the order 0, 1, 2. *)
Fixpoint canon_from (next : nat) (f : list nat) : bool :=
  match f with
  | [] => true
  | v :: f' => if v <? next then canon_from next f'
               else if v =? next then canon_from (S next) f' else false
  end.

Definition canon_list : list (list nat) :=
  List.filter (fun f => balancedb f && canon_from 0 f) (all_lists 9).

Definition perms3 : list (list nat) :=
  [[0; 1; 2]; [0; 2; 1]; [1; 0; 2]; [1; 2; 0]; [2; 0; 1]; [2; 1; 0]].

Definition relabel (s f : list nat) : list nat := map (fun v => nth v s 0) f.

Definition canon (f : list nat) : list nat :=
  match List.find (fun s => canon_from 0 (relabel s f)) perms3 with
  | Some s => relabel s f
  | None => f
  end.

Definition key (f : list nat) : positive := encode (canon f).

(** For each canonical partition, the canonical partitions orthogonal to it. *)
Definition nbmap_of (l : list (list nat)) : Pmap (list positive) :=
  fold_right (fun p m =>
    <[encode p := map encode (List.filter (fun q => orthb q p) canon_list)]> m) ∅ l.

Definition addall (ks : list positive) (s : Pmap unit) : Pmap unit :=
  fold_right (fun k s => <[k := tt]> s) s ks.

Definition NK (nb : Pmap (list positive)) (K : list (list nat * list nat)) : Pmap unit :=
  fold_right (fun kap s => match nb !! key (snd kap) with
                           | Some ks => addall ks s
                           | None => s
                           end) ∅ K.

Definition hit (N : Pmap unit) (k : positive) : bool :=
  match N !! k with Some _ => true | None => false end.

Definition success (N : Pmap unit) (R : list positive) : bool := existsb (hit N) R.

Fixpoint atleast (n : nat) (Ns : list (Pmap unit)) (Rs : list (list positive)) : bool :=
  match n with
  | 0 => true
  | S n' => match Ns, Rs with
            | N :: Ns', R :: Rs' =>
                if success N R then atleast n' Ns' Rs' else atleast n Ns' Rs'
            | _, _ => false
            end
  end.

(** Fourteen choices of (rows of box (0,1), columns of box (2,0)); for every
    pair of diagonal boxes more than half of them can be extended. *)
Definition family : list (list nat * list nat) :=
 [([2;2;1;0;2;0;0;1;1], [1;2;1;1;0;0;2;2;0]);
  ([1;1;2;2;0;2;1;0;0], [2;0;0;2;2;1;1;0;1]);
  ([1;2;2;0;0;2;1;0;1], [2;2;0;1;2;1;1;0;0]);
  ([2;1;1;2;2;0;0;1;0], [1;0;1;2;0;0;2;2;1]);
  ([2;1;2;2;0;0;0;1;1], [1;2;0;2;2;0;1;0;1]);
  ([1;2;1;0;2;2;1;0;0], [2;0;1;1;0;1;2;2;0]);
  ([1;2;1;2;2;0;0;0;1], [1;0;0;1;2;1;2;2;0]);
  ([2;1;2;0;0;2;1;1;0], [2;2;1;2;0;0;1;0;1]);
  ([2;1;1;2;0;2;0;0;1], [2;2;0;1;0;0;1;2;1]);
  ([1;2;2;0;2;0;1;1;0], [1;0;1;2;2;1;2;0;0]);
  ([2;2;1;2;0;0;1;0;1], [2;2;0;1;0;1;2;0;1]);
  ([1;1;2;0;2;2;0;1;0], [1;0;1;2;2;0;1;2;0]);
  ([2;1;2;0;2;0;1;0;1], [2;0;1;1;2;0;2;0;1]);
  ([1;2;1;2;0;2;0;1;0], [1;2;0;2;0;1;1;2;0])].

(** The third value at each digit. *)
Definition other (c k : list nat) : list nat :=
  map (fun p => 3 - fst p - snd p) (combine c k).

Definition mirror (p : list nat * list nat) : list nat * list nat :=
  (other ra (fst p), other ca (snd p)).

Definition Ns_of (nb : Pmap (list positive)) (c : list nat) : list (Pmap unit) :=
  map (fun p => NK nb (Kpairs (fst p) c)) family.

Definition Rs_of (r : list nat) : list (list positive) :=
  map (fun p => map (fun q => key (snd q)) (Kpairs (snd p) r)) family.

Definition table_check (cl : list (list nat)) (nb : Pmap (list positive)) : bool :=
  let allN := map (Ns_of nb) cl in
  let allR := map Rs_of cl in
  forallb (fun Ns => forallb (fun Rs => atleast 8 Ns Rs) allR) allN.

(** Rows and columns of the six off-diagonal boxes. *)
Record layout : Type := Layout {
  r01 : list nat; r02 : list nat; r10 : list nat;
  r12 : list nat; r20 : list nat; r21 : list nat;
  c01 : list nat; c02 : list nat; c10 : list nat;
  c12 : list nat; c20 : list nat; c21 : list nat }.

(** The choice [(u, w)] extends to the boxes (0,1), (2,1), (2,0) when the
    diagonal boxes have columns [c] (middle) and rows [r] (last). *)
Definition extends_half (u w c r : list nat) : Prop :=
  exists k01 k21 p20 p21,
    d3b c k01 k21 = true /\ d3b r p20 p21 = true /\
    orthb u k01 = true /\ orthb p21 k21 = true /\ orthb w p20 = true.

Definition nbmap : Pmap (list positive) := nbmap_of canon_list.

Definition half_ok (c r : list nat) (p : list nat * list nat) : bool :=
  success (NK nbmap (Kpairs (fst p) c)) (map (fun q => key (snd q)) (Kpairs (snd p) r)).

Definition layout_ok (rb cb rc cc : list nat) (y : layout) : bool :=
  d3b ra (r01 y) (r02 y) && d3b rb (r10 y) (r12 y) && d3b rc (r20 y) (r21 y) &&
  d3b ca (c10 y) (c20 y) && d3b cb (c01 y) (c21 y) && d3b cc (c02 y) (c12 y) &&
  orthb (r01 y) (c01 y) && orthb (r02 y) (c02 y) &&
  orthb (r21 y) (c21 y) && orthb (r12 y) (c12 y) &&
  orthb (c20 y) (r20 y) && orthb (c10 y) (r10 y).

Lemma table_check_true : table_check canon_list nbmap = true.
Proof. vm_compute. reflexivity. Qed.

Lemma canon_relabel_all :
  forallb (fun f => existsb (fun s => bool_decide (relabel s (canon f) = f)) perms3)
          (all_lists 9) = true.
Proof. vm_compute. reflexivity. Qed.

Lemma canon_in_list_all :
  forallb (fun f => if balancedb f then bool_decide (canon f ∈ canon_list) else true)
          (all_lists 9) = true.
Proof. vm_compute. reflexivity. Qed.

Lemma family_mirror_ok :
  forallb (fun p => d3b ra (fst p) (fst (mirror p)) && d3b ca (snd (mirror p)) (snd p))
          family = true.
Proof. vm_compute. reflexivity. Qed.

Definition trit_list (f : list nat) : Prop := Forall (fun v => v < 3) f.

Lemma in_all_lists f : trit_list f -> In f (all_lists (length f)).
Proof.
  induction 1 as [|v f Hv _ IH]; [left; reflexivity|].
  cbn [length all_lists]. apply in_flat_map. exists f. split; [assumption|].
  apply (in_map (fun t => t :: f) trits v). unfold trits. simpl. lia.
Qed.

Lemma all_lists_trit n f : In f (all_lists n) -> trit_list f /\ length f = n.
Proof.
  revert f. induction n as [|n IH]; intros f; cbn [all_lists].
  - intros [<-|[]]. split; [constructor|reflexivity].
  - rewrite in_flat_map. intros (l & Hl & Hf). apply in_map_iff in Hf as (t & <- & Ht).
    destruct (IH l Hl) as [Htl Hlen]. split; [|simpl; lia].
    constructor; [|assumption]. unfold trits in Ht. simpl in Ht. lia.
Qed.

Lemma canon_list_trit f : In f canon_list -> trit_list f /\ length f = 9.
Proof.
  unfold canon_list. rewrite filter_In. intros [H _]. apply all_lists_trit, H.
Qed.

Lemma canon_relabel f :
  trit_list f -> length f = 9 -> exists s, In s perms3 /\ relabel s (canon f) = f.
Proof.
  intros Ht Hl. pose proof canon_relabel_all as H. rewrite forallb_forall in H.
  specialize (H f). rewrite <- Hl in H at 1. specialize (H (in_all_lists f Ht)).
  apply existsb_exists in H as (s & Hs & Heq). exists s. split; [assumption|].
  apply bool_decide_eq_true in Heq. exact Heq.
Qed.

Lemma canon_in_list f :
  trit_list f -> length f = 9 -> balancedb f = true -> In (canon f) canon_list.
Proof.
  intros Ht Hl Hb. pose proof canon_in_list_all as H. rewrite forallb_forall in H.
  specialize (H f). rewrite <- Hl in H at 1. specialize (H (in_all_lists f Ht)).
  rewrite Hb in H. apply list_elem_of_In. apply bool_decide_eq_true in H. exact H.
Qed.

(** *** Renaming the values *)

Ltac in_cases H :=
  repeat (destruct H as [H|H]; [try (injection H as <- <- <-); try subst|]);
  [..|destruct H].

Lemma d3p_cases v a b :
  d3p v a b = true ->
  In (v, a, b) [(0, 1, 2); (0, 2, 1); (1, 2, 0); (1, 0, 2); (2, 0, 1); (2, 1, 0)].
Proof.
  unfold d3p. rewrite andb_true_iff, orb_true_iff, !andb_true_iff, !Nat.eqb_eq, Nat.ltb_lt.
  intros [Hv H].
  assert (v = 0 \/ v = 1 \/ v = 2) as [->|[->| ->]] by lia;
    cbn [nxt prv] in H; destruct H as [[-> ->]|[-> ->]]; simpl; tauto.
Qed.

Lemma d3p_lt v a b : d3p v a b = true -> v < 3 /\ a < 3 /\ b < 3.
Proof. intros H. apply d3p_cases in H. in_cases H; lia. Qed.

Lemma d3p_relabel s v a b :
  In s perms3 -> d3p v a b = true -> d3p (nth v s 0) (nth a s 0) (nth b s 0) = true.
Proof.
  intros Hs H. apply d3p_cases in H. unfold perms3 in Hs.
  in_cases Hs; in_cases H; reflexivity.
Qed.

Lemma nth_eqb_perm s a b :
  In s perms3 -> a < 3 -> b < 3 -> (nth a s 0 =? nth b s 0) = (a =? b).
Proof.
  intros Hs Ha Hb.
  assert (a = 0 \/ a = 1 \/ a = 2) as Ha' by lia.
  assert (b = 0 \/ b = 1 \/ b = 2) as Hb' by lia.
  unfold perms3 in Hs.
  in_cases Hs; destruct Ha' as [->|[->| ->]]; destruct Hb' as [->|[->| ->]]; reflexivity.
Qed.

Lemma d3b_trit c k t :
  d3b c k t = true ->
  trit_list c /\ trit_list k /\ trit_list t /\ length k = length c /\ length t = length c.
Proof.
  revert k t. induction c as [|v c IH]; intros [|a k] [|b t]; cbn [d3b]; try discriminate.
  - intros _. repeat split; constructor.
  - rewrite andb_true_iff. intros [Hp H]. apply d3p_lt in Hp as (Hv & Ha & Hb).
    destruct (IH k t H) as (Hc & Hk & Ht & Hlk & Hlt).
    repeat split; try (constructor; assumption); simpl; lia.
Qed.

Lemma d3b_relabel s c k t :
  In s perms3 -> d3b c k t = true -> d3b (relabel s c) (relabel s k) (relabel s t) = true.
Proof.
  intros Hs. revert k t. induction c as [|v c IH]; intros [|a k] [|b t];
    cbn [d3b relabel map]; try discriminate; [reflexivity|].
  rewrite !andb_true_iff. intros [Hp H]. split; [apply d3p_relabel; assumption|].
  apply IH. assumption.
Qed.

Lemma occurs_relabel_r s a b f g :
  In s perms3 -> b < 3 -> trit_list g ->
  occurs a (nth b s 0) f (relabel s g) = occurs a b f g.
Proof.
  intros Hs Hb Hg. revert f. induction Hg as [|b' g Hb' _ IH]; intros [|a' f];
    cbn [occurs relabel map]; try reflexivity.
  rewrite (nth_eqb_perm s b b' Hs Hb Hb'). f_equal. apply IH.
Qed.

Lemma occurs_relabel_l s a b f g :
  In s perms3 -> a < 3 -> trit_list f ->
  occurs (nth a s 0) b (relabel s f) g = occurs a b f g.
Proof.
  intros Hs Ha Hf. revert g. induction Hf as [|a' f Ha' _ IH]; intros [|b' g];
    cbn [occurs relabel map]; try reflexivity.
  rewrite (nth_eqb_perm s a a' Hs Ha Ha'). f_equal. apply IH.
Qed.

Lemma orthb_relabel_r s f g :
  In s perms3 -> trit_list g -> orthb f (relabel s g) = orthb f g.
Proof.
  intros Hs Hg. revert f. induction Hg as [|b g Hb Hg IH]; intros [|a f];
    cbn [orthb relabel map]; try reflexivity.
  fold (relabel s g). rewrite (occurs_relabel_r s a b f g Hs Hb Hg). f_equal. apply IH.
Qed.

Lemma orthb_relabel_l s f g :
  In s perms3 -> trit_list f -> orthb (relabel s f) g = orthb f g.
Proof.
  intros Hs Hf. revert g. induction Hf as [|a f Ha Hf IH]; intros [|b g];
    cbn [orthb relabel map]; try reflexivity.
  fold (relabel s f). rewrite (occurs_relabel_l s a b f g Hs Ha Hf). f_equal. apply IH.
Qed.

Lemma extends_half_relabel s s' u w c r :
  In s perms3 -> In s' perms3 ->
  extends_half u w c r -> extends_half u w (relabel s c) (relabel s' r).
Proof.
  intros Hs Hs' (k01 & k21 & p20 & p21 & Hc & Hr & H1 & H2 & H3).
  destruct (d3b_trit _ _ _ Hc) as (_ & Hk01 & Hk21 & _).
  destruct (d3b_trit _ _ _ Hr) as (_ & Hp20 & Hp21 & _).
  exists (relabel s k01), (relabel s k21), (relabel s' p20), (relabel s' p21).
  split; [apply d3b_relabel; assumption|].
  split; [apply d3b_relabel; assumption|].
  split; [rewrite orthb_relabel_r; assumption|].
  split; [rewrite orthb_relabel_r, orthb_relabel_l; assumption|].
  rewrite orthb_relabel_r; assumption.
Qed.

(** *** The candidate lists *)

Lemma Kpairs_ok u c p :
  length u = length c -> trit_list c -> In p (Kpairs u c) ->
  orthb u (fst p) = true /\ d3b c (fst p) (snd p) = true.
Proof.
  intros Hlen Hc. revert u Hlen p. induction Hc as [|v c Hv Hc IH]; intros [|a u] Hlen p;
    try discriminate Hlen.
  - intros [<-|[]]. split; reflexivity.
  - cbn [Kpairs]. rewrite in_flat_map. intros (p0 & Hp0 & Hp).
    injection Hlen as Hlen. destruct (IH u Hlen p0 Hp0) as [Ho Hd].
    assert (d3p v (nxt v) (prv v) = true /\ d3p v (prv v) (nxt v) = true) as [Hd1 Hd2].
    { unfold d3p. rewrite !Nat.eqb_refl. apply Nat.ltb_lt in Hv. rewrite Hv.
      split; [reflexivity|]. rewrite orb_true_r. reflexivity. }
    apply in_app_or in Hp as [Hp|Hp].
    + destruct (occurs a (nxt v) u (fst p0)) eqn:Hocc; [destruct Hp|].
      destruct Hp as [<-|[]]. cbn [fst snd orthb d3b].
      rewrite Hocc, Ho, Hd1, Hd. split; reflexivity.
    + destruct (occurs a (prv v) u (fst p0)) eqn:Hocc; [destruct Hp|].
      destruct Hp as [<-|[]]. cbn [fst snd orthb d3b].
      rewrite Hocc, Ho, Hd2, Hd. split; reflexivity.
Qed.

(** *** The tables *)

Lemma addall_lookup ks (s : Pmap unit) k :
  addall ks s !! k = Some tt -> In k ks \/ s !! k = Some tt.
Proof.
  induction ks as [|a ks IH]; cbn [addall fold_right]; [tauto|].
  fold (addall ks s). destruct (decide (a = k)) as [->|Hne]; [simpl; tauto|].
  rewrite lookup_insert_ne by assumption. intros H. destruct (IH H); simpl; tauto.
Qed.

Lemma fold_addall_lookup {A} (kf : A -> positive) (nb : Pmap (list positive)) K k :
  fold_right (fun kap s => match nb !! kf kap with
                           | Some ks => addall ks s
                           | None => s
                           end) (∅ : Pmap unit) K !! k = Some tt ->
  exists kap ks, In kap K /\ nb !! kf kap = Some ks /\ In k ks.
Proof.
  induction K as [|kap K IH]; cbn [fold_right].
  - rewrite lookup_empty. discriminate.
  - destruct (nb !! kf kap) as [ks|] eqn:Hnb.
    + intros H. destruct (addall_lookup ks _ k H) as [H'|H'].
      * exists kap, ks. split; [left; reflexivity|]. split; assumption.
      * destruct (IH H') as (kap' & ks' & Hin & Hl & Hk). exists kap', ks'.
        split; [right; assumption|]. split; assumption.
    + intros H. destruct (IH H) as (kap' & ks' & Hin & Hl & Hk).
      exists kap', ks'. split; [right; assumption|]. split; assumption.
Qed.

Lemma NK_lookup nb K k :
  NK nb K !! k = Some tt ->
  exists kap ks, In kap K /\ nb !! key (snd kap) = Some ks /\ In k ks.
Proof. unfold NK. exact (fold_addall_lookup (fun kap => key (snd kap)) nb K k). Qed.

Lemma fold_insert_lookup (v : list nat -> list positive) (l : list (list nat)) j ks :
  fold_right (fun p m => <[encode p := v p]> m) (∅ : Pmap (list positive)) l !! j = Some ks ->
  exists p, In p l /\ j = encode p /\ ks = v p.
Proof.
  induction l as [|p l IH]; cbn [fold_right].
  - rewrite lookup_empty. discriminate.
  - destruct (decide (encode p = j)) as [E|Hne].
    + rewrite <- E, lookup_insert_eq. intros H. exists p.
      split; [left; reflexivity|]. split; [reflexivity|]. congruence.
    + rewrite lookup_insert_ne by assumption. intros H.
      destruct (IH H) as (p' & Hin & Hj & Hks). exists p'.
      split; [right; assumption|]. split; assumption.
Qed.

Lemma nbmap_of_lookup l j ks :
  nbmap_of l !! j = Some ks ->
  exists p, In p l /\ j = encode p /\
            ks = map encode (List.filter (fun q => orthb q p) canon_list).
Proof.
  unfold nbmap_of.
  exact (fold_insert_lookup
           (fun p => map encode (List.filter (fun q => orthb q p) canon_list)) l j ks).
Qed.

Lemma half_ok_sound c r p :
  trit_list c -> trit_list r -> length c = 9 -> length r = 9 ->
  length (fst p) = 9 -> length (snd p) = 9 ->
  half_ok c r p = true -> extends_half (fst p) (snd p) c r.
Proof.
  intros Hc Hr Hlc Hlr Hlu Hlw H. unfold half_ok, success in H.
  apply existsb_exists in H as (k & Hk & Hhit).
  apply in_map_iff in Hk as (rho & <- & Hrho).
  unfold hit in Hhit.
  destruct (NK nbmap (Kpairs (fst p) c) !! key (snd rho)) as [[]|] eqn:HN; [|discriminate].
  apply NK_lookup in HN as (kap & ks & Hkap & Hnb & Hin).
  apply nbmap_of_lookup in Hnb as (q & Hq & Hkey & ->).
  apply in_map_iff in Hin as (q' & Hkey' & Hq').
  apply filter_In in Hq' as [Hq' Ho].
  unfold key in Hkey, Hkey'. apply (inj encode) in Hkey, Hkey'. subst q q'.
  destruct (Kpairs_ok (fst p) c kap) as [Ho1 Hd1]; [congruence|assumption|assumption|].
  destruct (Kpairs_ok (snd p) r rho) as [Ho2 Hd2]; [congruence|assumption|assumption|].
  destruct (d3b_trit _ _ _ Hd1) as (_ & _ & Ht1 & _ & Hl1).
  destruct (d3b_trit _ _ _ Hd2) as (_ & _ & Ht2 & _ & Hl2).
  destruct (canon_relabel (snd kap) Ht1 ltac:(congruence)) as (s1 & Hs1 & E1).
  destruct (canon_relabel (snd rho) Ht2 ltac:(congruence)) as (s2 & Hs2 & E2).
  exists (fst kap), (snd kap), (fst rho), (snd rho).
  repeat (split; [assumption|]). split; [|assumption].
  rewrite <- E1, <- E2.
  rewrite orthb_relabel_r, orthb_relabel_l; try assumption.
  - apply (canon_list_trit _ Hq').
  - apply (canon_list_trit _ Hq).
Qed.

(** *** Counting *)

Lemma atleast_count {A} (f : A -> Pmap unit) (g : A -> list positive) l n :
  atleast n (map f l) (map g l) = true ->
  n <= length (List.filter (fun p => success (f p) (g p)) l).
Proof.
  revert n. induction l as [|x l IH]; intros [|n]; cbn [atleast map List.filter];
    try discriminate; try lia.
  destruct (success (f x) (g x)); intros H; apply IH in H; simpl; lia.
Qed.

Lemma family_majority c r :
  In c canon_list -> In r canon_list -> 8 <= length (List.filter (half_ok c r) family).
Proof.
  intros Hc Hr. pose proof table_check_true as H. unfold table_check in H.
  cbv zeta in H. rewrite forallb_forall in H.
  specialize (H _ (in_map (Ns_of nbmap) _ _ Hc)). rewrite forallb_forall in H.
  specialize (H _ (in_map Rs_of _ _ Hr)).
  unfold Ns_of, Rs_of in H. apply atleast_count in H. exact H.
Qed.

Lemma two_majorities {A} (f g : A -> bool) l :
  length l < length (List.filter f l) + length (List.filter g l) ->
  exists x, In x l /\ f x = true /\ g x = true.
Proof.
  induction l as [|x l IH]; cbn [List.filter length]; [lia|].
  destruct (f x) eqn:Hf, (g x) eqn:Hg; cbn [length]; intros H;
    try (destruct IH as (y & Hy & H1 & H2); [lia|]; exists y; simpl; tauto).
  exists x. simpl. tauto.
Qed.

Lemma family_mirror_perm : Permutation family (map mirror family).
Proof.
  apply NoDup_Permutation_bis.
  - apply NoDup_ListNoDup. apply (bool_decide_unpack _). vm_compute. exact I.
  - rewrite length_map. lia.
  - intros x Hx. apply list_elem_of_In. apply list_elem_of_In in Hx. revert x Hx.
    apply Forall_forall. apply (bool_decide_unpack _). vm_compute. exact I.
Qed.

Definition balanced9 (f : list nat) : Prop :=
  trit_list f /\ length f = 9 /\ balancedb f = true.

(** Whatever the last two diagonal boxes are, the six other boxes can be
    laid out. *)
Lemma layout_exists rb cb rc cc :
  balanced9 rb -> balanced9 cb -> balanced9 rc -> balanced9 cc ->
  exists y, layout_ok rb cb rc cc y = true.
Proof.
  intros (Trb & Lrb & Brb) (Tcb & Lcb & Bcb) (Trc & Lrc & Brc) (Tcc & Lcc & Bcc).
  pose proof (canon_in_list rb Trb Lrb Brb) as Irb.
  pose proof (canon_in_list cb Tcb Lcb Bcb) as Icb.
  pose proof (canon_in_list rc Trc Lrc Brc) as Irc.
  pose proof (canon_in_list cc Tcc Lcc Bcc) as Icc.
  destruct (two_majorities (half_ok (canon cb) (canon rc))
             (fun p => half_ok (canon cc) (canon rb) (mirror p)) family) as (p & Hp & H1 & H2).
  { pose proof (family_majority _ _ Icb Irc) as M1.
    pose proof (family_majority _ _ Icc Irb) as M2.
    rewrite (Permutation_filter_length _ _ _ family_mirror_perm) in M2.
    rewrite filter_map_length in M2. change (length family) with 14. lia. }
  pose proof family_mirror_ok as Hm. rewrite forallb_forall in Hm.
  specialize (Hm p Hp). apply andb_true_iff in Hm as [Hm1 Hm2].
  destruct (d3b_trit _ _ _ Hm1) as (_ & _ & _ & Lu & Lu').
  destruct (d3b_trit _ _ _ Hm2) as (_ & _ & _ & Lw' & Lw).
  change (length ra) with 9 in Lu, Lu'. change (length ca) with 9 in Lw, Lw'.
  destruct (canon_list_trit _ Icb) as [? ?]. destruct (canon_list_trit _ Irc) as [? ?].
  destruct (canon_list_trit _ Icc) as [? ?]. destruct (canon_list_trit _ Irb) as [? ?].
  apply half_ok_sound in H1; try assumption.
  apply half_ok_sound in H2; try assumption.
  destruct (canon_relabel cb Tcb Lcb) as (s1 & Hs1 & E1).
  destruct (canon_relabel rc Trc Lrc) as (s2 & Hs2 & E2).
  destruct (canon_relabel cc Tcc Lcc) as (s3 & Hs3 & E3).
  destruct (canon_relabel rb Trb Lrb) as (s4 & Hs4 & E4).
  apply (extends_half_relabel s1 s2 _ _ _ _ Hs1 Hs2) in H1. rewrite E1, E2 in H1.
  apply (extends_half_relabel s3 s4 _ _ _ _ Hs3 Hs4) in H2. rewrite E3, E4 in H2.
  destruct H1 as (k01 & k21 & p20 & p21 & A1 & A2 & A3 & A4 & A5).
  destruct H2 as (k02 & k12 & p10 & p12 & B1 & B2 & B3 & B4 & B5).
  exists (Layout (fst p) (fst (mirror p)) p10 p12 p20 p21
                 k01 k02 (snd (mirror p)) k12 (snd p) k21).
  unfold layout_ok. cbn [r01 r02 r10 r12 r20 r21 c01 c02 c10 c12 c20 c21].
  rewrite Hm1, B2, A2, Hm2, A1, B1, A3, B3, A4, B4, A5, B5. reflexivity.
Qed.

(** ** From a layout to a grid *)

Lemma nth_map_seq {A} (g : nat -> A) n x d : x < n -> nth x (map g (seq 0 n)) d = g x.
Proof.
  intros Hx. rewrite (nth_indep _ d (g 0)) by (rewrite length_map, length_seq; assumption).
  rewrite (map_nth g (seq 0 n) 0 x), seq_nth by assumption. reflexivity.
Qed.

Lemma occurs_nth f g x :
  x < length f -> x < length g -> occurs (nth x f 0) (nth x g 0) f g = true.
Proof.
  revert g x. induction f as [|a f IH]; intros [|b g] [|x] Hf Hg; simpl in *; try lia.
  - rewrite !Nat.eqb_refl. reflexivity.
  - rewrite IH by lia. apply orb_true_r.
Qed.

Lemma orthb_lt f g x y :
  orthb f g = true -> x < y -> y < length f -> y < length g ->
  nth x f 0 = nth y f 0 -> nth x g 0 = nth y g 0 -> False.
Proof.
  revert g x y. induction f as [|a f IH]; intros [|b g] x y Ho Hxy Hf Hg E1 E2;
    simpl in Hf, Hg; try lia.
  cbn [orthb] in Ho. apply andb_true_iff in Ho as [Hocc Ho].
  destruct y as [|y]; [lia|]. destruct x as [|x].
  - cbn [nth] in E1, E2. rewrite E1, E2, occurs_nth in Hocc by lia. discriminate.
  - cbn [nth] in E1, E2. apply (IH g x y Ho); lia || assumption.
Qed.

(** No two of the nine digits share a cell of the box. *)
Definition inj2 (rho kappa : list nat) : Prop :=
  forall x y, x < 9 -> y < 9 ->
    nth x rho 0 = nth y rho 0 -> nth x kappa 0 = nth y kappa 0 -> x = y.

Lemma orthb_inj2 f g :
  orthb f g = true -> length f = 9 -> length g = 9 -> inj2 f g.
Proof.
  intros Ho Lf Lg x y Hx Hy E1 E2.
  destruct (lt_eq_lt_dec x y) as [[Hlt| ->]|Hlt]; [exfalso|reflexivity|exfalso].
  - apply (orthb_lt f g x y Ho); lia || assumption.
  - apply (orthb_lt f g y x Ho); lia || (symmetry; assumption).
Qed.

Lemma inj2_sym f g : inj2 f g -> inj2 g f.
Proof. intros H x y Hx Hy E1 E2. apply H; assumption. Qed.

Lemma d3b_nth c k t x :
  d3b c k t = true -> x < length c ->
  nth x c 0 <> nth x k 0 /\ nth x c 0 <> nth x t 0 /\ nth x k 0 <> nth x t 0.
Proof.
  revert k t x. induction c as [|v c IH]; intros [|a k] [|b t] x H Hx;
    cbn [d3b] in H; try discriminate; simpl in Hx; [lia|].
  apply andb_true_iff in H as [Hp H]. destruct x as [|x]; cbn [nth].
  - apply d3p_cases in Hp. simpl in Hp.
    repeat (destruct Hp as [Hp|Hp]; [injection Hp as <- <- <-; lia|]). destruct Hp.
  - apply IH; [assumption|lia].
Qed.

Lemma trit_nth f x : trit_list f -> x < length f -> nth x f 0 < 3.
Proof.
  intros Hf Hx. unfold trit_list in Hf. rewrite List.Forall_forall in Hf.
  apply Hf. apply nth_In. assumption.
Qed.

(** Nine digits in nine different cells fill the box. *)
Lemma inj2_onto rho kappa :
  length rho = 9 -> length kappa = 9 -> trit_list rho -> trit_list kappa ->
  inj2 rho kappa ->
  forall a b, a < 3 -> b < 3 -> exists x, x < 9 /\ nth x rho 0 = a /\ nth x kappa 0 = b.
Proof.
  intros Lr Lk Tr Tk Hinj a b Ha Hb.
  set (code := fun x => 3 * nth x rho 0 + nth x kappa 0).
  assert (forall x, x < 9 -> nth x rho 0 < 3 /\ nth x kappa 0 < 3) as Hlt.
  { intros x Hx. split; apply trit_nth; assumption || lia. }
  assert (List.NoDup (map code (seq 0 9))) as Hnd.
  { apply NoDup_map_NoDup_ForallPairs; [|apply List.seq_NoDup].
    intros x y Hx Hy E. apply in_seq in Hx, Hy. unfold code in E.
    destruct (Hlt x ltac:(lia)), (Hlt y ltac:(lia)). apply Hinj; lia. }
  assert (incl (map code (seq 0 9)) (seq 0 9)) as Hincl.
  { intros m Hm. apply in_map_iff in Hm as (x & <- & Hx). apply in_seq in Hx.
    destruct (Hlt x ltac:(lia)). apply in_seq. unfold code. lia. }
  assert (In (3 * a + b) (map code (seq 0 9))) as Hin.
  { apply (NoDup_length_incl (l := map code (seq 0 9)) (l' := seq 0 9) Hnd);
      [rewrite length_map; lia|assumption|apply in_seq; lia]. }
  apply in_map_iff in Hin as (x & E & Hx). apply in_seq in Hx. exists x.
  destruct (Hlt x ltac:(lia)). unfold code in E. lia.
Qed.

(** First position of [d] in [l]. *)
Fixpoint index_of (d : Z) (l : list Z) : nat :=
  match l with
  | [] => 0
  | v :: l' => if (v =? d)%Z then 0 else S (index_of d l')
  end.

Lemma index_of_In d l :
  In d l -> index_of d l < length l /\ nth (index_of d l) l 0%Z = d.
Proof.
  induction l as [|a l IH]; simpl; [tauto|]. intros H.
  destruct (Z.eqb_spec a d) as [->|Hne]; [split; [lia|reflexivity]|].
  destruct H as [E|H]; [contradiction|]. destruct (IH H). split; [lia|assumption].
Qed.

(** The digits of the diagonal box [k], row by row. *)
Definition diag_box (b : board) (k : nat) : list Z := unit_values b (box_cells (4 * k)).

(** The nine digits are named by their cell in the first diagonal box. *)
Definition digit (b : board) (x : nat) : Z := nth x (diag_box b 0) 0%Z.

(** The cell (0..8, row-major) of digit [x] in the diagonal box [k]. *)
Definition place (b : board) (k x : nat) : nat := index_of (digit b x) (diag_box b k).

Definition rows_in (b : board) (k : nat) : list nat :=
  map (fun x => place b k x / 3) (seq 0 9).
Definition cols_in (b : board) (k : nat) : list nat :=
  map (fun x => place b k x mod 3) (seq 0 9).

(** Local rows and columns of the digits in box (I, J). *)
Definition box_rows (b : board) (y : layout) (I J : nat) : list nat :=
  match I, J with
  | 0, 1 => r01 y | 0, 2 => r02 y
  | 1, 0 => r10 y | 1, 2 => r12 y
  | 2, 0 => r20 y | 2, 1 => r21 y
  | _, _ => rows_in b I
  end.

Definition box_cols (b : board) (y : layout) (I J : nat) : list nat :=
  match I, J with
  | 0, 1 => c01 y | 0, 2 => c02 y
  | 1, 0 => c10 y | 1, 2 => c12 y
  | 2, 0 => c20 y | 2, 1 => c21 y
  | _, _ => cols_in b I
  end.

(** The digit the layout puts into cell (i, j). *)
Definition fill_value (b : board) (y : layout) (i j : nat) : Z :=
  match List.find (fun x => (nth x (box_rows b y (i / 3) (j / 3)) 0 =? i mod 3)
                            && (nth x (box_cols b y (i / 3) (j / 3)) 0 =? j mod 3))
                  (seq 0 9) with
  | Some x => digit b x
  | None => 0%Z
  end.

Definition filled (b : board) (y : layout) : board :=
  map (fun i => map (fun j => fill_value b y i j) (seq 0 9)) (seq 0 9).

Section Seeded.
Variable b : board.
Hypothesis Hseed : seeded b.

Lemma diag_box_perm k : k < 3 -> Permutation (diag_box b k) fresh_nums.
Proof. intros Hk. apply (proj1 (proj2 Hseed) k Hk). Qed.

Lemma diag_box_length k : k < 3 -> length (diag_box b k) = 9.
Proof. intros Hk. rewrite (Permutation_length (diag_box_perm k Hk)). reflexivity. Qed.

Lemma diag_box_NoDup k : k < 3 -> List.NoDup (diag_box b k).
Proof.
  intros Hk. eapply Permutation_NoDup; [symmetry; apply diag_box_perm; assumption|].
  apply NoDup_fresh_nums.
Qed.

Lemma digit_fresh x : x < 9 -> In (digit b x) fresh_nums.
Proof.
  intros Hx. apply (Permutation_in _ (diag_box_perm 0 ltac:(lia))).
  apply nth_In. rewrite diag_box_length; lia.
Qed.

Lemma digit_inj x x' : x < 9 -> x' < 9 -> digit b x = digit b x' -> x = x'.
Proof.
  intros Hx Hx' E.
  apply (proj1 (NoDup_nth (diag_box b 0) 0%Z) (diag_box_NoDup 0 ltac:(lia)));
    rewrite ?diag_box_length; lia || assumption.
Qed.

Lemma place_spec k x :
  k < 3 -> x < 9 -> place b k x < 9 /\ nth (place b k x) (diag_box b k) 0%Z = digit b x.
Proof.
  intros Hk Hx. rewrite <- (diag_box_length k Hk) at 1. apply index_of_In.
  apply (Permutation_in _ (Permutation_sym (diag_box_perm k Hk))). apply digit_fresh, Hx.
Qed.

Lemma place_inj k x x' :
  k < 3 -> x < 9 -> x' < 9 -> place b k x = place b k x' -> x = x'.
Proof.
  intros Hk Hx Hx' E. apply digit_inj; try assumption.
  rewrite <- (proj2 (place_spec k x Hk Hx)), <- (proj2 (place_spec k x' Hk Hx')), E.
  reflexivity.
Qed.

Lemma places_perm k : k < 3 -> Permutation (map (place b k) (seq 0 9)) (seq 0 9).
Proof.
  intros Hk. apply NoDup_Permutation_bis.
  - apply NoDup_map_NoDup_ForallPairs; [|apply List.seq_NoDup].
    intros x x' Hx Hx' E. apply in_seq in Hx, Hx'. apply (place_inj k); lia || assumption.
  - rewrite length_map. lia.
  - intros m Hm. apply in_map_iff in Hm as (x & <- & Hx). apply in_seq in Hx.
    apply in_seq. destruct (place_spec k x Hk ltac:(lia)). lia.
Qed.

Lemma count_perm v l l' : Permutation l l' -> count v l = count v l'.
Proof.
  unfold count. induction 1 as [|a l l' _ IH|a a' l|l l' l'' _ IH1 _ IH2];
    cbn [List.filter].
  - reflexivity.
  - destruct (v =? a); simpl; lia.
  - destruct (v =? a), (v =? a'); reflexivity.
  - lia.
Qed.

Lemma rows_in_balanced k : k < 3 -> balanced9 (rows_in b k).
Proof.
  intros Hk. split; [|split].
  - apply List.Forall_forall. intros m Hm. apply in_map_iff in Hm as (x & <- & Hx).
    apply in_seq in Hx. destruct (place_spec k x Hk ltac:(lia)) as [Hp _].
    apply Nat.Div0.div_lt_upper_bound. lia.
  - unfold rows_in. rewrite length_map. reflexivity.
  - unfold balancedb, rows_in. rewrite <- (map_map (place b k) (fun m => m / 3)).
    rewrite !(count_perm _ _ _ (Permutation_map _ (places_perm k Hk))). reflexivity.
Qed.

Lemma cols_in_balanced k : k < 3 -> balanced9 (cols_in b k).
Proof.
  intros Hk. split; [|split].
  - apply List.Forall_forall. intros m Hm. apply in_map_iff in Hm as (x & <- & Hx).
    apply Nat.mod_upper_bound. discriminate.
  - unfold cols_in. rewrite length_map. reflexivity.
  - unfold balancedb, cols_in. rewrite <- (map_map (place b k) (fun m => m mod 3)).
    rewrite !(count_perm _ _ _ (Permutation_map _ (places_perm k Hk))). reflexivity.
Qed.

Lemma rows_in_nth k x : x < 9 -> nth x (rows_in b k) 0 = place b k x / 3.
Proof. intros Hx. apply (nth_map_seq (fun x => place b k x / 3)). assumption. Qed.

Lemma cols_in_nth k x : x < 9 -> nth x (cols_in b k) 0 = place b k x mod 3.
Proof. intros Hx. apply (nth_map_seq (fun x => place b k x mod 3)). assumption. Qed.

Lemma place_from_box k x :
  x < 9 -> place b k x = 3 * nth x (rows_in b k) 0 + nth x (cols_in b k) 0.
Proof.
  intros Hx. rewrite rows_in_nth, cols_in_nth by assumption. apply Nat.div_mod_eq.
Qed.

Lemma in_inj2 k : k < 3 -> inj2 (rows_in b k) (cols_in b k).
Proof.
  intros Hk x x' Hx Hx' E1 E2. apply (place_inj k); try assumption.
  rewrite !place_from_box by assumption. lia.
Qed.

Lemma place_first x : x < 9 -> place b 0 x = x.
Proof.
  intros Hx. unfold place, digit. 
  assert (forall l x, List.NoDup l -> x < length l -> index_of (nth x l 0%Z) l = x) as Hidx.
  { clear. induction l as [|a l IH]; intros x Hnd Hx; simpl in *; [lia|].
    apply NoDup_cons_iff in Hnd as [Hn Hnd]. destruct x as [|x].
    - rewrite Z.eqb_refl. reflexivity.
    - destruct (Z.eqb_spec a (nth x l 0%Z)) as [E|_].
      + exfalso. apply Hn. rewrite E. apply nth_In. lia.
      + f_equal. apply IH; [assumption|lia]. }
  apply Hidx; [apply diag_box_NoDup; lia|rewrite diag_box_length; lia].
Qed.

Lemma rows_in_first : rows_in b 0 = ra.
Proof.
  unfold rows_in. rewrite (map_ext_in _ (fun x => x / 3)); [reflexivity|].
  intros x Hx. apply in_seq in Hx. rewrite place_first by lia. reflexivity.
Qed.

Lemma cols_in_first : cols_in b 0 = ca.
Proof.
  unfold cols_in. rewrite (map_ext_in _ (fun x => x mod 3)); [reflexivity|].
  intros x Hx. apply in_seq in Hx. rewrite place_first by lia. reflexivity.
Qed.
End Seeded.

Ltac cases3 H :=
  match type of H with
  | ?a < 3 => assert (a = 0 \/ a = 1 \/ a = 2) as [->|[->| ->]] by lia
  end.

Ltac cases9 H :=
  match type of H with
  | ?a < 9 =>
      assert (a = 0 \/ a = 1 \/ a = 2 \/ a = 3 \/ a = 4 \/ a = 5 \/ a = 6 \/ a = 7 \/ a = 8)
        as [->|[->|[->|[->|[->|[->|[->|[->| ->]]]]]]]] by lia
  end.

Section Layout.
Variable b : board.
Hypothesis Hseed : seeded b.
Variable y : layout.
Hypothesis Hy : layout_ok (rows_in b 1) (cols_in b 1) (rows_in b 2) (cols_in b 2) y = true.

Lemma layout_facts :
  (d3b (rows_in b 0) (r01 y) (r02 y) = true /\ d3b (rows_in b 1) (r10 y) (r12 y) = true /\
   d3b (rows_in b 2) (r20 y) (r21 y) = true) /\
  (d3b (cols_in b 0) (c10 y) (c20 y) = true /\ d3b (cols_in b 1) (c01 y) (c21 y) = true /\
   d3b (cols_in b 2) (c02 y) (c12 y) = true) /\
  (orthb (r01 y) (c01 y) = true /\ orthb (r02 y) (c02 y) = true /\
   orthb (r21 y) (c21 y) = true /\ orthb (r12 y) (c12 y) = true /\
   orthb (c20 y) (r20 y) = true /\ orthb (c10 y) (r10 y) = true).
Proof.
  rewrite (rows_in_first b Hseed), (cols_in_first b Hseed).
  unfold layout_ok in Hy. rewrite !andb_true_iff in Hy. tauto.
Qed.

Lemma off_box c k t :
  d3b c k t = true -> length c = 9 ->
  (length k = 9 /\ trit_list k) /\ (length t = 9 /\ trit_list t).
Proof.
  intros H Hc. destruct (d3b_trit _ _ _ H) as (_ & Tk & Tt & Lk & Lt).
  repeat split; congruence || assumption.
Qed.

Lemma box_facts I J :
  I < 3 -> J < 3 ->
  length (box_rows b y I J) = 9 /\ length (box_cols b y I J) = 9 /\
  trit_list (box_rows b y I J) /\ trit_list (box_cols b y I J) /\
  inj2 (box_rows b y I J) (box_cols b y I J).
Proof.
  intros HI HJ.
  destruct layout_facts as ((R0 & R1 & R2) & (C0 & C1 & C2) & (O1 & O2 & O3 & O4 & O5 & O6)).
  assert (forall k, k < 3 ->
            length (rows_in b k) = 9 /\ length (cols_in b k) = 9 /\
            trit_list (rows_in b k) /\ trit_list (cols_in b k) /\
            inj2 (rows_in b k) (cols_in b k)) as Hdiag.
  { intros k Hk. destruct (rows_in_balanced b Hseed k Hk) as (? & ? & _).
    destruct (cols_in_balanced b Hseed k Hk) as (? & ? & _).
    repeat (split; [assumption|]). apply (in_inj2 b Hseed k Hk). }
  destruct (Hdiag 0 ltac:(lia)) as (Lr0 & Lc0 & _).
  destruct (Hdiag 1 ltac:(lia)) as (Lr1 & Lc1 & _).
  destruct (Hdiag 2 ltac:(lia)) as (Lr2 & Lc2 & _).
  destruct (off_box _ _ _ R0 Lr0) as ((L01 & T01) & (L02 & T02)).
  destruct (off_box _ _ _ R1 Lr1) as ((L10 & T10) & (L12 & T12)).
  destruct (off_box _ _ _ R2 Lr2) as ((L20 & T20) & (L21 & T21)).
  destruct (off_box _ _ _ C0 Lc0) as ((K10 & U10) & (K20 & U20)).
  destruct (off_box _ _ _ C1 Lc1) as ((K01 & U01) & (K21 & U21)).
  destruct (off_box _ _ _ C2 Lc2) as ((K02 & U02) & (K12 & U12)).
  cases3 HI; cases3 HJ; cbn [box_rows box_cols].
  - apply Hdiag. lia.
  - repeat (split; [assumption|]). apply orthb_inj2; assumption.
  - repeat (split; [assumption|]). apply orthb_inj2; assumption.
  - repeat (split; [assumption|]). apply inj2_sym, orthb_inj2; assumption.
  - apply Hdiag. lia.
  - repeat (split; [assumption|]). apply orthb_inj2; assumption.
  - repeat (split; [assumption|]). apply inj2_sym, orthb_inj2; assumption.
  - repeat (split; [assumption|]). apply orthb_inj2; assumption.
  - apply Hdiag. lia.
Qed.

Lemma band_distinct I J J' x :
  I < 3 -> J < 3 -> J' < 3 -> J <> J' -> x < 9 ->
  nth x (box_rows b y I J) 0 <> nth x (box_rows b y I J') 0.
Proof.
  intros HI HJ HJ' Hne Hx.
  destruct layout_facts as ((R0 & R1 & R2) & _ & _).
  pose proof (proj1 (proj2 (rows_in_balanced b Hseed 0 ltac:(lia)))) as L0.
  pose proof (proj1 (proj2 (rows_in_balanced b Hseed 1 ltac:(lia)))) as L1.
  pose proof (proj1 (proj2 (rows_in_balanced b Hseed 2 ltac:(lia)))) as L2.
  pose proof (d3b_nth _ _ _ x R0 ltac:(lia)) as (? & ? & ?).
  pose proof (d3b_nth _ _ _ x R1 ltac:(lia)) as (? & ? & ?).
  pose proof (d3b_nth _ _ _ x R2 ltac:(lia)) as (? & ? & ?).
  cases3 HI; cases3 HJ; cases3 HJ'; cbn [box_rows]; lia.
Qed.

Lemma stack_distinct I I' J x :
  I < 3 -> I' < 3 -> J < 3 -> I <> I' -> x < 9 ->
  nth x (box_cols b y I J) 0 <> nth x (box_cols b y I' J) 0.
Proof.
  intros HI HI' HJ Hne Hx.
  destruct layout_facts as (_ & (C0 & C1 & C2) & _).
  pose proof (proj1 (proj2 (cols_in_balanced b Hseed 0 ltac:(lia)))) as L0.
  pose proof (proj1 (proj2 (cols_in_balanced b Hseed 1 ltac:(lia)))) as L1.
  pose proof (proj1 (proj2 (cols_in_balanced b Hseed 2 ltac:(lia)))) as L2.
  pose proof (d3b_nth _ _ _ x C0 ltac:(lia)) as (? & ? & ?).
  pose proof (d3b_nth _ _ _ x C1 ltac:(lia)) as (? & ? & ?).
  pose proof (d3b_nth _ _ _ x C2 ltac:(lia)) as (? & ? & ?).
  cases3 HI; cases3 HI'; cases3 HJ; cbn [box_cols]; lia.
Qed.

Lemma cell_filled i j : in_grid i j -> cell (filled b y) i j = fill_value b y i j.
Proof. intros [Hi Hj]. cases9 Hi; cases9 Hj; reflexivity. Qed.

Lemma fill_value_spec i j :
  in_grid i j ->
  exists x, x < 9 /\ fill_value b y i j = digit b x /\
            nth x (box_rows b y (i / 3) (j / 3)) 0 = i mod 3 /\
            nth x (box_cols b y (i / 3) (j / 3)) 0 = j mod 3.
Proof.
  intros [Hi Hj].
  assert (i / 3 < 3) as HI by (apply Nat.Div0.div_lt_upper_bound; lia).
  assert (j / 3 < 3) as HJ by (apply Nat.Div0.div_lt_upper_bound; lia).
  destruct (box_facts (i / 3) (j / 3) HI HJ) as (Lr & Lc & Tr & Tc & Hinj).
  destruct (inj2_onto _ _ Lr Lc Tr Tc Hinj (i mod 3) (j mod 3)) as (x0 & Hx0 & E1 & E2);
    [apply Nat.mod_upper_bound; discriminate..|].
  unfold fill_value.
  destruct (List.find _ (seq 0 9)) as [x|] eqn:Hfind.
  - apply find_some in Hfind as [Hx Hp]. apply in_seq in Hx.
    apply andb_true_iff in Hp as [P1 P2]. apply Nat.eqb_eq in P1, P2.
    exists x. split; [lia|]. split; [reflexivity|]. split; assumption.
  - exfalso. pose proof (find_none _ _ Hfind x0 ltac:(apply in_seq; lia)) as Hp.
    cbv beta in Hp. rewrite E1, E2, !Nat.eqb_refl in Hp. discriminate.
Qed.

Lemma fill_value_diagonal i j :
  in_grid i j -> i / 3 = j / 3 -> fill_value b y i j = cell b i j.
Proof.
  intros Hij Hd. destruct (fill_value_spec i j Hij) as (x & Hx & -> & E1 & E2).
  destruct Hij as [Hi Hj].
  assert (i / 3 < 3) as HI by (apply Nat.Div0.div_lt_upper_bound; lia).
  rewrite <- Hd in E1, E2.
  assert (box_rows b y (i / 3) (i / 3) = rows_in b (i / 3)) as Er
    by (cases3 HI; reflexivity).
  assert (box_cols b y (i / 3) (i / 3) = cols_in b (i / 3)) as Ec
    by (cases3 HI; reflexivity).
  rewrite Er in E1. rewrite Ec in E2.
  destruct (place_spec b Hseed (i / 3) x HI Hx) as [_ <-].
  rewrite (place_from_box b (i / 3) x Hx), E1, E2.
  clear - Hi Hj Hd.
  cases9 Hi; cases9 Hj; try (exfalso; vm_compute in Hd; discriminate); reflexivity.
Qed.

Lemma filled_completes : completes b (filled b y).
Proof.
  split.
  - apply solved_iff. split; [apply wfb_wf; reflexivity|]. split.
    + intros i j Hij. rewrite cell_filled by assumption.
      destruct (fill_value_spec i j Hij) as (x & Hx & -> & _).
      apply in_fresh_nums, (digit_fresh b Hseed), Hx.
    + intros i j i' j' Hij Hij' Hsc Hne _ Heq.
      rewrite !cell_filled in Heq by assumption.
      destruct (fill_value_spec i j Hij) as (x & Hx & Ev & E1 & E2).
      destruct (fill_value_spec i' j' Hij') as (x' & Hx' & Ev' & E1' & E2').
      rewrite Ev, Ev' in Heq. apply (digit_inj b Hseed) in Heq; [|assumption..]. subst x'.
      destruct Hij as [Hi Hj], Hij' as [Hi' Hj'].
      assert (i / 3 < 3) as HI by (apply Nat.Div0.div_lt_upper_bound; lia).
      assert (j / 3 < 3) as HJ by (apply Nat.Div0.div_lt_upper_bound; lia).
      assert (i' / 3 < 3) as HI' by (apply Nat.Div0.div_lt_upper_bound; lia).
      assert (j' / 3 < 3) as HJ' by (apply Nat.Div0.div_lt_upper_bound; lia).
      pose proof (Nat.div_mod_eq i 3). pose proof (Nat.div_mod_eq j 3).
      pose proof (Nat.div_mod_eq i' 3). pose proof (Nat.div_mod_eq j' 3).
      assert (i' / 3 = i / 3 -> j' / 3 = j / 3 -> False) as Hbox.
      { intros EI EJ. rewrite EI, EJ in E1', E2'. apply Hne. f_equal; lia. }
      destruct Hsc as [->|[->|[EI EJ]]].
      * destruct (Nat.eq_dec (j' / 3) (j / 3)) as [EJ|NJ]; [apply Hbox; [reflexivity|assumption]|].
        apply (band_distinct (i / 3) (j / 3) (j' / 3) x); try assumption; [lia|]. lia.
      * destruct (Nat.eq_dec (i' / 3) (i / 3)) as [EI|NI]; [apply Hbox; [assumption|reflexivity]|].
        apply (stack_distinct (i / 3) (i' / 3) (j / 3) x); try assumption; [lia|]. lia.
      * apply Hbox; assumption.
  - intros i j Hij Hnz. rewrite cell_filled by assumption.
    apply fill_value_diagonal; [assumption|].
    destruct (Nat.eq_dec (i / 3) (j / 3)) as [E|N]; [assumption|].
    exfalso. apply Hnz. apply (proj2 (proj2 Hseed)). assumption.
Qed.
End Layout.

(** Every seed of the diagonal boxes has a completion. *)
Lemma seeded_completes b : seeded b -> exists s, completes b s.
Proof.
  intros Hseed.
  destruct (layout_exists (rows_in b 1) (cols_in b 1) (rows_in b 2) (cols_in b 2))
    as [y Hy]; try (apply rows_in_balanced || apply cols_in_balanced); try assumption; try lia.
  exists (filled b y). apply filled_completes; assumption.
Qed.

(** * The claims *)

(** C10. For row, col in [0,8] and any integer value, [insert_value] stores
    the value without any validity or range check, a following [get_value]
    returns exactly that value, and every other cell is unchanged. *)
Theorem insert_value_then_get_value b ds row col (value : Z) :
  wf b -> in_grid row col ->
  exists b',
    insert_value row col value (State b ds) = Return tt (State b' ds) /\
    get_value row col (State b' ds) = Return value (State b' ds) /\
    forall i j, (i, j) <> (row, col) -> cell b' i j = cell b i j.
Proof.
  intros Hwf Hg. exists (put b row col value).
  split; [apply (board_set_run (State b ds)); assumption|]. split.
  - unfold get_value.
    rewrite (board_get_run (State (put b row col value) ds)) by
      (try apply wf_put; assumption).
    cbn [_board]. rewrite cell_put_eq by assumption. reflexivity.
  - intros i j Hne. apply cell_put_ne. assumption.
Qed.

Lemma insert_value_then_get_value_witness :
  exists b',
    insert_value 4 7 (-12) (State stuck_board []) = Return tt (State b' []) /\
    get_value 4 7 (State b' []) = Return (-12)%Z (State b' []) /\
    forall i j, (i, j) <> (4, 7) -> cell b' i j = cell stuck_board i j.
Proof.
  apply (insert_value_then_get_value stuck_board [] 4 7 (-12)).
  - apply wfb_wf. reflexivity.
  - split; lia.
Defined.

(** C1 (as stated, refuted). On the grid whose only placed cell is a 5 at
    (0, 0), the check of 5 at (0, 0) returns false although no other cell
    holds 5: the candidate cell is not excluded from the scan. *)
Lemma is_num_valid_scans_candidate_cell :
  _is_num_valid 0 0 5 (State lone_five []) = Return false (State lone_five []) /\
  forall i j, in_grid i j -> (i, j) <> (0, 0) -> cell lone_five i j <> 5%Z.
Proof.
  split; [vm_compute; reflexivity|].
  intros i j _ Hne. unfold lone_five.
  rewrite cell_put_ne by assumption. rewrite cell_zero_board. discriminate.
Qed.

(** C1 (amended). For every 9x9 grid, row, col in [0,8] and value,
    [_is_num_valid] returns false iff the value appears in that row, column
    or box at any cell, the candidate cell included; when the candidate cell
    does not hold the value this is the same as an occurrence at a different
    cell. *)
Theorem is_num_valid_spec b ds row col (num : Z) :
  wf b -> in_grid row col ->
  exists r,
    _is_num_valid row col num (State b ds) = Return r (State b ds) /\
    (r = false <->
     exists i j, in_grid i j /\ scanned row col i j /\ cell b i j = num) /\
    (cell b row col <> num ->
     (r = false <->
      exists i j, in_grid i j /\ scanned row col i j /\ (i, j) <> (row, col) /\
                  cell b i j = num)).
Proof.
  intros Hwf Hg. exists (valid_at b row col num).
  split; [apply (is_num_valid_run (State b ds)); assumption|].
  pose proof (valid_at_false_iff b row col num Hwf Hg) as Hiff.
  split; [assumption|]. intros Hself. rewrite Hiff. split.
  - intros (i & j & Hij & Hs & Hc). exists i, j.
    split; [assumption|]. split; [assumption|]. split; [|assumption].
    intros E. injection E as -> ->. contradiction.
  - intros (i & j & Hij & Hs & _ & Hc). exists i, j. auto.
Qed.

Lemma is_num_valid_spec_witness :
  exists r,
    _is_num_valid 0 8 9 (State stuck_board []) = Return r (State stuck_board []) /\
    (r = false <->
     exists i j, in_grid i j /\ scanned 0 8 i j /\ cell stuck_board i j = 9%Z) /\
    (cell stuck_board 0 8 <> 9%Z ->
     (r = false <->
      exists i j, in_grid i j /\ scanned 0 8 i j /\ (i, j) <> (0, 8) /\
                  cell stuck_board i j = 9%Z)).
Proof.
  apply (is_num_valid_spec stuck_board [] 0 8 9).
  - apply wfb_wf. reflexivity.
  - split; lia.
Defined.




Lemma generate_board_unfold i j :
  _generate_board i j = _generate_board_rec recursion_limit i j.
Proof. reflexivity. Qed.

(** C3 (as stated, refuted). [generate(4)] on a fresh engine raises KeyError
    only after the seeder and the filler have run: the board it leaves
    behind is no longer the all-zero board. *)
Lemma generate_bad_level_mutates_board :
  exists b', generate 4 (init seed_draws) = Raise KeyError (State b' [])
             /\ b' <> zero_board.
Proof.
  eexists. split; [vm_compute; reflexivity|]. discriminate.
Qed.

(** C3 (amended). For every integer level outside {0,1,2,3}, [generate]
    fails with KeyError and never falls back to a configured level; the
    error is raised by the remover, after the seeder and the filler have
    run, and the grid is left as those two stages made it. *)
Theorem generate_unknown_level (level : Z) b ds :
  level <> 0%Z -> level <> 1%Z -> level <> 2%Z -> level <> 3%Z ->
  wf b -> 27 <= length ds ->
  exists r b',
    (_generate_diagonals ;;; _generate_board 0 0) (State b ds)
      = Return r (State b' (skipn 27 ds)) /\
    generate level (State b ds) = Raise KeyError (State b' (skipn 27 ds)).
Proof.
  intros H0 H1 H2 H3 Hwf Hlen.
  destruct (generate_diagonals_ok b ds Hwf Hlen) as (b1 & Hseed & Hwf1 & _ & _).
  destruct (generate_board_rec_ok recursion_limit 0 0 ltac:(lia) ltac:(lia)
              ltac:(unfold recursion_limit; lia) b1 (skipn 27 ds) Hwf1)
    as (r & b2 & Hfill & _).
  { intros i j _ Hlt. unfold pos in Hlt. lia. }
  exists r, b2. unfold generate.
  rewrite !(bind_Return _ _ _ _ _ Hseed).
  rewrite generate_board_unfold. split; [exact Hfill|].
  rewrite (bind_Return _ _ _ _ _ Hfill).
  unfold _remove_random_fields, difficulty_of. rewrite difficulty_lookup.
  repeat (case_decide; [contradiction|]). reflexivity.
Qed.

Lemma generate_unknown_level_witness :
  exists r b',
    (_generate_diagonals ;;; _generate_board 0 0) (State zero_board demo_draws)
      = Return r (State b' (skipn 27 demo_draws)) /\
    generate 7 (State zero_board demo_draws) = Raise KeyError (State b' (skipn 27 demo_draws)).
Proof.
  apply (generate_unknown_level 7 zero_board demo_draws); try discriminate.
  - apply wf_zero_board.
  - vm_compute. lia.
Defined.

Lemma in_box_cells k i j :
  In (i, j) (box_cells k) <->
  (3 * (k / 3) <= i < 3 * (k / 3) + 3 /\ 3 * (k mod 3) <= j < 3 * (k mod 3) + 3).
Proof.
  unfold box_cells. rewrite in_flat_map. split.
  - intros (i' & Hi & Hp). apply in_map_iff in Hp as (j' & E & Hj).
    injection E as -> ->. apply in_seq in Hi, Hj. lia.
  - intros [Hi Hj]. exists i. split; [apply in_seq; lia|].
    apply (in_map (fun j => (i, j))). apply in_seq. lia.
Qed.

(** C7. Started on the all-zero grid, the seeder takes 27 draws and, whatever
    they are, fills each diagonal box k (rows and columns [3k, 3k+3)) with a
    permutation of 1..9, while the other 54 cells stay zero. *)
Theorem generate_diagonals_seeds_boxes ds :
  27 <= length ds ->
  exists b',
    _generate_diagonals (init ds) = Return tt (State b' (skipn 27 ds)) /\
    wf b' /\
    (forall k, k < 3 ->
       Permutation (unit_values b' (box_cells (4 * k))) fresh_nums /\
       forall i j, In (i, j) (box_cells (4 * k)) <->
                   (3 * k <= i < 3 * k + 3 /\ 3 * k <= j < 3 * k + 3)) /\
    (forall i j, i / 3 <> j / 3 -> cell b' i j = 0%Z) /\
    length (List.filter off_diagonal all_cells) = 54.
Proof.
  intros Hlen. destruct (generate_diagonals_seeded ds Hlen) as (b' & Hrun & Hwf & Hp & Hz).
  exists b'. split; [assumption|]. split; [assumption|].
  split; [|split; [assumption|reflexivity]].
  intros k Hk. split; [apply Hp; assumption|].
  intros i j. rewrite in_box_cells.
  assert (k = 0 \/ k = 1 \/ k = 2) as [->|[->| ->]] by lia; reflexivity.
Qed.

Lemma generate_diagonals_seeds_boxes_witness :
  exists b',
    _generate_diagonals (init demo_draws) = Return tt (State b' (skipn 27 demo_draws)) /\
    wf b' /\
    (forall k, k < 3 ->
       Permutation (unit_values b' (box_cells (4 * k))) fresh_nums /\
       forall i j, In (i, j) (box_cells (4 * k)) <->
                   (3 * k <= i < 3 * k + 3 /\ 3 * k <= j < 3 * k + 3)) /\
    (forall i j, i / 3 <> j / 3 -> cell b' i j = 0%Z) /\
    length (List.filter off_diagonal all_cells) = 54.
Proof.
  apply (generate_diagonals_seeds_boxes demo_draws). vm_compute. lia.
Defined.

(** C5. On a consistent 9x9 grid with entries in 0..9 the filler, started
    at (0, 0) with room for 82 frames, reports success at once when the
    cursor is past column 8 of row 8, moves past a placed cell without
    trying a candidate, and returns true iff the grid has a completion; the
    grid it then leaves is that completion which comes first in row-major
    order with ascending digits (depth-first, first success), and on failure
    every tried cell is back to zero. *)
Theorem generate_board_search b ds depth :
  wf b -> entries_in 0 9 b -> consistent b -> 82 <= depth ->
  (forall st, _generate_board_rec depth 8 9 st = Return true st) /\
  (forall i j d, in_grid i j -> cell b i j <> 0%Z ->
     _generate_board_rec (S d) i j (State b ds)
     = _generate_board_rec d i (j + 1) (State b ds)) /\
  exists r b',
    _generate_board_rec depth 0 0 (State b ds) = Return r (State b' ds) /\
    (r = true <-> exists s, completes b s) /\
    (r = true -> completes b b' /\ forall s, completes b s -> lex_le b' s) /\
    (r = false -> b' = b).
Proof.
  intros Hwf He Hc Hd. split; [|split].
  - intros st. destruct depth as [|d]; [lia|]. reflexivity.
  - intros i j d [Hi Hj] Hnz. cbn [_generate_board_rec].
    assert ((j =? 9) = false) as -> by (apply Nat.eqb_neq; lia).
    rewrite andb_false_r.
    rewrite (bind_Return _ _ _ _ _ (board_get_run (State b ds) i j Hwf (conj Hi Hj))).
    cbn [_board]. destruct (Z.eqb_spec (cell b i j) 0); [contradiction|reflexivity].
  - destruct (generate_board_rec_ok depth 0 0 ltac:(lia) ltac:(lia)
                ltac:(unfold pos; lia) b ds Hwf)
      as (r & b' & Hrun & Hfalse & Htrue).
    { intros i j _ Hlt. unfold pos in Hlt. lia. }
    exists r, b'. split; [assumption|]. split; [|split].
    + split.
      * intros Hr. exists b'. apply fills_completes; try assumption. apply Htrue, Hr.
      * intros [s Hs]. destruct r; [reflexivity|].
        exfalso. apply (proj2 (Hfalse eq_refl) s Hs).
    + intros Hr. destruct (Htrue Hr) as [Hf Hmin].
      split; [apply fills_completes|]; assumption.
    + intros Hr. apply Hfalse, Hr.
Qed.

Lemma generate_board_search_witness :
  (forall st, _generate_board_rec 82 8 9 st = Return true st) /\
  (forall i j d, in_grid i j -> cell zero_board i j <> 0%Z ->
     _generate_board_rec (S d) i j (State zero_board [])
     = _generate_board_rec d i (j + 1) (State zero_board [])) /\
  exists r b',
    _generate_board_rec 82 0 0 (State zero_board []) = Return r (State b' []) /\
    (r = true <-> exists s, completes zero_board s) /\
    (r = true -> completes zero_board b' /\
                 forall s, completes zero_board s -> lex_le b' s) /\
    (r = false -> b' = zero_board).
Proof.
  apply (generate_board_search zero_board [] 82).
  - apply wf_zero_board.
  - apply entries_zero_board.
  - apply consistent_zero_board.
  - lia.
Defined.

(** C9. Whenever the root call of the filler returns false, the grid (and
    the random source) is exactly as it was at the call. *)
Theorem generate_board_failure_restores b ds depth st' :
  wf b -> 82 <= depth ->
  _generate_board_rec depth 0 0 (State b ds) = Return false st' ->
  st' = State b ds.
Proof.
  intros Hwf Hd H.
  destruct (generate_board_rec_ok depth 0 0 ltac:(lia) ltac:(lia)
              ltac:(unfold pos; lia) b ds Hwf)
    as (r & b' & Hrun & Hfalse & _).
  { intros i j _ Hlt. unfold pos in Hlt. lia. }
  rewrite Hrun in H. assert (r = false /\ State b' ds = st') as [-> <-]
    by (split; congruence).
  destruct (Hfalse eq_refl) as [-> _]. reflexivity.
Qed.

Lemma generate_board_failure_restores_witness :
  State stuck_board [3; 1; 4] = State stuck_board [3; 1; 4].
Proof.
  apply (generate_board_failure_restores stuck_board [3; 1; 4] recursion_limit).
  - apply wfb_wf. reflexivity.
  - unfold recursion_limit. lia.
  - vm_compute. reflexivity.
Defined.

(** C8. [generate] is a function of the draws it consumes: two runs from the
    same grid that read the same prefix [p] of the random stream end with
    the same grid, whatever follows [p] in either stream. *)
Theorem generate_deterministic (level : Z) b p r1 r2 b1 b2 :
  generate level (State b (p ++ r1)) = Return tt (State b1 r1) ->
  generate level (State b (p ++ r2)) = Return tt (State b2 r2) ->
  b1 = b2.
Proof.
  intros H1 H2.
  destruct (local_generate level _ _ _ _ _ H1) as (q & Hq & Hrun).
  apply app_inv_tail in Hq. subst q.
  rewrite (Hrun r2) in H2. congruence.
Qed.

Lemma generate_deterministic_witness :
  default [] (final_board (generate 0 (State zero_board (demo_draws ++ []))))
  = default [] (final_board (generate 0 (State zero_board (demo_draws ++ [8; 8; 2])))).
Proof.
  apply (generate_deterministic 0 zero_board demo_draws [] [8; 8; 2]);
    vm_compute; reflexivity.
Defined.



(** * Further properties of the engine *)

(** X1. Started on any 9x9 grid, whatever it holds, the
    seeder takes 27 draws and overwrites each diagonal box with a
    permutation of 1..9; every cell outside the three diagonal boxes keeps
    its value. *)
Theorem generate_diagonals_overwrites b ds :
  wf b -> 27 <= length ds ->
  exists b',
    _generate_diagonals (State b ds) = Return tt (State b' (skipn 27 ds)) /\
    wf b' /\
    (forall k, k < 3 -> Permutation (unit_values b' (box_cells (4 * k))) fresh_nums) /\
    (forall i j, i / 3 <> j / 3 -> cell b' i j = cell b i j).
Proof. intros Hwf Hlen. apply generate_diagonals_ok; assumption. Qed.

Lemma generate_diagonals_overwrites_witness :
  exists b',
    _generate_diagonals (State fives demo_draws) = Return tt (State b' (skipn 27 demo_draws)) /\
    wf b' /\
    (forall k, k < 3 -> Permutation (unit_values b' (box_cells (4 * k))) fresh_nums) /\
    (forall i j, i / 3 <> j / 3 -> cell b' i j = cell fives i j).
Proof.
  apply (generate_diagonals_overwrites fives demo_draws).
  - apply wfb_wf. reflexivity.
  - vm_compute. lia.
Defined.

(** X3. On every 9x9 grid, consistent or not, the filler
    started at (0, 0) under the default recursion limit returns a boolean:
    it raises nothing (82 frames suffice), leaves the random source
    untouched and never changes a placed cell; on True every formerly empty
    cell holds a digit 1..9 that occurs nowhere else in its row, column and
    box, on False the grid is as before. *)
Theorem generate_board_any_grid b ds :
  wf b ->
  exists r b',
    _generate_board 0 0 (State b ds) = Return r (State b' ds) /\
    wf b' /\
    (forall i j, in_grid i j -> cell b i j <> 0%Z -> cell b' i j = cell b i j) /\
    (r = true -> fills b b') /\
    (r = false -> b' = b).
Proof.
  intros Hwf.
  destruct (generate_board_rec_ok recursion_limit 0 0 ltac:(lia) ltac:(lia)
              ltac:(unfold recursion_limit; lia) b ds Hwf)
    as (r & b' & Hrun & Hfalse & Htrue).
  { intros i j _ Hlt. unfold pos in Hlt. lia. }
  exists r, b'. rewrite generate_board_unfold. split; [exact Hrun|].
  destruct r.
  - destruct (Htrue eq_refl) as [Hf _]. pose proof Hf as (Hwf' & Hkeep & _).
    split; [assumption|]. split; [assumption|]. split; [intros _; assumption|discriminate].
  - destruct (Hfalse eq_refl) as [-> _].
    split; [assumption|]. split; [reflexivity|]. split; [discriminate|reflexivity].
Qed.

Lemma generate_board_any_grid_witness :
  exists r b',
    _generate_board 0 0 (State stuck_board [2; 7]) = Return r (State b' [2; 7]) /\
    wf b' /\
    (forall i j, in_grid i j -> cell stuck_board i j <> 0%Z ->
                 cell b' i j = cell stuck_board i j) /\
    (r = true -> fills stuck_board b') /\
    (r = false -> b' = stuck_board).
Proof.
  apply (generate_board_any_grid stuck_board [2; 7]). apply wfb_wf. reflexivity.
Defined.

(** X4. The filler never re-checks placed cells: on a grid
    without empty cell it returns True and changes nothing, whether or not
    the grid obeys the Sudoku rule. *)
Theorem generate_board_full_grid b ds :
  wf b -> count_zero b = 0 ->
  _generate_board 0 0 (State b ds) = Return true (State b ds).
Proof.
  intros Hwf Hfull. rewrite generate_board_unfold.
  apply generate_board_rec_full;
    [assumption|apply count_zero_none; assumption|lia|lia|unfold recursion_limit; lia].
Qed.

Lemma generate_board_full_grid_witness :
  _generate_board 0 0 (State fives []) = Return true (State fives []).
Proof.
  apply (generate_board_full_grid fives []); [apply wfb_wf|]; reflexivity.
Defined.

(** X5. On a consistent grid, for a non-zero number
    that the cell does not hold already, [_is_num_valid] returns True
    exactly when the grid is still consistent after [insert_value] has
    stored the number in the cell. *)
Theorem is_num_valid_guards_consistency b ds row col (num : Z) :
  wf b -> in_grid row col -> consistent b -> num <> 0%Z -> cell b row col <> num ->
  exists r b',
    _is_num_valid row col num (State b ds) = Return r (State b ds) /\
    insert_value row col num (State b ds) = Return tt (State b' ds) /\
    (r = true <-> consistent b').
Proof.
  intros Hwf Hg Hc Hnum Hself.
  exists (valid_at b row col num), (put b row col num).
  split; [apply (is_num_valid_run (State b ds)); assumption|].
  split; [apply (board_set_run (State b ds)); assumption|].
  split.
  - intros Hv. pose proof (proj1 (valid_at_true_iff b row col num Hwf Hg) Hv) as Hfree.
    intros i j i' j' Hij Hij' Hsc Hne Hnz.
    destruct (decide ((i, j) = (row, col))) as [E|Hn1].
    + injection E as -> ->. rewrite cell_put_eq by assumption.
      rewrite cell_put_ne by assumption. apply Hfree; assumption.
    + rewrite (cell_put_ne b row col num i j) in * by assumption.
      destruct (decide ((i', j') = (row, col))) as [E|Hn2].
      * injection E as -> ->. rewrite cell_put_eq by assumption.
        intros Heq. apply (Hfree i j Hij (scanned_sym _ _ _ _ Hsc)). congruence.
      * rewrite cell_put_ne by assumption. apply Hc; assumption.
  - intros Hc'. destruct (valid_at b row col num) eqn:Hv; [reflexivity|]. exfalso.
    apply (valid_at_false_iff b row col num Hwf Hg) in Hv as (i & j & Hij & Hsc & Hcell).
    assert ((i, j) <> (row, col)) as Hne by (intros E; injection E as -> ->; contradiction).
    apply (Hc' row col i j Hg Hij Hsc Hne).
    + rewrite cell_put_eq by assumption. assumption.
    + rewrite cell_put_eq, cell_put_ne by assumption. assumption.
Qed.

Lemma is_num_valid_guards_consistency_witness :
  exists r b',
    _is_num_valid 1 0 9 (State stuck_board []) = Return r (State stuck_board []) /\
    insert_value 1 0 9 (State stuck_board []) = Return tt (State b' []) /\
    (r = true <-> consistent b').
Proof.
  apply (is_num_valid_guards_consistency stuck_board [] 1 0 9).
  - apply wfb_wf. reflexivity.
  - split; lia.
  - apply consistentb_sound. vm_compute. reflexivity.
  - discriminate.
  - vm_compute. discriminate.
Defined.

(** X9. On any 9x9 grid, when the remover returns for
    a configured level it has set exactly blank_count(level) formerly
    non-zero cells to zero (so the grid held at least that many) and
    changed no other cell. *)
Theorem remove_random_fields_blanks (level : Z) n b ds b' ds' :
  wf b -> _difficulty !! level = Some n ->
  _remove_random_fields level (State b ds) = Return tt (State b' ds') ->
  wf b' /\
  count_zero b' = count_zero b + n /\
  n <= count_nonzero b /\
  forall i j, cell b' i j = 0%Z \/ cell b' i j = cell b i j.
Proof.
  intros Hwf Hn H. rewrite (remove_random_fields_unfold level n Hn) in H.
  destruct (repeat_blank_ok n b ds b' ds' Hwf H) as (Hwf' & Hcount & Hkeep).
  pose proof (count_zero_nonzero b). pose proof (count_zero_nonzero b').
  split; [assumption|]. split; [assumption|]. split; [lia|assumption].
Qed.

Lemma remove_random_fields_blanks_witness :
  wf (default [] (final_board (_remove_random_fields 0 (State fives blank_draws)))) /\
  count_zero (default [] (final_board (_remove_random_fields 0 (State fives blank_draws))))
  = count_zero fives + 35 /\
  35 <= count_nonzero fives /\
  forall i j,
    cell (default [] (final_board (_remove_random_fields 0 (State fives blank_draws)))) i j
    = 0%Z \/
    cell (default [] (final_board (_remove_random_fields 0 (State fives blank_draws)))) i j
    = cell fives i j.
Proof.
  apply (remove_random_fields_blanks 0 35 fives blank_draws _ []).
  - apply wfb_wf. reflexivity.
  - reflexivity.
  - vm_compute. reflexivity.
Defined.

(** X10. If the grid holds fewer non-zero cells than
    the blank count of the level, the remover never returns: whatever the
    draws, the rejection loop asks for more. *)
Theorem remove_random_fields_starves (level : Z) n b ds :
  wf b -> _difficulty !! level = Some n -> count_nonzero b < n ->
  _remove_random_fields level (State b ds) = Pending.
Proof.
  intros Hwf Hn Hlt. rewrite (remove_random_fields_unfold level n Hn).
  destruct (repeat_blank_cases n b ds Hwf) as [E|(b' & ds' & E)]; [assumption|].
  exfalso. destruct (repeat_blank_ok n b ds b' ds' Hwf E) as (_ & Hcount & _).
  pose proof (count_zero_nonzero b). pose proof (count_zero_nonzero b'). lia.
Qed.

Lemma remove_random_fields_starves_witness :
  _remove_random_fields 0 (State stuck_board demo_draws) = Pending.
Proof.
  apply (remove_random_fields_starves 0 35 stuck_board demo_draws).
  - apply wfb_wf. reflexivity.
  - reflexivity.
  - vm_compute. lia.
Defined.

(** X8. On a 9x9 grid [get_value] and [insert_value] raise
    IndexError for a row or column index above 8, and the grid is
    unchanged. *)
Theorem accessors_out_of_range b ds row col (value : Z) :
  wf b -> ~ in_grid row col ->
  get_value row col (State b ds) = Raise IndexError (State b ds) /\
  insert_value row col value (State b ds) = Raise IndexError (State b ds).
Proof.
  intros Hwf Hout. pose proof (read_out b row col Hwf Hout) as Hr. split.
  - unfold get_value. rewrite board_get_read, Hr. reflexivity.
  - unfold insert_value, board_set. cbn [_board]. unfold read in Hr.
    destruct (b !! row) as [r|]; [|reflexivity]. rewrite Hr. reflexivity.
Qed.

Lemma accessors_out_of_range_witness :
  get_value 2 9 (State stuck_board [4]) = Raise IndexError (State stuck_board [4]) /\
  insert_value 2 9 6 (State stuck_board [4]) = Raise IndexError (State stuck_board [4]).
Proof.
  apply (accessors_out_of_range stuck_board [4] 2 9 6).
  - apply wfb_wf. reflexivity.
  - unfold in_grid. lia.
Defined.


(** X7. Index errors of [_is_num_valid] on a 9x9 grid: a
    row index above 8 raises IndexError; with a valid row and a column index
    above 8 the row is scanned first, so the answer is False when the row
    holds the number and IndexError otherwise. *)
Theorem is_num_valid_out_of_range b ds row col (num : Z) :
  wf b ->
  (9 <= row -> _is_num_valid row col num (State b ds) = Raise IndexError (State b ds)) /\
  (row < 9 -> 9 <= col ->
   ((exists j, j < 9 /\ cell b row j = num) ->
    _is_num_valid row col num (State b ds) = Return false (State b ds)) /\
   ((forall j, j < 9 -> cell b row j <> num) ->
    _is_num_valid row col num (State b ds) = Raise IndexError (State b ds))).
Proof.
  intros Hwf. split.
  - intros Hrow. unfold _is_num_valid, bind, get_board, getitem. cbn [_board].
    rewrite (proj2 (lookup_ge_None b row)) by (rewrite (proj1 Hwf); assumption).
    reflexivity.
  - intros Hrow Hcol.
    destruct (wf_row b row Hwf Hrow) as (r & Hr & Hlen).
    pose proof (row_hit_iff b row num Hwf Hrow) as Hhit. unfold row_hit in Hhit.
    rewrite Hr in Hhit.
    split.
    + intros Hex. unfold _is_num_valid, bind, get_board, getitem. cbn [_board].
      rewrite Hr, (proj2 Hhit Hex). reflexivity.
    + intros Hall. destruct (existsb (Z.eqb num) r) eqn:E.
      { destruct (proj1 Hhit eq_refl) as (j & Hj & Hc). exfalso. apply (Hall j Hj Hc). }
      destruct b as [|x b0]; [destruct Hwf as [Hl _]; discriminate|].
      assert (x !! col = None) as Hx.
      { apply lookup_ge_None. rewrite (proj2 Hwf 0 x eq_refl). assumption. }
      unfold _is_num_valid, bind, get_board, getitem. cbn [_board any_m].
      rewrite Hr, E, Hx. reflexivity.
Qed.

Lemma is_num_valid_out_of_range_witness :
  (9 <= 9 -> _is_num_valid 9 0 4 (State stuck_board []) = Raise IndexError (State stuck_board [])) /\
  (0 < 9 -> 9 <= 9 ->
   ((exists j, j < 9 /\ cell stuck_board 0 j = 4%Z) ->
    _is_num_valid 0 9 4 (State stuck_board []) = Return false (State stuck_board [])) /\
   ((forall j, j < 9 -> cell stuck_board 0 j <> 4%Z) ->
    _is_num_valid 0 9 4 (State stuck_board []) = Raise IndexError (State stuck_board []))).
Proof.
  split.
  - apply (is_num_valid_out_of_range stuck_board [] 9 0 4). apply wfb_wf. reflexivity.
  - apply (is_num_valid_out_of_range stuck_board [] 0 9 4). apply wfb_wf. reflexivity.
Defined.

(** X11. With a configured level [generate]
    raises no exception on any 9x9 grid: either it returns, leaving a 9x9
    grid, or the remover keeps drawing. *)
Theorem generate_configured_level_no_exception (level : Z) n b ds :
  wf b -> _difficulty !! level = Some n -> 27 <= length ds ->
  generate level (State b ds) = Pending \/
  exists b' ds', generate level (State b ds) = Return tt (State b' ds') /\ wf b'.
Proof.
  intros Hwf Hn Hlen.
  destruct (generate_diagonals_ok b ds Hwf Hlen) as (b1 & Hseed & Hwf1 & _ & _).
  destruct (generate_board_rec_ok recursion_limit 0 0 ltac:(lia) ltac:(lia)
              ltac:(unfold recursion_limit; lia) b1 (skipn 27 ds) Hwf1)
    as (r & b2 & Hfill & Hfalse & Htrue).
  { intros i j _ Hlt. unfold pos in Hlt. lia. }
  assert (wf b2) as Hwf2.
  { destruct r; [apply (Htrue eq_refl)|destruct (Hfalse eq_refl) as [-> _]; assumption]. }
  unfold generate. rewrite (bind_Return _ _ _ _ _ Hseed).
  rewrite generate_board_unfold. rewrite (bind_Return _ _ _ _ _ Hfill).
  rewrite (remove_random_fields_unfold level n Hn).
  destruct (repeat_blank_cases n b2 (skipn 27 ds) Hwf2) as [E|(b' & ds' & E)].
  - left. assumption.
  - right. exists b', ds'. split; [assumption|].
    apply (repeat_blank_ok n b2 (skipn 27 ds) b' ds' Hwf2 E).
Qed.

Lemma generate_configured_level_no_exception_witness :
  generate 1 (State prior_board demo_draws) = Pending \/
  exists b' ds', generate 1 (State prior_board demo_draws) = Return tt (State b' ds') /\ wf b'.
Proof.
  apply (generate_configured_level_no_exception 1 43 prior_board demo_draws).
  - apply wfb_wf. reflexivity.
  - reflexivity.
  - vm_compute. lia.
Defined.

(** X2. Every seed is possible: for any three
    permutations of 1..9 there is an outcome of the random source (27 draws)
    on which the seeder writes exactly them, in row-major order, into the
    three diagonal boxes. *)
Theorem generate_diagonals_reaches_every_seed b vA vB vC :
  wf b ->
  Permutation vA fresh_nums -> Permutation vB fresh_nums -> Permutation vC fresh_nums ->
  exists ds b',
    length ds = 27 /\
    _generate_diagonals (State b ds) = Return tt (State b' []) /\
    unit_values b' (box_cells 0) = vA /\
    unit_values b' (box_cells 4) = vB /\
    unit_values b' (box_cells 8) = vC.
Proof.
  intros Hwf HA HB HC.
  destruct (diag_block_reach 0 ltac:(lia) vA HA) as (uA & HlA & HrA).
  destruct (diag_block_reach 1 ltac:(lia) vB HB) as (uB & HlB & HrB).
  destruct (diag_block_reach 2 ltac:(lia) vC HC) as (uC & HlC & HrC).
  exists (uA ++ uB ++ uC ++ []).
  exists (puts (puts (puts b (box_cells (4 * 0)) vA) (box_cells (4 * 1)) vB)
               (box_cells (4 * 2)) vC).
  split; [rewrite !length_app; simpl; lia|]. split.
  - unfold _generate_diagonals.
    change (seq 0 9) with (3 * 0 :: 3 * 0 + 1 :: 3 * 0 + 2 :: [3; 4; 5; 6; 7; 8]).
    rewrite (HrA _ b _ Hwf).
    change [3; 4; 5; 6; 7; 8] with (3 * 1 :: 3 * 1 + 1 :: 3 * 1 + 2 :: [6; 7; 8]).
    rewrite (HrB _ _ _ (wf_puts _ _ _ Hwf)).
    change [6; 7; 8] with (3 * 2 :: 3 * 2 + 1 :: 3 * 2 + 2 :: []).
    rewrite (HrC _ _ _ (wf_puts _ _ _ (wf_puts _ _ _ Hwf))).
    reflexivity.
  - pose proof (Permutation_length HA) as LA. pose proof (Permutation_length HB) as LB.
    pose proof (Permutation_length HC) as LC. change (length fresh_nums) with 9 in *.
    split; [|split].
    + apply (unit_values_seed b vA vB vC 0); assumption || lia.
    + apply (unit_values_seed b vA vB vC 1); assumption || lia.
    + apply (unit_values_seed b vA vB vC 2); assumption || lia.
Qed.

Lemma generate_diagonals_reaches_every_seed_witness :
  exists ds b',
    length ds = 27 /\
    _generate_diagonals (State zero_board ds) = Return tt (State b' []) /\
    unit_values b' (box_cells 0) = [9; 8; 7; 6; 5; 4; 3; 2; 1]%Z /\
    unit_values b' (box_cells 4) = [2; 4; 6; 8; 1; 3; 5; 7; 9]%Z /\
    unit_values b' (box_cells 8) = fresh_nums.
Proof.
  apply (generate_diagonals_reaches_every_seed zero_board).
  - apply wf_zero_board.
  - symmetry. apply (Permutation_rev fresh_nums).
  - symmetry. apply NoDup_Permutation_bis; [apply NoDup_fresh_nums|simpl; lia|].
    intros z Hz. simpl in *. tauto.
  - reflexivity.
Defined.

(** * Further properties of the GUI grid *)

(** What [generate] leaves on a fresh or just-cleared grid when it returns. *)
Lemma generate_fresh_ok (level : Z) ds b' ds' :
  generate level (init ds) = Return tt (State b' ds') ->
  wf b' /\ _difficulty !! level = Some (count_zero b') /\
  exists s, solved s /\ forall i j, cell b' i j = 0%Z \/ cell b' i j = cell s i j.
Proof.
  intros H. unfold generate in H.
  apply bind_inv in H as ([] & [b1 ds1] & Hseed & H).
  apply bind_inv in H as (r & [b2 ds2] & Hfill & Hrem).
  destruct (generate_diagonals_returns ds b1 ds1 Hseed) as (Hs & _ & _).
  pose proof Hs as (Hwf1 & _ & _).
  destruct (generate_board_rec_ok recursion_limit 0 0 ltac:(lia) ltac:(lia)
              ltac:(unfold recursion_limit; lia) b1 ds1 Hwf1)
    as (r' & b2' & Hrun & Hfalse & Htrue).
  { intros i j _ Hlt. unfold pos in Hlt. lia. }
  rewrite generate_board_unfold in Hfill. rewrite Hrun in Hfill.
  assert (r' = r /\ b2' = b2 /\ ds1 = ds2) as (-> & -> & <-) by (repeat split; congruence).
  destruct (_difficulty !! level) as [n|] eqn:Hn;
    [|unfold _remove_random_fields, difficulty_of in Hrem; rewrite Hn in Hrem; discriminate].
  assert (35 <= n) as Hn35.
  { rewrite difficulty_lookup in Hn.
    repeat (case_decide; [injection Hn as <-; lia|]). discriminate. }
  rewrite (remove_random_fields_unfold level n Hn) in Hrem.
  assert (wf b2) as Hwf2.
  { destruct r; [apply (Htrue eq_refl)|destruct (Hfalse eq_refl) as [-> _]; assumption]. }
  destruct (repeat_blank_ok n b2 ds1 b' ds' Hwf2 Hrem) as (Hwf' & Hcount & Hkeep).
  pose proof (count_zero_nonzero b') as Htot.
  destruct r.
  - destruct (Htrue eq_refl) as [Hf _].
    assert (completes b1 b2) as [Hsol _]
      by (apply fills_completes; [apply seeded_entries|apply seeded_consistent|]; assumption).
    rewrite (count_zero_solved b2 Hsol) in Hcount.
    split; [assumption|]. split; [f_equal; lia|]. exists b2. split; assumption.
  - exfalso. destruct (Hfalse eq_refl) as [-> _].
    pose proof (seeded_count_zero b1 Hs). lia.
Qed.

Lemma build_squares {Rect} (square_rect : nat -> nat -> Rect) b ds :
  wf b ->
  map_m (fun j =>
     map_m (fun i =>
        v <- get_value i j ;;
        ret (sudoku_gui.SudokuSquare_init (square_rect j i) sudoku_gui.white
               false false false (Z.of_nat i) (Z.of_nat j) v))
       (seq 0 9))
    (seq 0 9) (State b ds)
  = Return (grid_of (fresh_square square_rect b)) (State b ds).
Proof.
  intros Hwf. unfold grid_of.
  apply (map_m_pure _ (fun a => map (fun c => fresh_square square_rect b (a, c)) (seq 0 9))).
  intros j Hj. apply in_seq in Hj.
  apply (map_m_pure _ (fun c => fresh_square square_rect b (j, c))).
  intros i Hi. apply in_seq in Hi. unfold get_value.
  rewrite (bind_Return _ _ _ _ _ (board_get_run (State b ds) i j Hwf ltac:(split; lia))).
  reflexivity.
Qed.

(** X12. For two squares at grid places,
    [_check_if_intersects] holds exactly when the second lies in the row,
    column or 3x3 box of the first, the cells [_is_num_valid] scans for the
    first; the test is symmetric. *)
Theorem check_if_intersects_scans_like_engine {Rect}
    (square other : @sudoku_gui.SudokuSquare Rect) i j i' j' :
  sudoku_gui.row square = Z.of_nat i -> sudoku_gui.col square = Z.of_nat j ->
  sudoku_gui.row other = Z.of_nat i' -> sudoku_gui.col other = Z.of_nat j' ->
  (sudoku_gui._check_if_intersects square other = true <-> scanned i j i' j') /\
  sudoku_gui._check_if_intersects other square
  = sudoku_gui._check_if_intersects square other.
Proof.
  intros Hr Hc Hr' Hc'.
  pose proof (intersects_scanned square other i j i' j' Hr Hc Hr' Hc') as H1.
  pose proof (intersects_scanned other square i' j' i j Hr' Hc' Hr Hc) as H2.
  split; [assumption|].
  apply eq_iff_eq_true. rewrite H1, H2. split; apply scanned_sym.
Qed.

Lemma check_if_intersects_scans_like_engine_witness :
  (sudoku_gui._check_if_intersects
     (sudoku_gui.SudokuSquare_init tt sudoku_gui.white false false false 4 7 5)
     (sudoku_gui.SudokuSquare_init tt sudoku_gui.white false false false 5 8 5) = true
   <-> scanned 4 7 5 8) /\
  sudoku_gui._check_if_intersects
    (sudoku_gui.SudokuSquare_init tt sudoku_gui.white false false false 5 8 5)
    (sudoku_gui.SudokuSquare_init tt sudoku_gui.white false false false 4 7 5)
  = sudoku_gui._check_if_intersects
      (sudoku_gui.SudokuSquare_init tt sudoku_gui.white false false false 4 7 5)
      (sudoku_gui.SudokuSquare_init tt sudoku_gui.white false false false 5 8 5).
Proof.
  apply (check_if_intersects_scans_like_engine
           (sudoku_gui.SudokuSquare_init tt sudoku_gui.white false false false 4 7 5)
           (sudoku_gui.SudokuSquare_init tt sudoku_gui.white false false false 5 8 5)
           4 7 5 8); reflexivity.
Defined.

(** X13. On the 9x9 grid of squares
    [_check_if_correct] changes nothing but [is_wrong] flags; the square at
    (r, c) is wrong afterwards exactly when it was wrong before or holds a
    non-zero value that another square of its row, column or box holds
    too.  Flags are only ever set, never cleared. *)
Theorem check_if_correct_marks_conflicts {Rect} (self : @sudoku_gui.SudokuGUI Rect) r c :
  well_placed (sudoku_gui._rects self) -> in_grid r c ->
  exists square square',
    sudoku_gui._get_square self (Z.of_nat r) (Z.of_nat c) = inr square /\
    sudoku_gui._get_square (sudoku_gui._check_if_correct self) (Z.of_nat r) (Z.of_nat c)
    = inr square' /\
    square' = sudoku_gui.set_is_wrong (sudoku_gui.is_wrong square') square /\
    (sudoku_gui.is_wrong square' = true <->
     sudoku_gui.is_wrong square = true \/
     (sudoku_gui.value square <> 0%Z /\
      exists r' c', in_grid r' c' /\ (r', c') <> (r, c) /\ scanned r c r' c' /\
                    cell (value_board (sudoku_gui._rects self)) r' c'
                    = sudoku_gui.value square)).
Proof.
  destruct self as [d rects k]. cbn [sudoku_gui._rects]. intros Hwp Hrc.
  destruct (well_placed_inv rects Hwp) as (f & -> & Hpl).
  exists (f (c, r)), (flagged f all_pairs (c, r)).
  split; [apply get_square_grid_of; assumption|].
  split; [rewrite check_if_correct_grid_of; apply get_square_grid_of; assumption|].
  split; [unfold flagged; destruct (f (c, r)); reflexivity|].
  assert (sudoku_gui.is_wrong (flagged f all_pairs (c, r))
          = sudoku_gui.is_wrong (f (c, r)) || marked f all_pairs (c, r)) as ->
    by reflexivity.
  rewrite orb_true_iff, (marked_iff f Hpl r c Hrc).
  split; (intros [H|[Hnz (r' & c' & Hg & Hne & Hsc & Hv)]]; [left; exact H|right]);
    (split; [exact Hnz|]); exists r', c'; repeat (split; [assumption|]).
  - rewrite cell_value_board by assumption. exact Hv.
  - rewrite cell_value_board in Hv by assumption. exact Hv.
Qed.

Lemma check_if_correct_marks_conflicts_witness :
  exists square square',
    sudoku_gui._get_square (sudoku_gui.Gui 0 (squares_of fives) false) (Z.of_nat 4) (Z.of_nat 7)
    = inr square /\
    sudoku_gui._get_square
      (sudoku_gui._check_if_correct (sudoku_gui.Gui 0 (squares_of fives) false))
      (Z.of_nat 4) (Z.of_nat 7) = inr square' /\
    square' = sudoku_gui.set_is_wrong (sudoku_gui.is_wrong square') square /\
    (sudoku_gui.is_wrong square' = true <->
     sudoku_gui.is_wrong square = true \/
     (sudoku_gui.value square <> 0%Z /\
      exists r' c', in_grid r' c' /\ (r', c') <> (4, 7) /\ scanned 4 7 r' c' /\
                    cell (value_board (squares_of fives)) r' c' = sudoku_gui.value square)).
Proof.
  apply (check_if_correct_marks_conflicts (sudoku_gui.Gui 0 (squares_of fives) false) 4 7).
  - apply well_placed_squares_of.
  - split; lia.
Defined.

(** X14. With the flags freshly computed
    ([_reset_state(ignore_wrong=False)], then [_check_if_correct]),
    [_check_win] returns True exactly when the values of the squares form a
    solved grid: every row, column and box holds each of 1..9 once. *)
Theorem check_win_iff_solved {Rect} (self : @sudoku_gui.SudokuGUI Rect) :
  well_placed (sudoku_gui._rects self) ->
  sudoku_gui._check_win (sudoku_gui._check_if_correct (sudoku_gui._reset_state self false))
  = inr true
  <-> solved (value_board (sudoku_gui._rects self)).
Proof.
  destruct self as [d rects k]. cbn [sudoku_gui._rects]. intros Hwp.
  destruct (well_placed_inv rects Hwp) as (f & -> & Hpl).
  set (f1 := fun x => sudoku_gui.Square (sudoku_gui.rect (f x)) (sudoku_gui.color (f x))
                        false false false (sudoku_gui.value (f x)) (sudoku_gui.row (f x))
                        (sudoku_gui.col (f x)) (sudoku_gui.notes (f x))
                        (sudoku_gui.editable (f x)) false).
  assert (sudoku_gui._reset_state (sudoku_gui.Gui d (grid_of f) k) false
          = sudoku_gui.Gui d (grid_of f1) k) as -> by reflexivity.
  rewrite check_if_correct_grid_of, check_win_spec.
  cbn [sudoku_gui._rects]. rewrite concat_grid_of.
  assert (forall a c, a < 9 -> c < 9 ->
            sudoku_gui.col (f1 (a, c)) = Z.of_nat a /\
            sudoku_gui.row (f1 (a, c)) = Z.of_nat c) as Hpl1 by exact Hpl.
  set (f2 := flagged f1 all_pairs).
  set (B := value_board (grid_of f)).
  assert (forall i j, in_grid i j -> cell B i j = sudoku_gui.value (f1 (j, i))) as HB.
  { intros i j Hij. unfold B. rewrite cell_value_board by assumption. reflexivity. }
  assert (forall x, counted (f2 x)
                    = negb (sudoku_gui.value (f1 x) =? 0)%Z && negb (marked f1 all_pairs x))
    as Hcounted by reflexivity.
  assert (forall i j, in_grid i j ->
            marked f1 all_pairs (j, i) = true <->
            cell B i j <> 0%Z /\
            exists i' j', in_grid i' j' /\ (i', j') <> (i, j) /\ scanned i j i' j' /\
                          cell B i' j' = cell B i j) as Hmark.
  { intros i j Hij. rewrite (marked_iff f1 Hpl1 i j Hij), (HB i j Hij).
    split; intros (Hnz & i' & j' & Hg & Hne & Hsc & Hv); (split; [exact Hnz|]);
      exists i', j'; repeat (split; [assumption|]).
    - rewrite (HB i' j' Hg). exact Hv.
    - rewrite <- (HB i' j' Hg). exact Hv. }
  rewrite solved_iff. split.
  - intros [Hknown Htally].
    assert (forallb counted (map f2 all_cells) = true) as Hall.
    { apply filter_length_all. rewrite <- (tally_total _ Hknown).
      rewrite (map_ext_in _ (fun _ => 9)) by (intros k' Hk'; apply Htally; exact Hk').
      reflexivity. }
    rewrite forallb_forall in Hall, Hknown.
    assert (forall i j, in_grid i j ->
              (1 <= cell B i j <= 9)%Z /\ marked f1 all_pairs (j, i) = false) as Hcell.
    { intros i j Hij.
      assert (In (f2 (j, i)) (map f2 all_cells)) as Hin.
      { apply in_map. apply in_all_cells. destruct Hij. split; assumption. }
      pose proof (Hall _ Hin) as Hc. pose proof (Hknown _ Hin) as Hk.
      unfold known in Hk. rewrite Hc in Hk. cbn [negb orb] in Hk.
      rewrite Hcounted in Hc. apply andb_true_iff in Hc as [_ Hm].
      apply negb_true_iff in Hm. split; [|exact Hm].
      apply existsb_exists in Hk as (k' & Hk' & Hv). apply Z.eqb_eq in Hv.
      rewrite (HB i j Hij). change (sudoku_gui.value (f2 (j, i))) with
        (sudoku_gui.value (f1 (j, i))) in Hv. rewrite Hv.
      simpl in Hk'. lia. }
    split; [apply wf_value_board|]. split.
    + intros i j Hij. apply Hcell. assumption.
    + intros i j i' j' Hij Hij' Hsc Hne Hnz Heq.
      destruct (Hcell i j Hij) as [_ Hm].
      assert (marked f1 all_pairs (j, i) = true) as Hm'; [|congruence].
      apply Hmark; [assumption|]. split; [assumption|].
      exists i', j'. repeat (split; [assumption|]). exact Heq.
  - intros (_ & Hent & Hcons).
    assert (forall i j, in_grid i j -> marked f1 all_pairs (j, i) = false) as Hm.
    { intros i j Hij. destruct (marked f1 all_pairs (j, i)) eqn:E; [|reflexivity].
      exfalso. apply (Hmark i j Hij) in E as (Hnz & i' & j' & Hg & Hne & Hsc & Hv).
      apply (Hcons i j i' j' Hij Hg Hsc Hne Hnz Hv). }
    assert (forall x, In x all_cells ->
              counted (f2 x) = true /\ (1 <= sudoku_gui.value (f2 x) <= 9)%Z) as Hc.
    { intros [a c] Hin. apply in_all_cells in Hin as [Ha Hc'].
      pose proof (Hent c a (conj Hc' Ha)) as He. rewrite (HB c a (conj Hc' Ha)) in He.
      split; [|exact He]. rewrite Hcounted, (Hm c a (conj Hc' Ha)).
      apply andb_true_iff. split; [|reflexivity].
      apply negb_true_iff, Z.eqb_neq. lia. }
    split.
    + apply forallb_forall. intros s Hs. apply in_map_iff in Hs as (x & <- & Hx).
      destruct (Hc x Hx) as [Hcx Hvx]. unfold known. rewrite Hcx. cbn [negb orb].
      apply existsb_exists. exists (sudoku_gui.value (f2 x)).
      split; [|apply Z.eqb_refl]. generalize dependent (sudoku_gui.value (f2 x)).
      intros v Hv. simpl. lia.
    + intros k' Hk'. assert (1 <= k' <= 9)%Z as Hk9 by (simpl in Hk'; lia).
      unfold tally. rewrite filter_map_length.
      assert (solved B) as HsB
        by (apply solved_iff; split; [apply wf_value_board|split; assumption]).
      rewrite <- (digit_count_solved B k' HsB Hk9).
      apply f_equal. apply List.filter_ext_in. intros [a c] Hin.
      destruct (Hc _ Hin) as [-> _]. cbn [andb fst snd].
      apply in_all_cells in Hin as [Ha Hc']. rewrite (HB c a (conj Hc' Ha)). reflexivity.
Qed.

Lemma check_win_iff_solved_witness :
  sudoku_gui._check_win
    (sudoku_gui._check_if_correct
       (sudoku_gui._reset_state (sudoku_gui.Gui 3 (squares_of stuck_board) true) false))
  = inr true
  <-> solved (value_board (squares_of stuck_board)).
Proof.
  apply (check_win_iff_solved (sudoku_gui.Gui 3 (squares_of stuck_board) true)).
  apply well_placed_squares_of.
Defined.

(** X15. When the engine's [clear_board] and
    [generate] return, [SudokuGUI._generate_board] returns with nine columns
    of nine fresh squares and the Continue flag off: [_get_square(r, c)] is
    the square of row r, column c with the engine's value at (r, c), not
    selected, not wrong, without notes and editable iff that value is 0;
    the number of editable squares is the blank count of the difficulty. *)
Theorem gui_generate_board_mirrors_engine {Rect} (square_rect : nat -> nat -> Rect)
    (self : @sudoku_gui.SudokuGUI Rect) b ds b' ds' :
  (clear_board ;;; generate (sudoku_gui._difficulty self)) (State b ds)
    = Return tt (State b' ds') ->
  exists self',
    sudoku_gui._generate_board square_rect self (State b ds) = Return self' (State b' ds') /\
    sudoku_gui._difficulty self' = sudoku_gui._difficulty self /\
    sudoku_gui._continue self' = false /\
    (forall r c, in_grid r c ->
       sudoku_gui._get_square self' (Z.of_nat r) (Z.of_nat c)
       = inr (sudoku_gui.SudokuSquare_init (square_rect c r) sudoku_gui.white
                false false false (Z.of_nat r) (Z.of_nat c) (cell b' r c))) /\
    well_placed (sudoku_gui._rects self') /\
    value_board (sudoku_gui._rects self') = b' /\
    _difficulty !! sudoku_gui._difficulty self
    = Some (length (List.filter sudoku_gui.editable (concat (sudoku_gui._rects self')))).
Proof.
  intros H.
  assert (generate (sudoku_gui._difficulty self) (init ds) = Return tt (State b' ds')) as Hg
    by exact H.
  destruct (generate_fresh_ok _ _ _ _ Hg) as (Hwf & Hn & _).
  exists (sudoku_gui.Gui (sudoku_gui._difficulty self) (grid_of (fresh_square square_rect b'))
                         false).
  split.
  - unfold sudoku_gui._generate_board. unfold bind at 1, clear_board.
    change (set_board zero_board (State b ds)) with (init ds).
    rewrite (bind_Return _ _ _ _ _ Hg).
    rewrite (bind_Return _ _ _ _ _ (build_squares square_rect b' ds' Hwf)). reflexivity.
  - cbn [sudoku_gui._difficulty sudoku_gui._continue sudoku_gui._rects].
    split; [reflexivity|]. split; [reflexivity|]. split; [|split; [|split]].
    + intros r c Hrc. rewrite get_square_grid_of by assumption. reflexivity.
    + apply well_placed_grid_of. intros a c _ _. split; reflexivity.
    + apply board_ext; [apply wf_value_board|assumption|].
      intros i j Hij. rewrite cell_value_board by assumption. reflexivity.
    + rewrite Hn. f_equal. rewrite concat_grid_of, filter_map_length.
      unfold count_zero. rewrite <- (all_cells_transpose (is_zero b')).
      apply f_equal, List.filter_ext. intros [a c]. unfold is_zero, fresh_square.
      cbn [fst snd sudoku_gui.SudokuSquare_init sudoku_gui.editable].
      destruct (cell b' c a =? 0)%Z; reflexivity.
Qed.

Lemma gui_generate_board_mirrors_engine_witness :
  exists self',
    sudoku_gui._generate_board (fun _ _ => tt) (sudoku_gui.Gui 0 [] true)
      (State prior_board demo_draws)
    = Return self' (State (default [] (final_board (generate 0 (init demo_draws)))) []) /\
    sudoku_gui._difficulty self' = 0%Z /\
    sudoku_gui._continue self' = false /\
    (forall r c, in_grid r c ->
       sudoku_gui._get_square self' (Z.of_nat r) (Z.of_nat c)
       = inr (sudoku_gui.SudokuSquare_init tt sudoku_gui.white
                false false false (Z.of_nat r) (Z.of_nat c)
                (cell (default [] (final_board (generate 0 (init demo_draws)))) r c))) /\
    well_placed (sudoku_gui._rects self') /\
    value_board (sudoku_gui._rects self')
    = default [] (final_board (generate 0 (init demo_draws))) /\
    _difficulty !! 0%Z
    = Some (length (List.filter sudoku_gui.editable (concat (sudoku_gui._rects self')))).
Proof.
  apply (gui_generate_board_mirrors_engine (fun _ _ => tt) (sudoku_gui.Gui 0 [] true)
           prior_board demo_draws).
  vm_compute. reflexivity.
Defined.

(** X16. Right after
    [SudokuGUI._generate_board] the puzzle shows no conflict and is not
    won: [_check_if_correct] changes nothing, no square is wrong, and
    [_check_win] returns False (without KeyError). *)
Theorem gui_fresh_puzzle_has_no_wrong_square {Rect} (square_rect : nat -> nat -> Rect)
    (self self' : @sudoku_gui.SudokuGUI Rect) b ds b' ds' :
  sudoku_gui._generate_board square_rect self (State b ds) = Return self' (State b' ds') ->
  sudoku_gui._check_if_correct self' = self' /\
  (forall r c square, in_grid r c ->
     sudoku_gui._get_square self' (Z.of_nat r) (Z.of_nat c) = inr square ->
     sudoku_gui.is_wrong square = false) /\
  sudoku_gui._check_win self' = inr false.
Proof.
  intros H. unfold sudoku_gui._generate_board in H.
  unfold bind at 1, clear_board in H.
  change (set_board zero_board (State b ds)) with (init ds) in H.
  apply bind_inv in H as ([] & [b1 ds1] & Hg & H).
  destruct (generate_fresh_ok _ _ _ _ Hg) as (Hwf & Hn & s & Hsol & Hsub).
  rewrite (bind_Return _ _ _ _ _ (build_squares square_rect b1 ds1 Hwf)) in H.
  injection H as <- <- <-.
  set (f := fresh_square square_rect b1).
  assert (forall a c, a < 9 -> c < 9 ->
            sudoku_gui.col (f (a, c)) = Z.of_nat a /\ sudoku_gui.row (f (a, c)) = Z.of_nat c)
    as Hpl by (intros a c _ _; split; reflexivity).
  apply solved_iff in Hsol as (Hwfs & Hent & Hcons).
  assert (forall i j, in_grid i j -> marked f all_pairs (j, i) = false) as Hm.
  { intros i j Hij. destruct (marked f all_pairs (j, i)) eqn:E; [|reflexivity]. exfalso.
    apply (marked_iff f Hpl i j Hij) in E as (Hnz & i' & j' & Hg' & Hne & Hsc & Hv).
    change (cell b1 i' j' = cell b1 i j) in Hv. change (cell b1 i j <> 0%Z) in Hnz.
    destruct (Hsub i j) as [E|E]; [contradiction|].
    destruct (Hsub i' j') as [E'|E']; [congruence|].
    apply (Hcons i j i' j' Hij Hg' Hsc Hne); congruence. }
  assert (grid_of (flagged f all_pairs) = grid_of f) as Hsame.
  { apply grid_of_ext. intros [a c] Hin. apply in_all_cells in Hin as [Ha Hc].
    unfold flagged. rewrite (Hm c a (conj Hc Ha)). reflexivity. }
  split; [rewrite check_if_correct_grid_of, Hsame; reflexivity|]. split.
  - intros r c square Hrc Hsq. rewrite get_square_grid_of in Hsq by assumption.
    injection Hsq as <-. reflexivity.
  - destruct (sudoku_gui._check_win _) as [e|[|]] eqn:Hw.
    + exfalso. unfold sudoku_gui._check_win, sudoku_gui._check_completion in Hw.
      cbv zeta in Hw. fold (@nums0). cbn [sudoku_gui._rects] in Hw.
      change (map (fun i : nat => (Z.of_nat i, 0)) (seq 1 9)) with nums0 in Hw.
      rewrite count_squares_spec, concat_grid_of in Hw
        by (apply NoDup_ListNoDup; apply (bool_decide_unpack _); vm_compute; exact I).
      assert (forallb (known nums0) (map f all_cells) = true) as Hk.
      { apply forallb_forall. intros sq Hin. apply in_map_iff in Hin as ([a c] & <- & Hin).
        apply in_all_cells in Hin as [Ha Hc]. unfold known, counted.
        change (sudoku_gui.value (f (a, c))) with (cell b1 c a).
        destruct (Hsub c a) as [E|E].
        - rewrite E. reflexivity.
        - pose proof (Hent c a (conj Hc Ha)) as He. rewrite <- E in He.
          apply orb_true_iff. right. apply existsb_exists. exists (cell b1 c a).
          split; [|apply Z.eqb_refl]. generalize dependent (cell b1 c a).
          intros v _ Hv. simpl. lia. }
      rewrite Hk in Hw. discriminate.
    + exfalso. apply check_win_spec in Hw as [_ Ht]. cbn [sudoku_gui._rects] in Ht.
      rewrite concat_grid_of in Ht.
      assert (81 <= length (List.filter counted (map f all_cells))) as H81.
      { assert (forallb (known nums0) (map f all_cells) = true) as Hk.
        { apply forallb_forall. intros sq Hin. apply in_map_iff in Hin as ([a c] & <- & Hin).
          apply in_all_cells in Hin as [Ha Hc]. unfold known, counted.
          change (sudoku_gui.value (f (a, c))) with (cell b1 c a).
          destruct (Hsub c a) as [E|E].
          - rewrite E. reflexivity.
          - pose proof (Hent c a (conj Hc Ha)) as He. rewrite <- E in He.
            apply orb_true_iff. right. apply existsb_exists. exists (cell b1 c a).
            split; [|apply Z.eqb_refl]. generalize dependent (cell b1 c a).
            intros v _ Hv. simpl. lia. }
        rewrite <- (tally_total _ Hk).
        rewrite (map_ext_in _ (fun _ => 9)) by (intros k' Hk'; apply Ht; exact Hk').
        simpl. lia. }
      assert (length (List.filter counted (map f all_cells)) <= count_nonzero b1) as Hle.
      { rewrite filter_map_length. unfold count_nonzero.
        rewrite <- (all_cells_transpose (fun y => negb (is_zero b1 y))).
        apply filter_length_mono. intros [a c] _. unfold counted, is_zero. cbn [fst snd].
        change (sudoku_gui.value (f (a, c))) with (cell b1 c a).
        intros Hc. apply andb_true_iff in Hc as [Hc _]. exact Hc. }
      pose proof (count_zero_nonzero b1) as Htot.
      assert (35 <= count_zero b1).
      { rewrite difficulty_lookup in Hn.
        repeat (case_decide; [injection Hn as Hn; lia|]). discriminate. }
      lia.
    + reflexivity.
Qed.

Lemma gui_fresh_puzzle_has_no_wrong_square_witness :
  sudoku_gui._check_if_correct demo_gui = demo_gui /\
  (forall r c square, in_grid r c ->
     sudoku_gui._get_square demo_gui (Z.of_nat r) (Z.of_nat c) = inr square ->
     sudoku_gui.is_wrong square = false) /\
  sudoku_gui._check_win demo_gui = inr false.
Proof.
  apply (gui_fresh_puzzle_has_no_wrong_square (fun _ _ => tt) (sudoku_gui.Gui 0 [] true)
           demo_gui prior_board demo_draws
           (default [] (final_board (generate 0 (init demo_draws)))) []).
  vm_compute. reflexivity.
Defined.

(** X17. For every outcome of the random source, the
    seeder on the all-zero grid followed by the filler at (0, 0) succeeds:
    the filler returns True without touching the random source, keeps the
    27 seeded cells, and leaves a solved grid, every row, column and box
    holding each of 1..9 once. *)
Theorem seeder_then_filler_solves ds :
  27 <= length ds ->
  exists b1 s,
    _generate_diagonals (init ds) = Return tt (State b1 (skipn 27 ds)) /\
    _generate_board 0 0 (State b1 (skipn 27 ds)) = Return true (State s (skipn 27 ds)) /\
    solved s /\
    forall i j, in_grid i j -> cell b1 i j <> 0%Z -> cell s i j = cell b1 i j.
Proof.
  intros Hlen. destruct (generate_diagonals_seeded ds Hlen) as (b1 & Hrun & Hseed).
  pose proof Hseed as (Hwf1 & _ & _).
  destruct (generate_board_rec_ok recursion_limit 0 0 ltac:(lia) ltac:(lia)
              ltac:(unfold recursion_limit; lia) b1 (skipn 27 ds) Hwf1)
    as (r & b2 & Hfill & Hfalse & Htrue).
  { intros i j _ Hlt. unfold pos in Hlt. lia. }
  destruct (seeded_completes b1 Hseed) as [s0 Hs0].
  destruct r; [|exfalso; apply (proj2 (Hfalse eq_refl) s0 Hs0)].
  destruct (Htrue eq_refl) as [Hf _].
  destruct (fills_completes b1 b2 (seeded_entries b1 Hseed) (seeded_consistent b1 Hseed) Hf)
    as [Hsol Hkeep].
  exists b1, b2. split; [assumption|]. rewrite generate_board_unfold.
  split; [assumption|]. split; assumption.
Qed.

Lemma seeder_then_filler_solves_witness :
  exists b1 s,
    _generate_diagonals (init demo_draws) = Return tt (State b1 (skipn 27 demo_draws)) /\
    _generate_board 0 0 (State b1 (skipn 27 demo_draws))
    = Return true (State s (skipn 27 demo_draws)) /\
    solved s /\
    forall i j, in_grid i j -> cell b1 i j <> 0%Z -> cell s i j = cell b1 i j.
Proof.
  apply (seeder_then_filler_solves demo_draws). vm_compute. lia.
Defined.
